(** * kheops-client: shallow embedding of the search / download core

    The development follows [kheops_client/_utils.py] and
    [kheops_client/_client.py].  Python values, exceptions and the three
    collaborators (pathlib/os, pandas, pydicom) are modelled first, then
    the functions of the two source files under their own names, then the
    properties. *)

From Stdlib Require Import ZArith Lia Ascii String Sorting.Sorted.
From stdpp Require Import base option list strings gmap.

Set Warnings "-register-all,-clear-no-such-hyp".
Open Scope string_scope.

(* ===================================================================== *)
(** ** Python values and exceptions *)
(* ===================================================================== *)

(** File-system paths: the list of path components, innermost first, below
    the process' working directory ([[]]).  [p / name] of pathlib is
    [name :: p] and [p.parent] is [tail p].  A UID spliced into a path is one
    component: DICOM UIDs are digits and dots and never hold a separator. *)
Abbreviation path := (list string).

Inductive exn : Type :=
| ValueError (msg : string)
| TypeError (msg : string)
| AttributeError (msg : string)
| KeyError (key : string)
| IndexError (msg : string)
| RuntimeError (msg : string)
| FileExistsError (p : path)
| FileNotFoundError (p : path)
| NotADirectoryError (p : path)
| IsADirectoryError (p : path).

Inductive result (A : Type) : Type :=
| Ok (a : A)
| Err (e : exn).
Arguments Ok {A} a.
Arguments Err {A} e.

Definition rbind {A B} (r : result A) (k : A → result B) : result B :=
  match r with
  | Ok a => k a
  | Err e => Err e
  end.

Declare Scope py_scope.
Delimit Scope py_scope with py.
Notation "'let?' x := r 'in' k" := (rbind r (fun x => k))
  (at level 10, x pattern, r at level 100, k at level 200) : py_scope.
Open Scope py_scope.

(** [[f(x) for x in xs]] where [f] may raise: the first exception wins. *)
Fixpoint rmap {A B} (f : A → result B) (xs : list A) : result (list B) :=
  match xs with
  | [] => Ok []
  | x :: xs' =>
      let? y := f x in
      let? ys := rmap f xs' in
      Ok (y :: ys)
  end.

(** The values that occur in DICOM records and table cells: [None], [str],
    [int], [bytes] and sequences (JSON lists, pydicom's [MultiValue]). *)
Inductive value : Type :=
| VNone
| VStr (s : string)
| VInt (n : Z)
| VBytes (b : string)
| VSeq (l : list value).

(** [len(v)] *)
Definition py_len (v : value) : result nat :=
  match v with
  | VStr s => Ok (String.length s)
  | VBytes b => Ok (String.length b)
  | VSeq l => Ok (length l)
  | VNone => Err (TypeError "object of type 'NoneType' has no len()")
  | VInt _ => Err (TypeError "object of type 'int' has no len()")
  end.

(** [v[0]] *)
Definition py_item0 (v : value) : result value :=
  match v with
  | VStr (String c _) => Ok (VStr (String c EmptyString))
  | VBytes (String c _) => Ok (VInt (Z.of_nat (Ascii.nat_of_ascii c)))
  | VSeq (x :: _) => Ok x
  | VStr EmptyString | VBytes EmptyString | VSeq [] =>
      Err (IndexError "index out of range")
  | VNone | VInt _ => Err (TypeError "object is not subscriptable")
  end.

(* --------------------------------------------------------------------- *)
(** *** [str.split(".")] and [int(str)] *)

(** [s.split(sep)] for a one-character separator: never empty, and an empty
    piece for every two adjacent separators. *)
Fixpoint str_split (sep : ascii) (s : string) : list string :=
  match s with
  | EmptyString => [EmptyString]
  | String c s' =>
      if Ascii.eqb c sep then EmptyString :: str_split sep s'
      else match str_split sep s' with
           | hd :: tl => String c hd :: tl
           | [] => [String c EmptyString]
           end
  end.

(** White space as [int()] skips it at both ends of an ASCII [str]: tab to
    carriage return, and the space. *)
Definition is_space (c : ascii) : bool :=
  let n := Ascii.nat_of_ascii c in
  ((9 <=? n) && (n <=? 13) || (n =? 32))%nat.

Definition digit_of (c : ascii) : option Z :=
  let n := Z.of_nat (Ascii.nat_of_ascii c) in
  if ((48 <=? n) && (n <=? 57))%Z then Some (n - 48)%Z else None.

Fixpoint drop_spaces (l : list ascii) : list ascii :=
  match l with
  | c :: l' => if is_space c then drop_spaces l' else l
  | [] => []
  end.

Definition strip_spaces (l : list ascii) : list ascii :=
  rev (drop_spaces (rev (drop_spaces l))).

(** Base-10 digits, single underscores allowed between two digits only.
    [after_us] is true at the start and right after an underscore, where a
    digit is required. *)
Fixpoint digits_value (after_us : bool) (acc : Z) (l : list ascii) : option Z :=
  match l with
  | [] => if after_us then None else Some acc
  | c :: l' =>
      if Ascii.eqb c "_" then
        if after_us then None else digits_value true acc l'
      else
        match digit_of c with
        | Some d => digits_value false (10 * acc + d)%Z l'
        | None => None
        end
  end.

Definition parse_int (s : string) : option Z :=
  match strip_spaces (list_ascii_of_string s) with
  | "-"%char :: ds => Z.opp <$> digits_value true 0%Z ds
  | "+"%char :: ds => digits_value true 0%Z ds
  | ds => digits_value true 0%Z ds
  end.

(** [int(s)] for a [str]: the integer, or [ValueError].  Only ASCII digits
    are read as digits. *)
Definition py_int (s : string) : result Z :=
  match parse_int s with
  | Some z => Ok z
  | None =>
      Err (ValueError ("invalid literal for int() with base 10: '" +:+ s +:+ "'"))
  end.

(** [needle in e] for an exception instance [e]: exceptions are neither
    containers nor iterable, so the membership test itself raises. *)
Definition py_in_exception (needle : string) (e : exn) : result bool :=
  Err (TypeError "argument of type 'ValueError' is not iterable").

(** Comparison of two tuples with [<], as the interpreter does it: skip the
    common prefix, compare the first pair that differs, a proper prefix is
    smaller. *)
Fixpoint tuple_lt (v w : list Z) : bool :=
  match v, w with
  | x :: v', y :: w' => if (x =? y)%Z then tuple_lt v' w' else (x <? y)%Z
  | [], _ :: _ => true
  | _, [] => false
  end.

Fixpoint strlist_lt (v w : list string) : bool :=
  match v, w with
  | x :: v', y :: w' => if String.eqb x y then strlist_lt v' w' else String.ltb x y
  | [], _ :: _ => true
  | _, [] => false
  end.

(* ===================================================================== *)
(** ** [_utils.py]: [flatten] and the sort key *)
(* ===================================================================== *)

(** [value[0] if value is not None and len(value)==1 else value] *)
Definition flatten (v : value) : result value :=
  match v with
  | VNone => Ok VNone
  | _ =>
      let? n := py_len v in
      if (n =? 1)%nat then py_item0 v else Ok v
  end.

(** What [uid_key] can return: the tuple of integers, or the list of
    pieces left in [uid] by [split] when the handler swallows the error. *)
Inductive key : Type :=
| KTuple (zs : list Z)
| KList (parts : list string).

(** [uid.split(".")] on a table cell: only [str] has this [split]. *)
Definition uid_split (uid : value) : result (list string) :=
  match uid with
  | VStr s => Ok (str_split "." s)
  | VNone => Err (AttributeError "'NoneType' object has no attribute 'split'")
  | VInt _ => Err (AttributeError "'int' object has no attribute 'split'")
  | VBytes _ => Err (TypeError "a bytes-like object is required, not 'str'")
  | VSeq _ => Err (AttributeError "'MultiValue' object has no attribute 'split'")
  end.

(** [sort_frame_by_uid.uid_key] *)
Definition uid_key (uid : value) : result key :=
  let? uid := uid_split uid in
  match rmap py_int uid with
  | Ok zs => Ok (KTuple zs)
  | Err (ValueError msg) =>
      let? found := py_in_exception "invalid literal for int()" (ValueError msg) in
      if negb found then Err (ValueError msg) else Ok (KList uid)
  | Err e => Err e
  end.

(** The order [sort_values] sorts the mapped keys by.  Tuples compare with
    tuples and lists with lists; a tuple never compares with a list. *)
Definition key_lt (a b : key) : bool :=
  match a, b with
  | KTuple v, KTuple w => tuple_lt v w
  | KList v, KList w => strlist_lt v w
  | _, _ => false
  end.

Definition is_tuple (k : key) : bool :=
  match k with KTuple _ => true | KList _ => false end.

(* ===================================================================== *)
(** ** pydicom: datasets and the JSON wire format *)
(* ===================================================================== *)

(** A dataset is keyed by keyword here; the data dictionary that pairs each
    keyword with its tag is left implicit.  The two transfer-syntax flags are
    the ones the writer fills in before saving. *)
Record Dataset : Type := mkDataset {
  elements : gmap string value;
  is_little_endian : option bool;
  is_implicit_VR : option bool }.

(** [d.get(keyword, default=None)] *)
Definition ds_get (d : Dataset) (keyword : string) : value :=
  default VNone (elements d !! keyword).

(** [d.<keyword>]: attribute access raises for an absent element. *)
Definition ds_attr (d : Dataset) (keyword : string) : result value :=
  match elements d !! keyword with
  | Some v => Ok v
  | None => Err (AttributeError ("'Dataset' object has no attribute '" +:+ keyword +:+ "'"))
  end.

(** One attribute of a DICOM JSON record: its VR and at most one of
    [Value], [InlineBinary], [BulkDataURI]. *)
Inductive json_body : Type :=
| JValue (vs : list value)
| JInlineBinary (data : string)
| JBulkDataURI (uri : string)
| JNoValue.

Record json_element : Type := mkJsonElement {
  vr : string;
  body : json_body }.

Abbreviation json_record := (gmap string json_element).

Definition text_VRs : list string :=
  ["AE"; "AS"; "CS"; "DA"; "DT"; "LO"; "LT"; "SH"; "ST"; "TM"; "UC"; "UI"; "UR"; "UT"; "PN"].

(** pydicom's [empty_value_for_VR]; [raw] selects bytes over text. *)
Definition empty_value_for_VR (vr : string) (raw : bool) : value :=
  if String.eqb vr "SQ" then (if raw then VBytes "" else VSeq [])
  else if bool_decide (vr ∈ text_VRs) then (if raw then VBytes "" else VStr "")
  else VNone.

(** The value [Dataset.from_json] stores for one attribute.  A bulk-data
    reference goes through the handler when there is one and becomes the
    VR's empty value otherwise ([''] for a text VR). *)
Definition element_value (handler : option (string → string)) (e : json_element) : value :=
  match body e with
  | JValue [] => empty_value_for_VR (vr e) false
  | JValue [v] => v
  | JValue vs => VSeq vs
  | JInlineBinary data => VBytes data
  | JBulkDataURI uri =>
      match handler with
      | Some h => VBytes (h uri)
      | None => empty_value_for_VR (vr e) false
      end
  | JNoValue => empty_value_for_VR (vr e) false
  end.

(** [Dataset.from_json(data, bulk_data_uri_handler=handler)] *)
Definition from_json (data : json_record) (handler : option (string → string)) : Dataset :=
  {| elements := element_value handler <$> data;
     is_little_endian := None;
     is_implicit_VR := None |}.

(* ===================================================================== *)
(** ** pandas: frames *)
(* ===================================================================== *)

(** A frame: the ordered column labels and the rows, each row a map from
    column label to cell.  A cell that is missing reads as [None] (NaN). *)
Record frame : Type := mkFrame {
  columns : list string;
  rows : list (gmap string value) }.

Definition cell (r : gmap string value) (col : string) : value :=
  default VNone (r !! col).

(** [len(df)] *)
Definition frame_len (df : frame) : nat := length (rows df).

(** [df[col]], in row order *)
Definition column (df : frame) (col : string) : result (list value) :=
  if bool_decide (col ∈ columns df) then Ok ((fun r => cell r col) <$> rows df)
  else Err (KeyError col).

(** [row[col]] for a row handed out by [iterrows] *)
Definition row_item (df : frame) (r : gmap string value) (col : string) : result value :=
  if bool_decide (col ∈ columns df) then Ok (cell r col) else Err (KeyError col).

(** [pd.DataFrame(data, columns=cols)] for a dict of equally long lists:
    as many rows as the lists are long, none when no column is requested. *)
Definition DataFrame (data : gmap string (list value)) (cols : list string) : frame :=
  let n := match cols with
           | [] => 0
           | c :: _ => length (default [] (data !! c))
           end in
  {| columns := cols;
     rows := (fun i => list_to_map ((fun c => (c, default VNone (default [] (data !! c) !! i))) <$> cols))
               <$> seq 0 n |}.

(** Insertion of a keyed row into a list sorted by [key_lt], in front of
    the rows with an equal key. *)
Fixpoint insert_by_key {A} (x : key * A) (l : list (key * A)) : list (key * A) :=
  match l with
  | [] => [x]
  | y :: l' => if key_lt y.1 x.1 then y :: insert_by_key x l' else x :: l
  end.

(** Every row is inserted into the sorted rows that came after it, so rows
    with equal keys keep their order. *)
Definition sort_by_key {A} (l : list (key * A)) : list (key * A) :=
  foldr insert_by_key [] l.

(** [df.sort_values(by=by, key=key)]: the key function maps the whole
    column, the rows are then ordered by the mapped values.  Sorting a
    column that holds tuples and lists side by side has to compare one with
    the other, which raises. *)
Definition sort_values (df : frame) (by_ : string)
    (key : list value → result (list key)) : result frame :=
  let? col := column df by_ in
  let? ks := key col in
  if existsb is_tuple ks && existsb (fun k => negb (is_tuple k)) ks then
    Err (TypeError "'<' not supported between instances of 'tuple' and 'list'")
  else
    Ok {| columns := columns df; rows := (sort_by_key (zip ks (rows df))).*2 |}.

(** Column labels of a concatenation: first occurrence order. *)
Fixpoint union_columns (dfs : list frame) : list string :=
  match dfs with
  | [] => []
  | df :: dfs' => columns df ++ list_difference (union_columns dfs') (columns df)
  end.

(** [pd.concat(dfs, axis=0)] *)
Definition pd_concat (dfs : list frame) : result frame :=
  match dfs with
  | [] => Err (ValueError "No objects to concatenate")
  | _ => Ok {| columns := union_columns dfs;
              rows := concat (rows <$> dfs) |}
  end.

(** The rows of [df.merge(pd.Series(sizes, name=name), left_on=left_on,
    right_index=True)]: an inner join that keeps the left order; a row whose
    key is not an index label of the series is dropped. *)
Definition join_series (df : frame) (sizes : gmap string Z) (name left_on : string) : frame :=
  {| columns := columns df ++ [name];
     rows := omap (fun r =>
                     match cell r left_on with
                     | VStr k => (fun n => <[name := VInt n]> r) <$> sizes !! k
                     | _ => None
                     end) (rows df) |}.

(** [df.merge(pd.Series(sizes, name=name), left_on=left_on, right_index=True)].
    Before it joins, pandas compares the types of the two keys, unless exactly
    one side is empty.  The key column of a table without rows and the index
    of a series made of an empty [dict] have different types: with both sides
    empty the merge raises [ValueError].  (The message names the two types;
    it is not modelled.) *)
Definition merge_series (df : frame) (sizes : gmap string Z) (name left_on : string)
    : result frame :=
  match rows df with
  | [] => if bool_decide (sizes = ∅)
          then Err (ValueError "You are trying to merge on columns of different types")
          else Ok (join_series df sizes name left_on)
  | _ :: _ => Ok (join_series df sizes name left_on)
  end.

(* ===================================================================== *)
(** ** The outside world: file system and remote repository *)
(* ===================================================================== *)

Inductive content : Type :=
| DcmFile (d : Dataset)
| CsvFile (df : frame).

Inductive node : Type :=
| Dir
| File (c : content).

(** The requests a [DICOMwebClient] can be asked to send. *)
Inductive request : Type :=
| SearchForStudies (search_filters : option (gmap string string)) (fuzzymatching : bool)
    (limit offset : option nat) (fields : list string)
| SearchForSeries (study_instance_uid : value)
    (search_filters : option (gmap string string)) (fuzzymatching : bool)
    (limit offset : option nat) (fields : list string)
| RetrieveStudyMetadata (study_instance_uid : value)
| RetrieveStudy (study_instance_uid : value)
| RetrieveSeriesMetadata (study_instance_uid series_instance_uid : value)
| RetrieveSeries (study_instance_uid series_instance_uid : value).

(** The repository behind the [DICOMwebClient]: what it answers to each
    request (a failed call answers with the exception). *)
Record DICOMwebClient : Type := mkDICOMwebClient {
  studies_found : option (gmap string string) → bool → option nat → option nat →
                  list string → result (list json_record);
  series_found : value → option (gmap string string) → bool → option nat → option nat →
                 list string → result (list json_record);
  study_metadata : value → result (list json_record);
  study_instances : value → result (list Dataset);
  series_metadata : value → value → result (list json_record);
  series_instances : value → value → result (list Dataset) }.

(** The state the client acts on: the files below the working directory,
    the requests sent so far (oldest first) and the wall-clock time stamp as
    [strftime] formats it. *)
Record world : Type := mkWorld {
  fs : gmap path node;
  requests : list request;
  now : string }.

Definition set_fs (w : world) (fs' : gmap path node) : world :=
  {| fs := fs'; requests := requests w; now := now w |}.

Definition sent (w : world) (r : request) : world :=
  {| fs := fs w; requests := requests w ++ [r]; now := now w |}.

(** Computations of the client: they read and change the world and either
    return or raise; what was done before an exception stays done. *)
Definition M (A : Type) : Type := world → result A * world.

Definition ret {A} (a : A) : M A := fun w => (Ok a, w).
Definition raise {A} (e : exn) : M A := fun w => (Err e, w).
Definition lift {A} (r : result A) : M A := fun w => (r, w).
Definition bind {A B} (m : M A) (k : A → M B) : M B :=
  fun w => match m w with
           | (Ok a, w') => k a w'
           | (Err e, w') => (Err e, w')
           end.
Definition try_except {A} (m : M A) (handler : exn → M A) : M A :=
  fun w => match m w with
           | (Ok a, w') => (Ok a, w')
           | (Err e, w') => handler e w'
           end.

Notation "'let!' x := m 'in' k" := (bind m (fun x => k))
  (at level 10, x pattern, m at level 100, k at level 200) : py_scope.

(** [[f(x) for x in xs]] for an [f] with effects, in list order. *)
Fixpoint mmap {A B} (f : A → M B) (xs : list A) : M (list B) :=
  match xs with
  | [] => ret []
  | x :: xs' =>
      let! y := f x in
      let! ys := mmap f xs' in
      ret (y :: ys)
  end.

(* --------------------------------------------------------------------- *)
(** *** pathlib and os *)

(** The working directory itself always exists. *)
Definition node_at (files : gmap path node) (p : path) : option node :=
  match p with
  | [] => Some Dir
  | _ => files !! p
  end.

Definition is_dir_at (files : gmap path node) (p : path) : bool :=
  match node_at files p with Some Dir => true | _ => false end.

Definition is_file_at (files : gmap path node) (p : path) : bool :=
  match node_at files p with Some (File _) => true | _ => false end.

(** [p.is_dir()], [p.is_file()] *)
Definition is_dir (p : path) : M bool := fun w => (Ok (is_dir_at (fs w) p), w).
Definition is_file (p : path) : M bool := fun w => (Ok (is_file_at (fs w) p), w).

(** [parent / name] and [p.parent] *)
Definition path_join (parent : path) (name : string) : path := name :: parent.
Definition path_parent (p : path) : path := tail p.

(** Whether a regular file stands at [p] or at a path above it. *)
Fixpoint file_on_path (files : gmap path node) (p : path) : bool :=
  match p with
  | [] => false
  | _ :: parent => is_file_at files p || file_on_path files parent
  end.

(** [os.mkdir(p)]: the kernel walks to the parent first, then looks at the
    name.  The walk ends with [ENOTDIR] at a regular file and with [ENOENT]
    at a name that is missing; in a file tree everything that exists lies
    in a directory, so below a missing name there is nothing and a file can
    only stand above it. *)
Definition os_mkdir (p : path) : M unit :=
  fun w =>
    match node_at (fs w) (path_parent p) with
    | None =>
        if file_on_path (fs w) (path_parent p) then (Err (NotADirectoryError p), w)
        else (Err (FileNotFoundError p), w)
    | Some (File _) => (Err (NotADirectoryError p), w)
    | Some Dir =>
        match node_at (fs w) p with
        | Some _ => (Err (FileExistsError p), w)
        | None => (Ok (), set_fs w (<[p := Dir]> (fs w)))
        end
    end.

(** The [except OSError] arm of [Path.mkdir]. *)
Definition mkdir_oserror (p : path) (exist_ok : bool) (e : exn) : M unit :=
  let! d := is_dir p in
  if negb exist_ok || negb d then raise e else ret ().

(** [p.mkdir(parents=False, exist_ok=exist_ok)] *)
Definition mkdir_single (p : path) (exist_ok : bool) : M unit :=
  try_except (os_mkdir p) (fun e =>
    match e with
    | FileNotFoundError _ => raise e
    | _ => mkdir_oserror p exist_ok e
    end).

(** [p.mkdir(parents=True, exist_ok=exist_ok)]: on a missing parent, make
    the parent chain (never minding what exists), then try once more. *)
Fixpoint mkdir_parents (p : path) (exist_ok : bool) : M unit :=
  try_except (os_mkdir p) (fun e =>
    match e with
    | FileNotFoundError _ =>
        match p with
        | [] => raise e
        | _ :: parent =>
            let! _ := mkdir_parents parent true in
            mkdir_single p exist_ok
        end
    | _ => mkdir_oserror p exist_ok e
    end).

(** Opening [p] for writing and storing [c]: creates or truncates.  The
    walk to the parent is the one of [os_mkdir]. *)
Definition write_file (p : path) (c : content) : M unit :=
  fun w =>
    match node_at (fs w) (path_parent p) with
    | None =>
        if file_on_path (fs w) (path_parent p) then (Err (NotADirectoryError p), w)
        else (Err (FileNotFoundError p), w)
    | Some (File _) => (Err (NotADirectoryError p), w)
    | Some Dir =>
        match node_at (fs w) p with
        | Some Dir => (Err (IsADirectoryError p), w)
        | _ => (Ok (), set_fs w (<[p := File c]> (fs w)))
        end
    end.

(** [s + suffix] and [parent / s] need a [str]. *)
Definition str_add (v : value) (suffix : string) : result string :=
  match v with
  | VStr s => Ok (s +:+ suffix)
  | _ => Err (TypeError "unsupported operand type(s) for +")
  end.

(** A string that names one entry of a directory: not empty, not ["."] or
    [".."], without ["/"] and without the NUL character, and no longer than
    a file name may be. *)
Definition plain_name (s : string) : bool :=
  negb (String.eqb s "") && negb (String.eqb s ".") && negb (String.eqb s "..") &&
  forallb (fun c => negb (Ascii.eqb c "/") && negb (Ascii.eqb c "000"))
          (list_ascii_of_string s) &&
  (String.length s <=? 255)%nat.

(** [parent / v].  The string is taken whole, as the name of one entry below
    [parent]: this is what pathlib and the file system make of a
    [plain_name].  pathlib itself splits the string at ["/"], drops empty and
    ["."] parts, lets an absolute string replace [parent], and the file system
    climbs at [".."]; such strings are outside what paths are here, and the
    statements about where files end up are about plain names. *)
Definition path_div (parent : path) (v : value) : result path :=
  match v with
  | VStr s => Ok (path_join parent s)
  | _ => Err (TypeError "unsupported operand type(s) for /")
  end.

(* ===================================================================== *)
(** ** [_utils.py] *)
(* ===================================================================== *)

Definition ensure_dir (path : path) (forced : bool) : M bool :=
  let! d := is_dir path in
  let! _ := (if negb d then mkdir_parents path forced else ret ()) in
  is_dir path.

Definition dicomize_json_result (data : json_record) (meta_only : bool) : Dataset :=
  let handler := if meta_only then Some (fun uri : string => "") else None in
  from_json data handler.

(** The comprehension calls [dicomize_json_result(d)]: its own [meta_only]
    stays at the default [True], whatever the argument here. *)
Definition dicomize_json_results (data : list json_record) (meta_only : bool) : list Dataset :=
  (fun d => dicomize_json_result d true) <$> data.

Definition default_keywords : list string :=
  ["StudyInstanceUID"; "SeriesInstanceUID"; "SOPInstanceUID"; "Modality"].

Definition dicoms_to_frame (dicoms : list Dataset) (keywords : option (list string)) : frame :=
  let keywords := default default_keywords keywords in
  let data :=
    foldl (fun (data : gmap string (list value)) keyword =>
             <[keyword := (fun d => ds_get d keyword) <$> dicoms]> data)
          ∅ keywords in
  DataFrame data keywords.

(** [sort_frame_by_uid.sort_key]: [series.apply(uid_key)] *)
Definition sort_key (series : list value) : result (list key) :=
  rmap uid_key series.

Definition sort_frame_by_uid (df : frame) (by_ : string) : result frame :=
  sort_values df by_ sort_key.

(* ===================================================================== *)
(** ** [_client.py]: [KheopsClient] *)
(* ===================================================================== *)

Definition STUDY_KEYS : list string :=
  ["StudyInstanceUID"; "PatientID"; "StudyDate"; "ModalitiesInStudy"].
Definition SERIES_KEYS : list string :=
  ["StudyInstanceUID"; "SeriesInstanceUID"; "PatientID"; "SeriesDate"; "Modality"; "RetrieveURL"].
Definition INSTANCE_KEYS : list string :=
  ["StudyInstanceUID"; "SeriesInstanceUID"; "SOPInstanceUID"; "PatientID"; "SeriesDate"; "Modality"].

(** The fields of [self] the operations below read. *)
Record KheopsClient : Type := mkKheopsClient {
  _client : DICOMwebClient;
  _default_out_dir : path;
  _dry_run : bool }.

(** The calls on [self._client]: each one is logged and answered by the
    repository. *)
Definition search_for_studies (c : DICOMwebClient) search_filters fuzzymatching limit offset fields
    : M (list json_record) :=
  fun w => (studies_found c search_filters fuzzymatching limit offset fields,
            sent w (SearchForStudies search_filters fuzzymatching limit offset fields)).

Definition search_for_series (c : DICOMwebClient) study_instance_uid search_filters
    fuzzymatching limit offset fields : M (list json_record) :=
  fun w => (series_found c study_instance_uid search_filters fuzzymatching limit offset fields,
            sent w (SearchForSeries study_instance_uid search_filters fuzzymatching
                      limit offset fields)).

Definition retrieve_study_metadata (c : DICOMwebClient) study_instance_uid
    : M (list json_record) :=
  fun w => (study_metadata c study_instance_uid,
            sent w (RetrieveStudyMetadata study_instance_uid)).

Definition retrieve_study (c : DICOMwebClient) study_instance_uid : M (list Dataset) :=
  fun w => (study_instances c study_instance_uid,
            sent w (RetrieveStudy study_instance_uid)).

Definition retrieve_series_metadata (c : DICOMwebClient) study_instance_uid series_instance_uid
    : M (list json_record) :=
  fun w => (series_metadata c study_instance_uid series_instance_uid,
            sent w (RetrieveSeriesMetadata study_instance_uid series_instance_uid)).

Definition retrieve_series (c : DICOMwebClient) study_instance_uid series_instance_uid
    : M (list Dataset) :=
  fun w => (series_instances c study_instance_uid series_instance_uid,
            sent w (RetrieveSeries study_instance_uid series_instance_uid)).

(** The operand of [inst.SOPInstanceUID + ".dcm"] has to be a [str]. *)
Definition str_of (v : value) : result string :=
  match v with
  | VStr s => Ok s
  | _ => Err (TypeError "unsupported operand type(s) for +")
  end.

(** [if inst.is_little_endian is None: ... = False], and the same for
    [is_implicit_VR]. *)
Definition with_transfer_flags (inst : Dataset) : Dataset :=
  {| elements := elements inst;
     is_little_endian := Some (default false (is_little_endian inst));
     is_implicit_VR := Some (default false (is_implicit_VR inst)) |}.

(** [inst.save_as(path)]: the file is opened for writing and takes the
    encoded dataset; failures of the encoder itself are left out. *)
Definition save_as (inst : Dataset) (p : path) : M unit :=
  write_file p (DcmFile inst).

(** [df.to_csv(path, index=False)] *)
Definition to_csv (df : frame) (p : path) : M unit :=
  write_file p (CsvFile df).

Section Client.

(** What [stat().st_size] reports for a node: the byte count of the
    encoding, which belongs to the codec. *)
Variable st_size_of : node → Z.

(** [_print_list] and [_print_table_summary] write to standard output,
    which is not part of [world]; their callers only see whether they
    raise. *)
Variable _print_list : list value → string → result unit.
Variable _print_table_summary : frame → result unit.

(** [path.stat().st_size] *)
Definition stat_st_size (p : path) : M Z :=
  fun w => match node_at (fs w) p with
           | Some n => (Ok (st_size_of n), w)
           | None => (Err (FileNotFoundError p), w)
           end.

(** [Path(out_dir)] is never [None], so the [ValueError] arm is dead. *)
Definition _ensure_ouput_dir (self : KheopsClient) (out_dir : option path) (forced : bool)
    : M path :=
  let out_dir := default (_default_out_dir self) out_dir in
  let! ok := ensure_dir out_dir forced in
  if negb ok then raise (RuntimeError "Failed to create output directory.")
  else ret out_dir.

Definition csv_filename (label stamp : string) : string :=
  label +:+ "_" +:+ stamp +:+ ".csv".

Definition _write_table (self : KheopsClient) (df : frame) (out_dir : option path)
    (label : string) : M unit :=
  if _dry_run self then ret ()
  else
    let! out_dir := _ensure_ouput_dir self out_dir true in
    let! stamp := (fun w => (Ok (now w), w)) in
    let filename := csv_filename label stamp in
    to_csv df (path_join out_dir filename).

(** The [for i, inst in enumerate(instances)] loop of [_write_instances],
    with the [file_sizes] dict it fills; progress reporting is left out. *)
Fixpoint _write_instances_loop (out_dir : path) (forced : bool)
    (instances : list Dataset) (file_sizes : gmap string Z) : M (gmap string Z) :=
  match instances with
  | [] => ret file_sizes
  | inst :: instances' =>
      let! series_uid := lift (ds_attr inst "SeriesInstanceUID") in
      let! path := lift (path_div out_dir series_uid) in
      let! sop_uid := lift (ds_attr inst "SOPInstanceUID") in
      let! sop_uid := lift (str_of sop_uid) in
      let path := path_join path (sop_uid +:+ ".dcm") in
      let! _ := ensure_dir (path_parent path) forced in
      let! present := is_file path in
      let! bytes :=
        (if negb present || forced then
           let inst := with_transfer_flags inst in
           let! _ := save_as inst path in
           stat_st_size path
         else raise (FileExistsError path)) in
      _write_instances_loop out_dir forced instances' (<[sop_uid := bytes]> file_sizes)
  end.

Definition _write_instances (self : KheopsClient) (instances : list Dataset)
    (out_dir : option path) (forced : bool) (suppress_progress : bool) : M frame :=
  let df := dicoms_to_frame instances (Some INSTANCE_KEYS) in
  let! df := lift (sort_frame_by_uid df "SOPInstanceUID") in
  if _dry_run self then ret df
  else
    let! out_dir := _ensure_ouput_dir self out_dir forced in
    let! file_sizes := _write_instances_loop out_dir forced instances ∅ in
    lift (merge_series df file_sizes "FileSize" "SOPInstanceUID").

Definition _query_series_for_study (self : KheopsClient) (study_uid : value)
    (search_filters : option (gmap string string)) (fuzzy : bool)
    (limit offset : option nat) : M frame :=
  let! series := search_for_series (_client self) study_uid search_filters fuzzy
                   limit offset SERIES_KEYS in
  let series := dicomize_json_results series true in
  let df := dicoms_to_frame series (Some SERIES_KEYS) in
  lift (sort_frame_by_uid df "SeriesInstanceUID").

Definition _query_studies (self : KheopsClient)
    (search_filters : option (gmap string string)) (fuzzy : bool)
    (limit offset : option nat) : M frame :=
  let! studies := search_for_studies (_client self) search_filters fuzzy
                    limit offset STUDY_KEYS in
  let studies := dicomize_json_results studies true in
  let df := dicoms_to_frame studies (Some STUDY_KEYS) in
  lift (sort_frame_by_uid df "StudyInstanceUID").

Definition _query_series (self : KheopsClient)
    (search_filters : option (gmap string string)) (fuzzy : bool)
    (limit offset : option nat) : M frame :=
  let! studies := _query_studies self search_filters fuzzy limit offset in
  let! uids := lift (column studies "StudyInstanceUID") in
  let! series :=
    mmap (fun study_uid =>
            _query_series_for_study self study_uid search_filters fuzzy None None)
         uids in
  let! series := lift (pd_concat series) in
  lift (sort_frame_by_uid series "SeriesInstanceUID").

Definition _retrieve_single_series (self : KheopsClient) (study_uid series_uid : value)
    (meta_only : bool) : M (list Dataset) :=
  if meta_only then
    let! instances := retrieve_series_metadata (_client self) study_uid series_uid in
    ret (dicomize_json_results instances true)
  else retrieve_series (_client self) study_uid series_uid.

Definition _retrieve_single_study (self : KheopsClient) (study_uid : value)
    (meta_only : bool) : M (list Dataset) :=
  if meta_only then
    let! instances := retrieve_study_metadata (_client self) study_uid in
    ret (dicomize_json_results instances true)
  else retrieve_study (_client self) study_uid.

Definition list_studies (self : KheopsClient) search_filters fuzzy limit offset
    (out_dir : option path) : M frame :=
  let! df := _query_studies self search_filters fuzzy limit offset in
  let! lst := lift (column df "StudyInstanceUID") in
  let! _ := lift (_print_list lst "Available studies") in
  let! _ := lift (_print_table_summary df) in
  let! _ := _write_table self df out_dir "available_studies" in
  ret df.

Definition list_series (self : KheopsClient) search_filters fuzzy limit offset
    (out_dir : option path) : M frame :=
  let! df := _query_series self search_filters fuzzy limit offset in
  let! lst := lift (column df "SeriesInstanceUID") in
  let! _ := lift (_print_list lst "Available series") in
  let! _ := lift (_print_table_summary df) in
  let! _ := _write_table self df out_dir "available_series" in
  ret df.

Definition download_series (self : KheopsClient) (study_uid series_uid : value)
    (meta_only : bool) (out_dir : option path) (forced : bool) : M frame :=
  let! dicoms := _retrieve_single_series self study_uid series_uid meta_only in
  let! df := _write_instances self dicoms out_dir forced false in
  let! lst := lift (column df "SeriesInstanceUID") in
  let! _ := lift (_print_list lst "Downloaded series") in
  let! _ := _write_table self df out_dir "downloaded_series_instances" in
  let! _ := lift (_print_table_summary df) in
  ret df.

Definition download_study (self : KheopsClient) (study_uid : value)
    (meta_only : bool) (out_dir : option path) (forced : bool) : M frame :=
  let! dicoms := _retrieve_single_study self study_uid meta_only in
  let! df := _write_instances self dicoms out_dir forced false in
  let! lst := lift (column df "SeriesInstanceUID") in
  let! _ := lift (_print_list lst "Downloaded series") in
  let! _ := _write_table self df out_dir "downloaded_study_instances" in
  let! _ := lift (_print_table_summary df) in
  ret df.

(** [return] without a value is [None]: both searches-and-downloads give
    no table when nothing was found. *)
Definition search_and_download_studies (self : KheopsClient) search_filters
    (meta_only fuzzy : bool) (limit offset : option nat) (out_dir : option path)
    (forced : bool) : M (option frame) :=
  let! df := _query_studies self search_filters fuzzy limit offset in
  if (frame_len df =? 0)%nat then ret None
  else
    let! dfs_downloaded :=
      mmap (fun row =>
              let! study_uid := lift (row_item df row "StudyInstanceUID") in
              let! dicoms := _retrieve_single_study self study_uid meta_only in
              _write_instances self dicoms out_dir forced true)
           (rows df) in
    let! df_all := lift (pd_concat dfs_downloaded) in
    let! df_all := lift (sort_frame_by_uid df_all "SOPInstanceUID") in
    let! lst := lift (column df_all "StudyInstanceUID") in
    let! _ := lift (_print_list lst "Downloaded studies") in
    let! _ := _write_table self df_all out_dir "downloaded_study_instances" in
    let! _ := lift (_print_table_summary df_all) in
    ret (Some df_all).

Definition search_and_download_series (self : KheopsClient) search_filters
    (meta_only fuzzy : bool) (limit offset : option nat) (out_dir : option path)
    (forced : bool) : M (option frame) :=
  let! df := _query_series self search_filters fuzzy limit offset in
  if (frame_len df =? 0)%nat then ret None
  else
    let! dfs_downloaded :=
      mmap (fun row =>
              let! study_uid := lift (row_item df row "StudyInstanceUID") in
              let! series_uid := lift (row_item df row "SeriesInstanceUID") in
              let! dicoms := _retrieve_single_series self study_uid series_uid meta_only in
              _write_instances self dicoms out_dir forced true)
           (rows df) in
    let! df_all := lift (pd_concat dfs_downloaded) in
    let! df_all := lift (sort_frame_by_uid df_all "SOPInstanceUID") in
    let! lst := lift (column df_all "SeriesInstanceUID") in
    let! _ := lift (_print_list lst "Downloaded series") in
    let! _ := _write_table self df_all out_dir "downloaded_series_instances" in
    let! _ := lift (_print_table_summary df_all) in
    ret (Some df_all).

End Client.

(* ===================================================================== *)
(** ** Notions the properties are stated with *)
(* ===================================================================== *)

(** The tuple of integer components of a dot-delimited identifier, when
    every component reads as an integer. *)
Definition integer_components (uid : string) : option (list Z) :=
  mapM parse_int (str_split "." uid).

(** Lexicographic order on integer tuples, as the specification words it:
    the first differing component decides, a proper prefix comes first. *)
Inductive lex_lt : list Z → list Z → Prop :=
| lex_lt_prefix y w : lex_lt [] (y :: w)
| lex_lt_head x y v w : (x < y)%Z → lex_lt (x :: v) (y :: w)
| lex_lt_tail x v w : lex_lt v w → lex_lt (x :: v) (x :: w).

(** No tuple is followed by a smaller one. *)
Definition tuple_le (v w : list Z) : Prop := tuple_lt w v = false.

(** The order the sorted pairs of key and row are in: no later key is
    smaller. *)
Definition keyed_le {A} (x y : key * A) : Prop := key_lt y.1 x.1 = false.

Definition tuple_keyed {A} (x : key * A) : Prop := is_tuple x.1 = true.

(** A frame is sorted by UID on a column when every cell of the column has
    an integer-tuple key and the keys ascend down the rows. *)
Definition sorted_by_uid (df : frame) (by_ : string) : Prop :=
  ∃ cells zs,
    column df by_ = Ok cells ∧
    sort_key cells = Ok (KTuple <$> zs) ∧
    StronglySorted tuple_le zs.

(** Where the writer puts an instance below [out_dir]. *)
Definition instance_target (out_dir : path) (inst : Dataset) : option path :=
  match elements inst !! "SeriesInstanceUID", elements inst !! "SOPInstanceUID" with
  | Some (VStr series_uid), Some (VStr sop_uid) =>
      Some (path_join (path_join out_dir series_uid) (sop_uid +:+ ".dcm"))
  | _, _ => None
  end.

(** The two UIDs of an instance name one directory and one file. *)
Definition plain_uids (inst : Dataset) : Prop :=
  ∃ series_uid sop_uid,
    elements inst !! "SeriesInstanceUID" = Some (VStr series_uid) ∧
    elements inst !! "SOPInstanceUID" = Some (VStr sop_uid) ∧
    plain_name series_uid = true ∧ plain_name (sop_uid +:+ ".dcm") = true.

(** What the file of an instance holds once written. *)
Definition instance_file (inst : Dataset) : node :=
  File (DcmFile (with_transfer_flags inst)).

(** The row [dicoms_to_frame] makes of a record. *)
Definition record_row (keywords : list string) (d : Dataset) : gmap string value :=
  list_to_map ((fun k => (k, ds_get d k)) <$> keywords).

(** Node kinds are kept from one world to a later one: files stay files
    and directories stay directories. *)
Definition kinds_kept (w w' : world) : Prop :=
  ∀ p, (is_file_at (fs w) p = true → is_file_at (fs w') p = true) ∧
       (is_dir_at (fs w) p = true → is_dir_at (fs w') p = true).

(** Every instance of the batch has its file in place, in a directory. *)
Definition all_written (out_dir : path) (instances : list Dataset) (w : world) : Prop :=
  ∀ inst, inst ∈ instances →
    ∃ p, instance_target out_dir inst = Some p ∧
         is_file_at (fs w) p = true ∧ is_dir_at (fs w) (path_parent p) = true.


(** A successful [mkdir] leaves a directory and changes no other path. *)
Definition made_dir (p : path) (w w' : world) : Prop :=
  is_dir_at (fs w') p = true ∧ kinds_kept w w' ∧
  (w' = w ∨ (node_at (fs w) p = None ∧ w' = set_fs w (<[p := Dir]> (fs w)))).


(** What one round of the loop does with an instance that has both UIDs. *)
Definition write_one (st_size_of : node → Z) (forced : bool) (inst : Dataset) (p : path) : M Z :=
  let! _ := ensure_dir (path_parent p) forced in
  let! present := is_file p in
  if negb present || forced then
    let! _ := save_as (with_transfer_flags inst) p in
    stat_st_size st_size_of p
  else raise (FileExistsError p).


(* ===================================================================== *)
(** ** A small repository and batch, for the examples *)
(* ===================================================================== *)

Definition example_instance (study series sop : string) : Dataset :=
  {| elements := list_to_map [("StudyInstanceUID", VStr study);
                              ("SeriesInstanceUID", VStr series);
                              ("SOPInstanceUID", VStr sop);
                              ("Modality", VStr "CT")];
     is_little_endian := None;
     is_implicit_VR := None |}.

Definition example_record (fields : list (string * string)) : json_record :=
  list_to_map ((fun kv => (kv.1, {| vr := "UI"; body := JValue [VStr kv.2] |})) <$> fields).

(** Two instances of series 1.2.1 of study 1.2, the later one first. *)
Definition example_batch : list Dataset :=
  [example_instance "1.2" "1.2.1" "1.2.1.10"; example_instance "1.2" "1.2.1" "1.2.1.3"].

(** A repository with the studies 1.10 and 1.2, one series in each and two
    instances in each series. *)
Definition example_repository : DICOMwebClient :=
  {| studies_found := fun _ _ _ _ _ =>
       Ok [example_record [("StudyInstanceUID", "1.10")];
           example_record [("StudyInstanceUID", "1.2")]];
     series_found := fun study _ _ _ _ _ =>
       match study with
       | VStr s => Ok [example_record [("StudyInstanceUID", s);
                                       ("SeriesInstanceUID", s +:+ ".1")]]
       | _ => Ok []
       end;
     study_metadata := fun _ => Ok [];
     study_instances := fun study =>
       match study with
       | VStr s => Ok [example_instance s (s +:+ ".1") (s +:+ ".1.10");
                       example_instance s (s +:+ ".1") (s +:+ ".1.3")]
       | _ => Ok []
       end;
     series_metadata := fun _ _ => Ok [];
     series_instances := fun study series =>
       match study, series with
       | VStr s, VStr t => Ok [example_instance s t (t +:+ ".10");
                               example_instance s t (t +:+ ".3")]
       | _, _ => Ok []
       end |}.

(** A repository in which no search finds anything. *)
Definition empty_repository : DICOMwebClient :=
  {| studies_found := fun _ _ _ _ _ => Ok [];
     series_found := fun _ _ _ _ _ _ => Ok [];
     study_metadata := fun _ => Ok [];
     study_instances := fun _ => Ok [];
     series_metadata := fun _ _ => Ok [];
     series_instances := fun _ _ => Ok [] |}.

Definition example_client (repository : DICOMwebClient) (dry_run : bool) : KheopsClient :=
  {| _client := repository; _default_out_dir := ["downloads"]; _dry_run := dry_run |}.

(** An empty working directory, and one that already has [downloads]. *)
Definition example_world : world :=
  {| fs := ∅; requests := []; now := "2020-01-01_00.00.00" |}.

Definition example_world_with_dir : world :=
  {| fs := {[ ["downloads"] := Dir ]}; requests := []; now := "2020-01-01_00.00.00" |}.


(** Whether a run came back with a value, and with a table. *)
Definition returned {A} (run : result A * world) : bool :=
  match run with (Ok _, _) => true | (Err _, _) => false end.

Definition returned_table (run : result (option frame) * world) : bool :=
  match run with (Ok (Some _), _) => true | _ => false end.

Definition example_size (n : node) : Z := 132.
Definition quiet_list (lst : list value) (label : string) : result unit := Ok ().
Definition quiet_summary (df : frame) : result unit := Ok ().

(* ===================================================================== *)
(** ** [_client.py]: what [_print_list] shows *)
(* ===================================================================== *)

Definition MAX_ROWS_PRINTED : nat := 25.

(** [lst.drop_duplicates()]: the first occurrence of every entry stays, in
    order.  [seen] holds the entries met so far. *)
Fixpoint drop_duplicates `{EqDecision A} (seen : list A) (lst : list A) : list A :=
  match lst with
  | [] => []
  | x :: lst' =>
      if decide (x ∈ seen) then drop_duplicates seen lst'
      else x :: drop_duplicates (x :: seen) lst'
  end.

(** The body of [_print_list] for a series of hashable entries: the
    entries it prints, one per line, and the count of the closing line
    ["...and %d more"], which is printed only for a positive count. *)
Definition _print_list_shown `{EqDecision A} (lst : list A) : list A * option Z :=
  let lst := drop_duplicates [] lst in
  let shown := take MAX_ROWS_PRINTED lst in
  let diff := (Z.of_nat (length lst) - Z.of_nat MAX_ROWS_PRINTED)%Z in
  (shown, if (0 <? diff)%Z then Some diff else None).

(* ===================================================================== *)
(** ** [_client.py] and [__main__.py]: loggers, token, command line *)
(* ===================================================================== *)

(** The numeric levels of [logging]. *)
Definition DEBUG : Z := 10.
Definition INFO : Z := 20.
Definition WARNING : Z := 30.
Definition ERROR : Z := 40.

(** [KheopsClient._setup_logger]: the level of the client's logger and the
    level of the two library loggers. *)
Definition _setup_logger (verbosity : option Z) : Z * Z :=
  let level := WARNING in
  let level_ext := ERROR in
  let verbosity := default 0%Z verbosity in
  if (verbosity =? 1)%Z then (INFO, level_ext)
  else if (verbosity =? 2)%Z then (DEBUG, WARNING)
  else if (3 <=? verbosity)%Z then (DEBUG, DEBUG)
  else (level, level_ext).

(** [os.getenv("ACCESS_TOKEN", None)] is the argument [ACCESS_TOKEN];
    [exit(1)] is the right summand. *)
Definition _check_token (token : option string) (ACCESS_TOKEN : option string) : string + Z :=
  let token := match token with
               | None => ACCESS_TOKEN
               | Some t => Some t
               end in
  match token with
  | Some t => if String.eqb t "" then inr 1%Z else inl t
  | None => inr 1%Z
  end.

(** [dict(pairs)]: a later pair for a key replaces an earlier one. *)
Definition py_dict (pairs : list (string * string)) : gmap string string :=
  foldl (fun (d : gmap string string) kv => <[kv.1 := kv.2]> d) ∅ pairs.

(** Truth value of an optional string: [None] and [""] are false. *)
Definition truthy (s : option string) : bool :=
  match s with
  | Some t => negb (String.eqb t "")
  | None => false
  end.

Module Main.

(** [__main__.setup_logging]: the level of the command line's logger. *)
Definition setup_logging (verbosity : option Z) : Z :=
  match verbosity with
  | Some 1%Z => INFO
  | Some 2%Z => DEBUG
  | _ => WARNING
  end.

(** The parsed command line.  [limit] and [offset] are taken non-negative;
    [--out-dir] always has a value. *)
Record Args : Type := mkArgs {
  command : string;
  mode : string;
  url : string;
  token : option string;
  verbosity : option Z;
  study_uid : option string;
  series_uid : option string;
  search_filter : list (string * string);
  fuzzy : bool;
  limit : option nat;
  offset : option nat;
  out_dir : path;
  forced : bool;
  meta_only : bool;
  dry : bool }.

(** How a run of the command line ends: normally, with an exception, by
    [exit], or on one of the [assert False]. *)
Inductive outcome : Type :=
| Completed
| Raised (e : exn)
| Exited (status : Z)
| AssertionFailed.

Definition finish {A} (run : result A * world) : outcome * world :=
  match run with
  | (Ok _, w) => (Completed, w)
  | (Err e, w) => (Raised e, w)
  end.

(** The filter dictionary of [run_client]: the search filters, with the
    study and series UID options written over them when given. *)
Definition filters (args : Args) : gmap string string :=
  let filters := py_dict (search_filter args) in
  let filters := if truthy (study_uid args)
                 then <["StudyInstanceUID" := default "" (study_uid args)]> filters
                 else filters in
  if truthy (series_uid args)
  then <["SeriesInstanceUID" := default "" (series_uid args)]> filters
  else filters.

Section RunClient.

Variable st_size_of : node → Z.
Variable _print_list : list value → string → result unit.
Variable _print_table_summary : frame → result unit.

(** The repository a [DICOMwebClient] for a URL and a bearer token talks
    to. *)
Variable connect : string → string → DICOMwebClient.

(** [KheopsClient(url=..., access_token=..., dry_run=...)]: no [out_dir] is
    passed, so the default output directory is [downloads]. *)
Definition KheopsClient_init (url : string) (access_token : option string) (dry_run : bool)
    (ACCESS_TOKEN : option string) : KheopsClient + Z :=
  match _check_token access_token ACCESS_TOKEN with
  | inl token =>
      inl {| _client := connect url token;
             _default_out_dir := ["downloads"];
             _dry_run := dry_run |}
  | inr status => inr status
  end.

Definition run_client (ACCESS_TOKEN : option string) (args : Args) : world → outcome * world :=
  fun w =>
    match KheopsClient_init (url args) (token args) (dry args) ACCESS_TOKEN with
    | inr status => (Exited status, w)
    | inl client =>
        let filters := filters args in
        if String.eqb (mode args) "series" then
          if String.eqb (command args) "list" then
            finish (list_series _print_list _print_table_summary client (Some filters)
                      (fuzzy args) (limit args) (offset args) (Some (out_dir args)) w)
          else if String.eqb (command args) "download"
                  && truthy (study_uid args) && truthy (series_uid args) then
            finish (download_series st_size_of _print_list _print_table_summary client
                      (VStr (default "" (study_uid args))) (VStr (default "" (series_uid args)))
                      (meta_only args) (Some (out_dir args)) (forced args) w)
          else if String.eqb (command args) "download" then
            finish (search_and_download_series st_size_of _print_list _print_table_summary
                      client (Some filters) (meta_only args) (fuzzy args) (limit args)
                      (offset args) (Some (out_dir args)) (forced args) w)
          else (AssertionFailed, w)
        else if String.eqb (mode args) "studies" then
          if String.eqb (command args) "list" then
            finish (list_studies _print_list _print_table_summary client (Some filters)
                      (fuzzy args) (limit args) (offset args) (Some (out_dir args)) w)
          else if String.eqb (command args) "download" && truthy (study_uid args) then
            finish (download_study st_size_of _print_list _print_table_summary client
                      (VStr (default "" (study_uid args)))
                      (meta_only args) (Some (out_dir args)) (forced args) w)
          else if String.eqb (command args) "download" then
            finish (search_and_download_studies st_size_of _print_list _print_table_summary
                      client (Some filters) (meta_only args) (fuzzy args) (limit args)
                      (offset args) (Some (out_dir args)) (forced args) w)
          else (AssertionFailed, w)
        else (AssertionFailed, w)
    end.

End RunClient.

End Main.

(* ===================================================================== *)
(** ** [_utils.py]: tags and [extract_value] *)
(* ===================================================================== *)

(** One digit of ["%X"]. *)
Definition hex_digit (d : Z) : ascii :=
  Ascii.ascii_of_nat (Z.to_nat (if (d <? 10)%Z then 48 + d else 55 + d)).

(** The digits of ["%X" % n] for a non-negative [n], most significant
    first, in front of [acc]; [fuel] bounds their number. *)
Fixpoint hex_digits (fuel : nat) (n : Z) (acc : list ascii) : list ascii :=
  match fuel with
  | O => acc
  | S fuel' =>
      let acc := hex_digit (n mod 16) :: acc in
      if (n / 16 =? 0)%Z then acc else hex_digits fuel' (n / 16) acc
  end.

(** ["%04X" % n] for a non-negative [n]: at least four digits, zeros in
    front. *)
Definition format_04X (n : Z) : string :=
  let digits := hex_digits (S (Z.to_nat (Z.log2 n))) n [] in
  string_of_list_ascii (replicate (4 - length digits) "0"%char ++ digits).

Section Tags.

(** pydicom's [Tag(keyword)]: the tag of a keyword of the data
    dictionary, as one number, or [ValueError]. *)
Variable Tag : string → result Z.

(** [tag.group] is [tag >> 16], [tag.element] is [tag & 0xffff]. *)
Definition keyword_to_tag (keyword : string) : result string :=
  let? tag := Tag keyword in
  let group := Z.shiftr tag 16 in
  let element := Z.land tag 65535 in
  Ok (format_04X group +:+ format_04X element).

(** [data] maps tag strings to inner dicts ([vr], [Value], ...). *)
Definition extract_value (data : gmap string (gmap string value)) (keyword key : string)
    : result value :=
  let? tag := keyword_to_tag keyword in
  match data !! tag with
  | Some entry => flatten (default VNone (entry !! key))
  | None => Err (KeyError tag)
  end.

End Tags.

(* ===================================================================== *)
(** ** Notions for the further properties *)
(* ===================================================================== *)

(** The number a string of hexadecimal digits stands for. *)
Definition hex_digit_value (c : ascii) : Z :=
  let n := Z.of_nat (Ascii.nat_of_ascii c) in
  if (n <? 58)%Z then (n - 48)%Z else (n - 55)%Z.

Definition hex_value (digits : list ascii) : Z :=
  foldl (fun acc c => (16 * acc + hex_digit_value c)%Z) 0%Z digits.

(** The tags of the example: a small dictionary. *)
Definition example_Tag (keyword : string) : result Z :=
  if String.eqb keyword "PatientID" then Ok 1048608%Z
  else if String.eqb keyword "Modality" then Ok 524384%Z
  else Err (ValueError "Unable to create an element tag").

Definition example_json : gmap string (gmap string value) :=
  {[ "00100020" := {[ "vr" := VStr "LO"; "Value" := VSeq [VStr "ABC123"] ]} ]}.

(** Every run of [m], ending well or not, takes a world to one related
    to it by [R]. *)
Definition relates {A} (R : world → world → Prop) (m : M A) : Prop :=
  ∀ w r w', m w = (r, w') → R w w'.

(** The relations used: same files; nothing but files changed (same
    request log, same clock); a log grown by requests of one kind only. *)
Definition same_fs (w w' : world) : Prop := fs w' = fs w.

Definition only_files_differ (w w' : world) : Prop :=
  requests w' = requests w ∧ now w' = now w.

Definition sent_only (P : request → Prop) (w w' : world) : Prop :=
  ∃ added, requests w' = (requests w ++ added)%list ∧ Forall P added.

Definition is_search (r : request) : Prop :=
  match r with
  | SearchForStudies _ _ _ _ _ | SearchForSeries _ _ _ _ _ _ => True
  | _ => False
  end.

(** The requests a download may send: searches, and retrievals of the
    kind [meta_only] selects, metadata or whole objects. *)
Definition download_request (meta_only : bool) (r : request) : Prop :=
  match r with
  | SearchForStudies _ _ _ _ _ | SearchForSeries _ _ _ _ _ _ => True
  | RetrieveStudyMetadata _ | RetrieveSeriesMetadata _ _ => meta_only = true
  | RetrieveStudy _ | RetrieveSeries _ _ => meta_only = false
  end.

(** Nothing but the request log changed. *)
Definition only_log_differs (w w' : world) : Prop := fs w' = fs w ∧ now w' = now w.

(** The retrieval a download sends for a study, and for a series. *)
Definition study_retrieval (meta_only : bool) (study_uid : value) : request :=
  if meta_only then RetrieveStudyMetadata study_uid else RetrieveStudy study_uid.

Definition series_retrieval (meta_only : bool) (study_uid series_uid : value) : request :=
  if meta_only then RetrieveSeriesMetadata study_uid series_uid
  else RetrieveSeries study_uid series_uid.

(** The log grew by exactly the requests [added]. *)
Definition sent_exactly (added : list request) (w w' : world) : Prop :=
  requests w' = (requests w ++ added)%list.

(** Whatever exists at a path other than [ps] is still there, unchanged. *)
Definition nodes_kept_outside (ps : list path) (w w' : world) : Prop :=
  ∀ q n, q ∉ ps → node_at (fs w) q = Some n → node_at (fs w') q = Some n.

(** The rows the series records of one answer make, and the rows of the
    answers of several studies, one after the other. *)
Definition series_rows (records : list json_record) : list (gmap string value) :=
  (fun rec => record_row SERIES_KEYS (dicomize_json_result rec true)) <$> records.

Definition all_series_rows (per_study : list (list json_record))
    : list (gmap string value) :=
  concat (fmap (M:=list) series_rows per_study).

(** The [file_sizes] dict after the loop went over a batch: each instance
    puts the size of its file under its SOP instance UID. *)
Definition recorded_sizes (st_size_of : node → Z) (instances : list Dataset)
    (file_sizes : gmap string Z) : gmap string Z :=
  foldl (fun (sizes : gmap string Z) inst =>
           match elements inst !! "SOPInstanceUID" with
           | Some (VStr sop_uid) => <[sop_uid := st_size_of (instance_file inst)]> sizes
           | _ => sizes
           end)
        file_sizes instances.

(** [d] is [inst] with its two transfer-syntax flags filled in: the same
    elements, each flag as [inst] has it, and [False] where [inst] has
    none. *)
Definition flags_filled_in (inst d : Dataset) : Prop :=
  elements d = elements inst ∧
  is_little_endian d =
    Some (match is_little_endian inst with Some b => b | None => false end) ∧
  is_implicit_VR d =
    Some (match is_implicit_VR inst with Some b => b | None => false end).

(** The row of an instance in the table of a writing run that saved [d]
    for it: the fields of the instance and the size of the file. *)
Definition written_row (st_size_of : node → Z) (inst d : Dataset) : gmap string value :=
  <["FileSize" := VInt (st_size_of (File (DcmFile d)))]> (record_row INSTANCE_KEYS inst).

(** A record or cell that carries an identifier of integer components. *)
Definition integer_uid (v : value) : Prop :=
  ∃ s zs, v = VStr s ∧ integer_components s = Some zs.

(** A working directory in which a regular file has the name of the
    output directory. *)
Definition example_world_blocked : world :=
  {| fs := {[ ["downloads"] := File (CsvFile {| columns := []; rows := [] |}) ]};
     requests := [];
     now := "2020-01-01_00.00.00" |}.

(** A table with a study UID and a missing one. *)
Definition example_table : frame :=
  {| columns := ["StudyInstanceUID"];
     rows := [ {["StudyInstanceUID" := VStr "1.10"]}; {["StudyInstanceUID" := VNone]} ] |}.

(** An example command line: list the studies, dry. *)
Definition example_args : Main.Args :=
  {| Main.command := "list"; Main.mode := "studies"; Main.url := "https://demo";
     Main.token := Some "secret"; Main.verbosity := None;
     Main.study_uid := Some "1.2"; Main.series_uid := None;
     Main.search_filter := [("Modality", "CT"); ("StudyInstanceUID", "9.9")];
     Main.fuzzy := false; Main.limit := Some 5; Main.offset := None;
     Main.out_dir := ["downloads"]; Main.forced := false; Main.meta_only := true;
     Main.dry := true |}.

(** The same command line with an empty [--token]. *)
Definition example_args_empty_token : Main.Args :=
  {| Main.command := "list"; Main.mode := "studies"; Main.url := "https://demo";
     Main.token := Some ""; Main.verbosity := None;
     Main.study_uid := Some "1.2"; Main.series_uid := None;
     Main.search_filter := [("Modality", "CT"); ("StudyInstanceUID", "9.9")];
     Main.fuzzy := false; Main.limit := Some 5; Main.offset := None;
     Main.out_dir := ["downloads"]; Main.forced := false; Main.meta_only := true;
     Main.dry := true |}.

Definition example_connect (url token : string) : DICOMwebClient := example_repository.

(** A repository whose records name their modalities: the studies 1.10 and
    1.2 with one series each. *)
Definition catalogued_record (uids : list (string * string)) (modality : string)
    : json_record :=
  <[modality := {| vr := "CS"; body := JValue [VStr "CT"] |}]> (example_record uids).

Definition catalogued_repository : DICOMwebClient :=
  {| studies_found := fun _ _ _ _ _ =>
       Ok [catalogued_record [("StudyInstanceUID", "1.10")] "ModalitiesInStudy";
           catalogued_record [("StudyInstanceUID", "1.2")] "ModalitiesInStudy"];
     series_found := fun study _ _ _ _ _ =>
       match study with
       | VStr s => Ok [catalogued_record [("StudyInstanceUID", s);
                                          ("SeriesInstanceUID", s +:+ ".1")] "Modality"]
       | _ => Ok []
       end;
     study_metadata := fun _ => Ok [];
     study_instances := fun _ => Ok [];
     series_metadata := fun _ _ => Ok [];
     series_instances := fun _ _ => Ok [] |}.

(** A repository that cannot be reached. *)
Definition unreachable_repository : DICOMwebClient :=
  {| studies_found := fun _ _ _ _ _ => Err (RuntimeError "connection refused");
     series_found := fun _ _ _ _ _ _ => Err (RuntimeError "connection refused");
     study_metadata := fun _ => Err (RuntimeError "connection refused");
     study_instances := fun _ => Err (RuntimeError "connection refused");
     series_metadata := fun _ _ => Err (RuntimeError "connection refused");
     series_instances := fun _ _ => Err (RuntimeError "connection refused") |}.

(* ===================================================================== *)
(** ** Properties of the sort key *)
(* ===================================================================== *)

Lemma rmap_ok_Forall2 {A B} (f : A → result B) xs ys :
  rmap f xs = Ok ys ↔ Forall2 (fun x y => f x = Ok y) xs ys.
Proof.
  revert ys. induction xs as [|x xs IH]; intros ys; simpl.
  - split.
    + intros [= <-]. constructor.
    + intros H. inversion H. reflexivity.
  - destruct (f x) as [y|e] eqn:Hx; simpl.
    + destruct (rmap f xs) as [ys'|e] eqn:Hxs; simpl.
      * split.
        -- intros [= <-]. constructor; [exact Hx | by apply IH].
        -- intros H. inversion H as [|? y0 ? ys0 Hy Hys]; subst.
           rewrite Hx in Hy. injection Hy as <-.
           apply IH in Hys. congruence.
      * split; [discriminate|].
        intros H. inversion H as [|? y0 ? ys0 Hy Hys]; subst.
        apply IH in Hys. discriminate.
    + split; [discriminate|].
      intros H. inversion H as [|? y0 ? ys0 Hy Hys]; subst. congruence.
Qed.

Lemma rmap_length {A B} (f : A → result B) xs ys :
  rmap f xs = Ok ys → length ys = length xs.
Proof. intros H%rmap_ok_Forall2. symmetry. by eapply Forall2_length. Qed.

Lemma py_int_ok s z : py_int s = Ok z ↔ parse_int s = Some z.
Proof. unfold py_int. destruct (parse_int s); split; congruence. Qed.

(** Reading the components with [int] succeeds exactly when every
    component is an integer, and gives the same tuple. *)
Lemma rmap_py_int_components parts zs :
  rmap py_int parts = Ok zs ↔ mapM parse_int parts = Some zs.
Proof.
  rewrite rmap_ok_Forall2, mapM_Some. split; intros H.
  - eapply Forall2_impl; [exact H|]. intros s z. apply py_int_ok.
  - eapply Forall2_impl; [exact H|]. intros s z. apply py_int_ok.
Qed.

(** When a component is not an integer, the conversion stops with the
    [ValueError] of the first such component. *)
Lemma rmap_py_int_fails parts :
  mapM parse_int parts = None → ∃ msg, rmap py_int parts = Err (ValueError msg).
Proof.
  induction parts as [|s parts IH]; simpl; [discriminate|].
  unfold py_int at 1. destruct (parse_int s) as [z|] eqn:Hs; simpl.
  - destruct (mapM parse_int parts) as [zs|] eqn:Hps; simpl; [discriminate|].
    intros _. destruct IH as [msg ->]; [done|]. by exists msg.
  - intros _. eauto.
Qed.

Lemma uid_key_integer uid zs :
  integer_components uid = Some zs → uid_key (VStr uid) = Ok (KTuple zs).
Proof.
  unfold integer_components, uid_key. intros H%rmap_py_int_components.
  simpl. by rewrite H.
Qed.

(** [uid_key] never comes back with the list of pieces: its handler raises
    before it could. *)
Lemma uid_key_is_tuple v k : uid_key v = Ok k → ∃ zs, k = KTuple zs.
Proof.
  unfold uid_key. destruct (uid_split v) as [parts|e]; simpl; [|discriminate].
  destruct (rmap py_int parts) as [zs|[]]; simpl; try discriminate.
  intros [= <-]. by exists zs.
Qed.

Lemma sort_key_tuples cells ks :
  sort_key cells = Ok ks → ∃ zs, ks = KTuple <$> zs.
Proof.
  unfold sort_key. revert ks. induction cells as [|c cells IH]; intros ks; simpl.
  - intros [= <-]. by exists [].
  - destruct (uid_key c) as [k|e] eqn:Hc; simpl; [|discriminate].
    destruct (rmap uid_key cells) as [ks'|e]; simpl; [|discriminate].
    intros [= <-]. destruct (uid_key_is_tuple _ _ Hc) as [z ->].
    destruct (IH ks' eq_refl) as [zs ->]. by exists (z :: zs).
Qed.

(** The interpreter's tuple comparison is the lexicographic order. *)
Lemma tuple_lt_lex v w : tuple_lt v w = true ↔ lex_lt v w.
Proof.
  revert w. induction v as [|x v IH]; intros [|y w]; simpl.
  - split; [discriminate | inversion 1].
  - split; [intros _; constructor | done].
  - split; [discriminate | inversion 1].
  - destruct (Z.eqb_spec x y) as [->|Hne].
    + rewrite IH. split; [by constructor|].
      inversion 1; subst; [lia | done].
    + rewrite Z.ltb_lt. split; [by constructor|].
      inversion 1; subst; [done | congruence].
Qed.

Lemma tuple_lt_irrefl v : tuple_lt v v = false.
Proof. induction v as [|x v IH]; simpl; [done|]. by rewrite Z.eqb_refl. Qed.

Lemma tuple_lt_trans u v w :
  tuple_lt u v = true → tuple_lt v w = true → tuple_lt u w = true.
Proof.
  revert v w. induction u as [|x u IH]; intros [|y v] [|z w]; simpl; try done.
  destruct (Z.eqb_spec x y) as [->|Hxy].
  - destruct (Z.eqb_spec y z) as [->|Hyz]; [apply IH | done].
  - destruct (Z.eqb_spec y z) as [->|Hyz].
    + intros H _. by destruct (Z.eqb_spec x z).
    + rewrite !Z.ltb_lt. intros Hlt1 Hlt2.
      destruct (Z.eqb_spec x z); [lia|]. apply Z.ltb_lt. lia.
Qed.

Lemma tuple_lt_connected v w :
  tuple_lt v w = false → tuple_lt w v = false → v = w.
Proof.
  revert w. induction v as [|x v IH]; intros [|y w]; simpl; try done.
  destruct (Z.eqb_spec x y) as [->|Hxy].
  - rewrite Z.eqb_refl. intros H1 H2. f_equal. by apply IH.
  - destruct (Z.eqb_spec y x); [congruence|].
    rewrite !Z.ltb_ge. lia.
Qed.

Lemma tuple_le_trans u v w : tuple_le u v → tuple_le v w → tuple_le u w.
Proof.
  unfold tuple_le. intros Hvu Hwv.
  destruct (tuple_lt w u) eqn:Hwu; [|done].
  destruct (tuple_lt u v) eqn:Huv.
  - by rewrite (tuple_lt_trans _ _ _ Hwu Huv) in Hwv.
  - rewrite (tuple_lt_connected _ _ Huv Hvu) in Hwu. congruence.
Qed.

Lemma tuple_lt_le v w : tuple_lt v w = true → tuple_le v w.
Proof.
  unfold tuple_le. intros H. destruct (tuple_lt w v) eqn:H'; [|done].
  pose proof (tuple_lt_trans _ _ _ H H') as Hvv. by rewrite tuple_lt_irrefl in Hvv.
Qed.

(* ===================================================================== *)
(** ** [sort_values] sorts and permutes *)
(* ===================================================================== *)

Section Sorting.
Context {A : Type}.
Implicit Types (x y z : key * A) (l : list (key * A)).

Lemma insert_by_key_perm x l : insert_by_key x l ≡ₚ x :: l.
Proof.
  induction l as [|y l IH]; simpl; [done|].
  destruct (key_lt y.1 x.1); [|done].
  rewrite IH. apply Permutation_swap.
Qed.

Lemma sort_by_key_perm l : sort_by_key l ≡ₚ l.
Proof.
  induction l as [|x l IH]; simpl; [done|].
  rewrite insert_by_key_perm. by constructor.
Qed.

Lemma keyed_le_trans x y z :
  tuple_keyed x → tuple_keyed y → tuple_keyed z →
  keyed_le x y → keyed_le y z → keyed_le x z.
Proof.
  unfold tuple_keyed, keyed_le.
  destruct x as [[u|] ?], y as [[v|] ?], z as [[w|] ?]; simpl; try done.
  intros _ _ _. apply tuple_le_trans.
Qed.

Lemma insert_by_key_sorted x l :
  tuple_keyed x → Forall tuple_keyed l →
  StronglySorted keyed_le l → StronglySorted keyed_le (insert_by_key x l).
Proof.
  intros Hx Hl Hs. induction Hs as [|y l Hs IH Hy]; simpl.
  - repeat constructor.
  - inversion Hl as [|? ? Hty Htl]; subst.
    destruct (key_lt y.1 x.1) eqn:Hlt.
    + assert (Hyx : keyed_le y x).
      { unfold keyed_le. revert Hlt. unfold tuple_keyed in Hx, Hty.
        destruct x as [[u|] ?], y as [[v|] ?]; simpl in *; try done.
        apply tuple_lt_le. }
      constructor; [by apply IH|].
      rewrite (insert_by_key_perm x l). by constructor.
    + constructor; [by constructor|].
      constructor; [exact Hlt|].
      rewrite Forall_forall in Hy, Htl. apply Forall_forall. intros z Hz.
      eapply (keyed_le_trans x y z); auto.
Qed.

Lemma sort_by_key_sorted l :
  Forall tuple_keyed l → StronglySorted keyed_le (sort_by_key l).
Proof.
  induction 1 as [|x l Hx Hl IH]; simpl; [constructor|].
  apply insert_by_key_sorted; [done| |done].
  by rewrite sort_by_key_perm.
Qed.

End Sorting.

Lemma StronglySorted_keys {A} (l : list (key * A)) zs :
  l.*1 = KTuple <$> zs → StronglySorted keyed_le l → StronglySorted tuple_le zs.
Proof.
  revert zs. induction l as [|[k a] l IH]; intros [|z zs]; rewrite ?fmap_cons; try done.
  - constructor.
  - intros [= -> Hl] Hs. inversion Hs as [|? ? Hs' Hall]; subst.
    constructor; [by apply IH|].
    apply Forall_forall. intros z' Hz'.
    assert (Hin : KTuple z' ∈ KTuple <$> zs) by (by apply list_elem_of_fmap_2).
    rewrite <- Hl in Hin.
    apply list_elem_of_fmap in Hin as [[k' a'] [Hk Hin]]. simpl in Hk. subst k'.
    rewrite Forall_forall in Hall. apply (Hall _ Hin).
Qed.

(** A sorted frame: same columns, the same rows in another order, sorted
    by UID on the chosen column. *)
Lemma sort_frame_by_uid_sorted df by_ df' :
  sort_frame_by_uid df by_ = Ok df' →
  columns df' = columns df ∧ rows df' ≡ₚ rows df ∧ sorted_by_uid df' by_.
Proof.
  unfold sort_frame_by_uid, sort_values, column.
  case_bool_decide as Hcol; simpl; [|discriminate].
  destruct (sort_key _) as [ks|e] eqn:Hks; simpl; [|discriminate].
  destruct (sort_key_tuples _ _ Hks) as [zs ->].
  destruct (existsb _ _ && existsb _ _); [discriminate|].
  intros [= <-]. simpl.
  pose proof (rmap_length _ _ _ Hks) as Hlen. rewrite !length_fmap in Hlen.
  set (l := zip (KTuple <$> zs) (rows df)) in *.
  assert (Hl2 : l.*2 = rows df) by (apply snd_zip; rewrite length_fmap; lia).
  assert (Hl1 : l.*1 = KTuple <$> zs) by (apply fst_zip; rewrite length_fmap; lia).
  assert (Hpair : Forall (fun x => uid_key (cell x.2 by_) = Ok x.1) l).
  { apply rmap_ok_Forall2 in Hks. rewrite <- Hl1 in Hks. rewrite <- Hl2 in Hks.
    rewrite <- list_fmap_compose in Hks. clearbody l. clear -Hks.
    induction l as [|x l IH]; [constructor|].
    simpl in Hks. inversion Hks; subst. constructor; [done | by apply IH]. }
  assert (Htup : Forall tuple_keyed l).
  { apply Forall_forall. intros x Hx. unfold tuple_keyed.
    assert (Hin : x.1 ∈ l.*1) by (by apply list_elem_of_fmap_2).
    rewrite Hl1 in Hin. apply list_elem_of_fmap in Hin as [z [-> _]]. done. }
  split; [done|]. split.
  { rewrite <- Hl2. by rewrite sort_by_key_perm. }
  assert (Hkeys : ∃ zs', (sort_by_key l).*1 = KTuple <$> zs').
  { assert (Hall : Forall (fun k => is_tuple k = true) (sort_by_key l).*1).
    { rewrite sort_by_key_perm. apply Forall_fmap. exact Htup. }
    clear -Hall. induction Hall as [|k ks Hk _ [zs' IH]]; [by exists []|].
    destruct k as [z|]; [|done]. exists (z :: zs'). simpl. by rewrite IH. }
  destruct Hkeys as [zs' Hzs'].
  exists ((fun r => cell r by_) <$> (sort_by_key l).*2), zs'.
  unfold column; simpl. rewrite bool_decide_true by done. split; [done|]. split.
  - unfold sort_key. apply rmap_ok_Forall2. rewrite <- Hzs'.
    assert (Hpair' : Forall (fun x => uid_key (cell x.2 by_) = Ok x.1) (sort_by_key l))
      by (by rewrite sort_by_key_perm).
    clear -Hpair'. induction Hpair' as [|x l' Hx _ IH]; simpl; [constructor|].
    by constructor.
  - eapply StronglySorted_keys; [exact Hzs'|]. by apply sort_by_key_sorted.
Qed.

(* ===================================================================== *)
(** ** The result normalizer *)
(* ===================================================================== *)

Lemma foldl_insert_lookup {V} (f : string → V) (kws : list string) (m : gmap string V) c :
  foldl (fun data k => <[k := f k]> data) m kws !! c =
  if bool_decide (c ∈ kws) then Some (f c) else m !! c.
Proof.
  revert m. induction kws as [|k kws IH]; intros m; simpl; [done|].
  rewrite IH. destruct (decide (c = k)) as [->|Hne].
  - rewrite lookup_insert_eq.
    rewrite (bool_decide_true (k ∈ k :: kws)) by (apply elem_of_cons; by left).
    by destruct (bool_decide (k ∈ kws)).
  - rewrite lookup_insert_ne by done.
    by rewrite (bool_decide_ext (c ∈ k :: kws) (c ∈ kws))
      by (rewrite elem_of_cons; naive_solver).
Qed.

Lemma record_row_lookup keywords d k :
  record_row keywords d !! k = if bool_decide (k ∈ keywords) then Some (ds_get d k) else None.
Proof.
  unfold record_row. induction keywords as [|c keywords IH].
  - by rewrite fmap_nil, list_to_map_nil, lookup_empty.
  - rewrite fmap_cons, list_to_map_cons.
    destruct (decide (k = c)) as [->|Hne].
    + rewrite lookup_insert_eq.
      by rewrite bool_decide_true by (apply elem_of_cons; by left).
    + rewrite lookup_insert_ne by done. rewrite IH.
      by rewrite (bool_decide_ext (k ∈ c :: keywords) (k ∈ keywords))
        by (rewrite elem_of_cons; naive_solver).
Qed.

Lemma dicoms_to_frame_columns dicoms keywords :
  columns (dicoms_to_frame dicoms (Some keywords)) = keywords.
Proof. done. Qed.

Lemma dicoms_to_frame_rows dicoms keywords :
  keywords ≠ [] →
  rows (dicoms_to_frame dicoms (Some keywords)) = record_row keywords <$> dicoms.
Proof.
  intros Hne. unfold dicoms_to_frame.
  change (default default_keywords (Some keywords)) with keywords.
  unfold DataFrame. cbn [rows].
  set (f := fun keyword => (fun d => ds_get d keyword) <$> dicoms).
  set (data := foldl _ _ _).
  assert (Hdata : ∀ c, c ∈ keywords → data !! c = Some (f c)).
  { intros c Hc. unfold data. rewrite (foldl_insert_lookup f).
    by rewrite bool_decide_true. }
  assert (Hn : match keywords with
               | [] => 0
               | c :: _ => length (default [] (data !! c))
               end = length dicoms).
  { destruct keywords as [|c0 keywords']; [done|].
    rewrite Hdata by (apply elem_of_cons; by left). simpl. unfold f. by rewrite length_fmap. }
  rewrite Hn. apply list_eq. intros i. rewrite !list_lookup_fmap.
  destruct (dicoms !! i) as [d|] eqn:Hd.
  - rewrite lookup_seq_lt by (by eapply lookup_lt_Some). cbn. f_equal.
    unfold record_row. f_equal. apply list_fmap_ext. intros j c Hc.
    rewrite Hdata by (by eapply list_elem_of_lookup_2). simpl.
    unfold f. by rewrite list_lookup_fmap, Hd.
  - rewrite lookup_seq_ge; [done|]. by apply lookup_ge_None.
Qed.

Lemma cell_record_row keywords d k :
  k ∈ keywords → cell (record_row keywords d) k = ds_get d k.
Proof. intros Hk. unfold cell. by rewrite record_row_lookup, bool_decide_true. Qed.

Lemma dicoms_to_frame_column dicoms keywords k :
  k ∈ keywords →
  column (dicoms_to_frame dicoms (Some keywords)) k = Ok ((fun d => ds_get d k) <$> dicoms).
Proof.
  intros Hk. unfold column. rewrite dicoms_to_frame_columns, bool_decide_true by done.
  rewrite dicoms_to_frame_rows by (by intros ->; apply elem_of_nil in Hk).
  rewrite <- list_fmap_compose. f_equal. apply list_fmap_ext. intros i d _. simpl.
  by apply cell_record_row.
Qed.

(** C5.  [dicoms_to_frame] never raises and gives exactly the requested
    columns in the requested order; every requested column holds one cell
    per input record, in input order: the record's value for the field, and
    [None] when the record has no such field.  Row by row (for a request
    that names a column at all): one row per record, with a cell for every
    requested field and for no other.  For the request A, B, C and a record
    with A only the row is A=value, B=None, C=None.  A request that names no
    field gives a table without rows, however many records there are. *)
Theorem dicoms_to_frame_table (dicoms : list Dataset) (keywords : list string) :
  columns (dicoms_to_frame dicoms (Some keywords)) = keywords ∧
  (∀ k, k ∈ keywords →
     column (dicoms_to_frame dicoms (Some keywords)) k =
       Ok ((fun d => ds_get d k) <$> dicoms)) ∧
  (∀ d k, elements d !! k = None → ds_get d k = VNone) ∧
  (keywords ≠ [] →
     rows (dicoms_to_frame dicoms (Some keywords)) = record_row keywords <$> dicoms ∧
     frame_len (dicoms_to_frame dicoms (Some keywords)) = length dicoms) ∧
  (∀ d k, k ∈ keywords → record_row keywords d !! k = Some (ds_get d k)) ∧
  (∀ d k, k ∉ keywords → record_row keywords d !! k = None) ∧
  (∀ d v, elements d = {["A" := v]} →
     record_row ["A"; "B"; "C"] d = {["A" := v; "B" := VNone; "C" := VNone]}) ∧
  rows (dicoms_to_frame dicoms (Some [])) = [].
Proof.
  split; [apply dicoms_to_frame_columns|].
  split; [intros k Hk; by apply dicoms_to_frame_column|].
  split; [intros d k Hk; unfold ds_get; by rewrite Hk|].
  split; [|split; [|split; [|split; [|done]]]].
  - intros Hne. pose proof (dicoms_to_frame_rows dicoms keywords Hne) as Hrows.
    split; [done|]. unfold frame_len. by rewrite Hrows, length_fmap.
  - intros d k Hk. by rewrite record_row_lookup, bool_decide_true.
  - intros d k Hk. by rewrite record_row_lookup, bool_decide_false.
  - intros d v Hd. unfold record_row, ds_get. simpl. rewrite Hd.
    rewrite lookup_singleton_eq. rewrite !lookup_singleton_ne by discriminate.
    reflexivity.
Qed.

Lemma dicoms_to_frame_table_witness :
  let d := mkDataset {["A" := VStr "x"]} None None in
  column (dicoms_to_frame [d; d] (Some ["A"; "B"; "C"])) "B" = Ok [VNone; VNone] ∧
  rows (dicoms_to_frame [d; d] (Some ["A"; "B"; "C"])) =
    record_row ["A"; "B"; "C"] <$> [d; d] ∧
  record_row ["A"; "B"; "C"] d = {["A" := VStr "x"; "B" := VNone; "C" := VNone]}.
Proof.
  intros d.
  destruct (dicoms_to_frame_table [d; d] ["A"; "B"; "C"])
    as (_ & Hcol & _ & Hrows & _ & _ & Hex & _).
  split; [|split].
  - apply (Hcol "B"). repeat constructor.
  - apply Hrows. discriminate.
  - apply Hex. reflexivity.
Defined.

(* ===================================================================== *)
(** ** [flatten] and the JSON conversion *)
(* ===================================================================== *)

(** C6.  [flatten] turns a one-element sequence into its element and
    returns an empty sequence and a sequence of two or more elements as
    they are. *)
Theorem flatten_multi_valued :
  (∀ x, flatten (VSeq [x]) = Ok x) ∧
  flatten (VSeq []) = Ok (VSeq []) ∧
  (∀ x y l, flatten (VSeq (x :: y :: l)) = Ok (VSeq (x :: y :: l))).
Proof. repeat split. Qed.

(** C10.  [dicomize_json_results] does not look at its [meta_only]
    argument: every record is converted as with [meta_only=True], that is
    with the handler that answers every bulk-data reference with empty
    bytes.  Forwarding the flag would matter: for a record with a bulk-data
    reference the two conversions differ. *)
Theorem dicomize_json_results_ignores_flag :
  (∀ data meta_only,
     dicomize_json_results data meta_only = dicomize_json_results data true) ∧
  (∀ data meta_only,
     dicomize_json_results data meta_only =
     (fun d => from_json d (Some (fun _ => ""))) <$> data) ∧
  (∃ d, dicomize_json_result d false ≠ dicomize_json_result d true).
Proof.
  split; [done|]. split; [done|].
  exists {["PixelData" := mkJsonElement "OW" (JBulkDataURI "http://host/bulk")]}.
  unfold dicomize_json_result, from_json. intros H.
  apply (f_equal (fun ds => elements ds !! "PixelData")) in H. cbn [elements] in H.
  rewrite !map_fmap_singleton, !lookup_singleton_eq in H. discriminate.
Qed.

(** C4 (what the code does).  As soon as one component of the identifier
    is not an integer, [uid_key] raises: [int] raises [ValueError], the
    handler tests ["invalid literal for int()" in e] on the exception object
    itself, and that test raises [TypeError].  The list of pieces the
    handler meant to fall back to is never returned. *)
Theorem uid_key_non_integer_raises (uid : string) :
  integer_components uid = None →
  uid_key (VStr uid) = Err (TypeError "argument of type 'ValueError' is not iterable").
Proof.
  unfold integer_components, uid_key. simpl. intros H.
  destruct (rmap_py_int_fails _ H) as [msg ->]. reflexivity.
Qed.

Lemma uid_key_non_integer_raises_witness :
  integer_components "1.2.abc" = None ∧
  uid_key (VStr "1.2.abc") = Err (TypeError "argument of type 'ValueError' is not iterable").
Proof.
  split; [reflexivity|]. apply uid_key_non_integer_raises. reflexivity.
Defined.

(* ===================================================================== *)
(** ** Reasoning about computations *)
(* ===================================================================== *)

Lemma bind_ok {A B} (m : M A) (k : A → M B) w b w' :
  bind m k w = (Ok b, w') ↔ ∃ a w1, m w = (Ok a, w1) ∧ k a w1 = (Ok b, w').
Proof.
  unfold bind. destruct (m w) as [[a|e] w1]; split.
  - intros H. by exists a, w1.
  - by intros (a' & w1' & [= -> ->] & H).
  - discriminate.
  - by intros (a' & w1' & [=] & _).
Qed.

Lemma bind_step {A B} (m : M A) (k : A → M B) w a w1 :
  m w = (Ok a, w1) → bind m k w = k a w1.
Proof. unfold bind. by intros ->. Qed.

Lemma bind_fail {A B} (m : M A) (k : A → M B) w e w1 :
  m w = (Err e, w1) → bind m k w = (Err e, w1).
Proof. unfold bind. by intros ->. Qed.

Lemma lift_ok {A} (r : result A) w a w' :
  lift r w = (Ok a, w') ↔ r = Ok a ∧ w' = w.
Proof. unfold lift. split; [by intros [= -> ->] | by intros [-> ->]]. Qed.

Lemma ret_ok {A} (a b : A) w w' : ret a w = (Ok b, w') ↔ b = a ∧ w' = w.
Proof. unfold ret. split; [by intros [= -> ->] | by intros [-> ->]]. Qed.

(** Take a successful run apart, one statement at a time. *)
Ltac run_inv H :=
  repeat match type of H with
  | bind _ _ _ = (Ok _, _) =>
      let a := fresh "a" in let w := fresh "w" in
      let H1 := fresh "Hrun" in
      apply bind_ok in H as (a & w & H1 & H)
  end.

(* ===================================================================== *)
(** ** The search orchestrator *)
(* ===================================================================== *)

Lemma sent_requests w r : requests (sent w r) = (requests w ++ [r])%list.
Proof. done. Qed.

Lemma sent_fs w r : fs (sent w r) = fs w.
Proof. done. Qed.

(** A study search leaves one request in the log, whatever it answers. *)
Lemma query_studies_world self sf fuzzy limit offset w r w' :
  _query_studies self sf fuzzy limit offset w = (r, w') →
  w' = sent w (SearchForStudies sf fuzzy limit offset STUDY_KEYS).
Proof.
  unfold _query_studies, bind, search_for_studies, lift.
  destruct (studies_found _ _ _ _ _ _); by intros [= _ <-].
Qed.

Lemma query_series_for_study_world self uid sf fuzzy limit offset w r w' :
  _query_series_for_study self uid sf fuzzy limit offset w = (r, w') →
  w' = sent w (SearchForSeries uid sf fuzzy limit offset SERIES_KEYS).
Proof.
  unfold _query_series_for_study, bind, search_for_series, lift.
  destruct (series_found _ _ _ _ _ _ _); by intros [= _ <-].
Qed.

(** The fan-out sends the sub-queries of a prefix of the studies, in
    order, and of all of them when it comes to its end. *)
Lemma fan_out_requests self sf fuzzy limit offset uids w r w' :
  mmap (fun uid => _query_series_for_study self uid sf fuzzy limit offset) uids w = (r, w') →
  fs w' = fs w ∧
  ∃ n, requests w' =
         (requests w ++
            ((fun uid => SearchForSeries uid sf fuzzy limit offset SERIES_KEYS) <$> take n uids))%list ∧
       (∀ dfs, r = Ok dfs → take n uids = uids ∧ length dfs = length uids).
Proof.
  revert w r w'. induction uids as [|uid uids IH]; intros w r w'; simpl.
  - intros [= <- <-]. split; [done|]. exists 0. simpl. rewrite app_nil_r.
    split; [done|]. by intros dfs [= <-].
  - unfold bind at 1.
    destruct (_query_series_for_study _ _ _ _ _ _ w) as [[df|e] w1] eqn:H1;
      apply query_series_for_study_world in H1 as ->.
    + unfold bind at 1.
      destruct (mmap _ uids _) as [[dfs|e] w2] eqn:H2;
        apply IH in H2 as (Hfs & n & Hreq & Hall); intros [= <- <-].
      * split; [done|]. exists (S n). simpl. rewrite Hreq, sent_requests.
        rewrite <- app_assoc. split; [done|].
        intros dfs' [= <-]. destruct (Hall dfs eq_refl) as [-> Hlen].
        simpl. by rewrite Hlen.
      * split; [done|]. exists (S n). simpl. rewrite Hreq, sent_requests.
        rewrite <- app_assoc. split; [done|]. discriminate.
    + intros [= <- <-]. split; [done|]. exists 1. simpl. rewrite take_0.
      split; [done|]. discriminate.
Qed.

(** Membership in one of the key lists. *)
Ltac key_listed := unfold STUDY_KEYS, SERIES_KEYS, INSTANCE_KEYS; repeat constructor.

(** The study UIDs the fan-out runs over are those of the records found,
    in sorted order. *)
Lemma query_studies_uids self sf fuzzy limit offset w df w' recs :
  studies_found (_client self) sf fuzzy limit offset STUDY_KEYS = Ok recs →
  _query_studies self sf fuzzy limit offset w = (Ok df, w') →
  ∃ uids, column df "StudyInstanceUID" = Ok uids ∧
          uids ≡ₚ (fun r => ds_get (dicomize_json_result r true) "StudyInstanceUID") <$> recs ∧
          sorted_by_uid df "StudyInstanceUID".
Proof.
  intros Hrecs. unfold _query_studies, bind, search_for_studies. rewrite Hrecs.
  intros [Hsort _]%lift_ok.
  apply sort_frame_by_uid_sorted in Hsort as (Hcols & Hrows & Hsorted).
  exists ((fun r => cell r "StudyInstanceUID") <$> rows df). split.
  - unfold column. rewrite Hcols, dicoms_to_frame_columns.
    by rewrite bool_decide_true by key_listed.
  - split; [|done]. rewrite Hrows, dicoms_to_frame_rows by done.
    unfold dicomize_json_results. rewrite <- !list_fmap_compose.
    erewrite list_fmap_ext; [done|]. intros i r _. simpl.
    apply cell_record_row. key_listed.
Qed.

(** C8.  A run of [_query_series] that returns has sent, after the one
    study search with the caller's limit and offset, exactly one series
    search per study found, for that study's UID, with the same filters and
    fuzzy flag and with neither limit nor offset; hence as many sub-queries
    as the study search returned records.  A run that raises has sent
    nothing but such requests either. *)
Theorem query_series_fan_out self sf fuzzy limit offset (w : world) r w' recs :
  studies_found (_client self) sf fuzzy limit offset STUDY_KEYS = Ok recs →
  _query_series self sf fuzzy limit offset w = (r, w') →
  ∃ uids,
    requests w' =
      (requests w ++
         SearchForStudies sf fuzzy limit offset STUDY_KEYS ::
         ((fun uid => SearchForSeries uid sf fuzzy None None SERIES_KEYS) <$> uids))%list ∧
    (∀ df, r = Ok df →
       uids ≡ₚ (fun rec => ds_get (dicomize_json_result rec true) "StudyInstanceUID") <$> recs ∧
       length uids = length recs).
Proof.
  intros Hrecs. unfold _query_series. unfold bind at 1.
  destruct (_query_studies _ _ _ _ _ w) as [[studies|e] w1] eqn:Hq.
  2:{ apply query_studies_world in Hq as ->. intros [= <- <-].
      exists []. split; [done|]. discriminate. }
  pose proof (query_studies_world _ _ _ _ _ _ _ _ Hq) as ->.
  destruct (query_studies_uids _ _ _ _ _ _ _ _ _ Hrecs Hq) as (uids & Hcol & Hperm & _).
  unfold bind at 1. unfold lift at 1. rewrite Hcol.
  unfold bind at 1.
  destruct (mmap _ uids _) as [[dfs|e] w2] eqn:Hfan;
    apply fan_out_requests in Hfan as (_ & n & Hreq & Hall).
  - destruct (Hall dfs eq_refl) as [Htake Hlen]. rewrite Htake in Hreq.
    intros Hrest. exists uids. split.
    + assert (w' = w2) as ->.
      { revert Hrest. unfold bind, lift.
        destruct (pd_concat dfs); [|by intros [= _ <-]].
        by destruct (sort_frame_by_uid _ _); intros [= _ <-]. }
      rewrite Hreq, sent_requests, <- app_assoc. done.
    + intros df _. split; [done|]. by rewrite Hperm, length_fmap.
  - intros [= <- <-]. exists (take n uids). split; [|discriminate].
    rewrite Hreq, sent_requests, <- app_assoc. done.
Qed.

(** C2 (what the code does).  When the study search finds nothing,
    [_query_series] sends no sub-query, hands the empty list of per-study
    tables to [pd.concat], and that raises [ValueError]; [list_series] and
    [search_and_download_series] fail with it. *)
Theorem query_series_no_studies_raises self sf fuzzy limit offset (w : world) :
  studies_found (_client self) sf fuzzy limit offset STUDY_KEYS = Ok [] →
  _query_series self sf fuzzy limit offset w =
    (Err (ValueError "No objects to concatenate"),
     sent w (SearchForStudies sf fuzzy limit offset STUDY_KEYS)) ∧
  (∀ print_list print_summary out_dir,
     list_series print_list print_summary self sf fuzzy limit offset out_dir w =
       (Err (ValueError "No objects to concatenate"),
        sent w (SearchForStudies sf fuzzy limit offset STUDY_KEYS))) ∧
  (∀ st_size_of print_list print_summary meta_only out_dir forced,
     search_and_download_series st_size_of print_list print_summary self sf meta_only fuzzy
       limit offset out_dir forced w =
       (Err (ValueError "No objects to concatenate"),
        sent w (SearchForStudies sf fuzzy limit offset STUDY_KEYS))).
Proof.
  intros Hnone.
  assert (Hq : _query_series self sf fuzzy limit offset w =
    (Err (ValueError "No objects to concatenate"),
     sent w (SearchForStudies sf fuzzy limit offset STUDY_KEYS))).
  { unfold _query_series, _query_studies, bind, search_for_studies. rewrite Hnone.
    reflexivity. }
  split; [exact Hq|]. split.
  - intros. unfold list_series. by rewrite (bind_fail _ _ _ _ _ Hq).
  - intros. unfold search_and_download_series. by rewrite (bind_fail _ _ _ _ _ Hq).
Qed.

(* ===================================================================== *)
(** ** The file system *)
(* ===================================================================== *)

Lemma node_at_insert (files : gmap path node) p n q :
  p ≠ [] →
  node_at (<[p := n]> files) q = if decide (q = p) then Some n else node_at files q.
Proof.
  intros Hp. destruct q as [|c q]; simpl.
  - by destruct (decide ([] = p)).
  - destruct (decide (c :: q = p)) as [<-|Hne].
    + by rewrite lookup_insert_eq.
    + by rewrite lookup_insert_ne.
Qed.

Lemma node_at_None_nonroot (files : gmap path node) p : node_at files p = None → p ≠ [].
Proof. by destruct p. Qed.

Lemma kinds_kept_refl w : kinds_kept w w.
Proof. by intros p. Qed.

Lemma kinds_kept_trans w1 w2 w3 : kinds_kept w1 w2 → kinds_kept w2 w3 → kinds_kept w1 w3.
Proof.
  intros H12 H23 p. destruct (H12 p) as [Hf Hd], (H23 p) as [Hf' Hd']. split; auto.
Qed.

(** Putting a directory where nothing was, or a file where no directory
    was, keeps every kind. *)
Lemma kinds_kept_insert w p n :
  p ≠ [] →
  match n with
  | Dir => is_file_at (fs w) p = false
  | File _ => is_dir_at (fs w) p = false
  end →
  kinds_kept w (set_fs w (<[p := n]> (fs w))).
Proof.
  intros Hp Hn q. unfold is_file_at, is_dir_at in *. simpl.
  rewrite node_at_insert by done.
  destruct (decide (q = p)) as [->|Hne]; [|done].
  destruct n; split; intros H; simpl; congruence.
Qed.

(** No file on the path: none at the path, none above. *)
Lemma file_on_path_false (files : gmap path node) p :
  file_on_path files p = false ↔ ∀ q k : path, p = (k ++ q)%list → is_file_at files q = false.
Proof.
  induction p as [|c p IH]; simpl.
  - split; [|done]. intros _ q k Hq. symmetry in Hq.
    apply app_eq_nil in Hq as [_ ->]. done.
  - rewrite orb_false_iff, IH. split.
    + intros [Hc Hp] q [|c' k] Hq; simpl in Hq.
      * by subst.
      * injection Hq as -> ->. by eapply Hp.
    + intros Hall. split; [by apply (Hall _ [])|].
      intros q k ->. by apply (Hall q (c :: k)).
Qed.

Lemma os_mkdir_spec p w r w' :
  os_mkdir p w = (r, w') →
  match r with
  | Ok _ => node_at (fs w) p = None ∧ is_dir_at (fs w) (path_parent p) = true ∧
            w' = set_fs w (<[p := Dir]> (fs w))
  | Err (FileNotFoundError _) =>
      node_at (fs w) (path_parent p) = None ∧
      file_on_path (fs w) (path_parent p) = false ∧ w' = w
  | Err (NotADirectoryError _) => file_on_path (fs w) (path_parent p) = true ∧ w' = w
  | Err (FileExistsError _) =>
      is_dir_at (fs w) (path_parent p) = true ∧ is_Some (node_at (fs w) p) ∧ w' = w
  | Err _ => False
  end.
Proof.
  unfold os_mkdir, is_dir_at.
  destruct (node_at (fs w) (path_parent p)) as [[|c]|] eqn:Hparent.
  - destruct (node_at (fs w) p) as [n|] eqn:Hp; intros [= <- <-]; eauto.
  - intros [= <- <-]. split; [|done].
    destruct (path_parent p) as [|c0 q]; [done|].
    simpl. unfold is_file_at. by rewrite Hparent.
  - destruct (file_on_path _ _) eqn:Hfile; by intros [= <- <-].
Qed.

Lemma mkdir_oserror_spec p exist_ok e w :
  mkdir_oserror p exist_ok e w =
  if exist_ok && is_dir_at (fs w) p then (Ok (), w) else (Err e, w).
Proof.
  unfold mkdir_oserror, bind, is_dir.
  by destruct exist_ok, (is_dir_at (fs w) p).
Qed.

Lemma mkdir_single_spec p exist_ok w r w' :
  mkdir_single p exist_ok w = (r, w') →
  match r with
  | Ok _ => made_dir p w w'
  | Err _ => w' = w
  end.
Proof.
  unfold mkdir_single, try_except.
  destruct (os_mkdir p w) as [[u|e] w1] eqn:Hos; apply os_mkdir_spec in Hos.
  - destruct Hos as (Hnone & Hpar & ->). intros [= <- <-].
    pose proof (node_at_None_nonroot _ _ Hnone) as Hp.
    split; [|split].
    + unfold is_dir_at. simpl. rewrite node_at_insert by done.
      by rewrite decide_True.
    + apply kinds_kept_insert; [done|]. unfold is_file_at. by rewrite Hnone.
    + by right.
  - assert (Hother : ∀ e', mkdir_oserror p exist_ok e' w = (r, w') →
                            match r with Ok _ => made_dir p w w' | Err _ => w' = w end).
    { intros e'. rewrite mkdir_oserror_spec.
      destruct (exist_ok && is_dir_at (fs w) p) eqn:Hc; intros [= <- <-]; [|done].
      apply andb_true_iff in Hc as [_ Hd].
      split; [done|]. split; [apply kinds_kept_refl | by left]. }
    destruct e; try done.
    + destruct Hos as (_ & _ & ->). apply Hother.
    + destruct Hos as (_ & _ & ->). by intros [= <- <-].
    + destruct Hos as (_ & ->). apply Hother.
Qed.

Lemma mkdir_parents_kept p exist_ok w r w' :
  mkdir_parents p exist_ok w = (r, w') →
  kinds_kept w w' ∧ (∀ u, r = Ok u → is_dir_at (fs w') p = true).
Proof.
  revert exist_ok w r w'. induction p as [|c parent IH]; intros exist_ok w r w'.
  - simpl. unfold try_except.
    destruct (os_mkdir [] w) as [[u|e] w1] eqn:Hos; apply os_mkdir_spec in Hos.
    + by destruct Hos as (Hnone & _).
    + destruct e; try done.
      * destruct Hos as (_ & _ & ->). rewrite mkdir_oserror_spec.
        destruct (exist_ok && _); intros [= <- <-]; split;
          try apply kinds_kept_refl; done.
      * by destruct Hos as (Hnone & _).
      * by destruct Hos as (Hfile & _).
  - simpl. unfold try_except.
    destruct (os_mkdir (c :: parent) w) as [[u|e] w1] eqn:Hos; apply os_mkdir_spec in Hos.
    + destruct Hos as (Hnone & _ & ->). intros [= <- <-]. split.
      * apply kinds_kept_insert; [done|]. unfold is_file_at. by rewrite Hnone.
      * intros _ _. unfold is_dir_at. simpl. by rewrite lookup_insert_eq.
    + destruct e; try done.
      * destruct Hos as (_ & _ & ->). rewrite mkdir_oserror_spec.
        destruct (exist_ok && _) eqn:Hc; intros [= <- <-]; split;
          try apply kinds_kept_refl; try done.
        intros _ _. by apply andb_true_iff in Hc as [_ Hd].
      * destruct Hos as (_ & _ & ->). unfold bind.
        destruct (mkdir_parents parent true w) as [[u|e] w2] eqn:Hrec;
          apply IH in Hrec as [Hkept Hdir].
        -- intros Hsingle. apply mkdir_single_spec in Hsingle.
           destruct r as [u'|e'].
           ++ destruct Hsingle as (Hd & Hk & _). split; [|done].
              by eapply kinds_kept_trans.
           ++ subst w'. split; [done|]. discriminate.
        -- intros [= <- <-]. split; [done|]. discriminate.
      * destruct Hos as (_ & ->). rewrite mkdir_oserror_spec.
        destruct (exist_ok && _) eqn:Hc; intros [= <- <-]; split;
          try apply kinds_kept_refl; try done.
        intros _ _. by apply andb_true_iff in Hc as [_ Hd].
Qed.


Lemma ensure_dir_existing p forced w :
  is_dir_at (fs w) p = true → ensure_dir p forced w = (Ok true, w).
Proof. intros H. unfold ensure_dir, bind, is_dir, ret. rewrite H. simpl. by rewrite H. Qed.

Lemma ensure_dir_spec p forced w r w' :
  ensure_dir p forced w = (r, w') →
  kinds_kept w w' ∧ (∀ b, r = Ok b → b = true ∧ is_dir_at (fs w') p = true).
Proof.
  destruct (is_dir_at (fs w) p) eqn:Hd.
  - rewrite ensure_dir_existing by done. intros [= <- <-].
    split; [apply kinds_kept_refl|]. by intros b [= <-].
  - unfold ensure_dir, bind, is_dir. rewrite Hd. simpl.
    destruct (mkdir_parents p forced w) as [[u|e] w1] eqn:Hmk;
      apply mkdir_parents_kept in Hmk as [Hkept Hdir]; intros [= <- <-].
    + split; [done|]. intros b [= <-]. split; by eapply Hdir.
    + split; [done|]. discriminate.
Qed.

Lemma write_file_spec p c w r w' :
  write_file p c w = (r, w') →
  match r with
  | Ok _ => is_dir_at (fs w) (path_parent p) = true ∧ is_dir_at (fs w) p = false ∧
            w' = set_fs w (<[p := File c]> (fs w))
  | Err _ => w' = w
  end.
Proof.
  unfold write_file, is_dir_at.
  destruct (node_at (fs w) (path_parent p)) as [[|?]|]; try by intros [= <- <-].
  - destruct (node_at (fs w) p) as [[|?]|]; by intros [= <- <-].
  - destruct (file_on_path _ _); by intros [= <- <-].
Qed.

Lemma write_file_ok p c w :
  is_dir_at (fs w) (path_parent p) = true → is_dir_at (fs w) p = false →
  write_file p c w = (Ok (), set_fs w (<[p := File c]> (fs w))).
Proof.
  unfold write_file, is_dir_at.
  destruct (node_at (fs w) (path_parent p)) as [[|?]|]; try done.
  by destruct (node_at (fs w) p) as [[|?]|].
Qed.

Lemma is_dir_at_nonroot (files : gmap path node) p : is_dir_at files p = false → p ≠ [].
Proof. by destruct p. Qed.

Lemma written_file_kinds p c w :
  is_dir_at (fs w) p = false →
  let w' := set_fs w (<[p := File c]> (fs w)) in
  kinds_kept w w' ∧ node_at (fs w') p = Some (File c).
Proof.
  intros Hnd w'. pose proof (is_dir_at_nonroot _ _ Hnd) as Hp. split.
  - by apply kinds_kept_insert.
  - unfold w'. simpl. rewrite node_at_insert by done. by rewrite decide_True.
Qed.

(* ===================================================================== *)
(** ** The output writer *)
(* ===================================================================== *)

Section Writer.
Context (st_size_of : node → Z).

Local Abbreviation write_loop := (_write_instances_loop st_size_of).

Lemma instance_target_uids out inst p :
  instance_target out inst = Some p ↔
  ∃ series sop,
    elements inst !! "SeriesInstanceUID" = Some (VStr series) ∧
    elements inst !! "SOPInstanceUID" = Some (VStr sop) ∧
    p = (sop +:+ ".dcm") :: series :: out.
Proof.
  unfold instance_target, path_join.
  destruct (elements inst !! "SeriesInstanceUID") as [[]|];
    try (split; [discriminate | by intros (? & ? & [=] & _)]).
  destruct (elements inst !! "SOPInstanceUID") as [[]|];
    try (split; [discriminate | by intros (? & ? & _ & [=] & _)]).
  split.
  - intros [= <-]. eauto.
  - by intros (? & ? & [= ->] & [= ->] & ->).
Qed.

Lemma write_loop_cons out forced inst rest sizes w p sop :
  instance_target out inst = Some p →
  elements inst !! "SOPInstanceUID" = Some (VStr sop) →
  write_loop out forced (inst :: rest) sizes w =
  bind (write_one st_size_of forced inst p)
       (fun bytes => write_loop out forced rest (<[sop := bytes]> sizes)) w.
Proof.
  intros (series & sop' & Hse & Hso & ->)%instance_target_uids Hsop.
  rewrite Hso in Hsop. injection Hsop as ->.
  simpl. unfold write_one, bind, lift, ds_attr, path_div, path_join.
  rewrite Hse, Hso. simpl.
  by destruct (ensure_dir _ _ _) as [[b|e] w1].
Qed.

(** An instance without both UIDs as strings stops the loop. *)
Lemma write_loop_no_target out forced inst :
  instance_target out inst = None →
  ∃ e, ∀ rest sizes w, write_loop out forced (inst :: rest) sizes w = (Err e, w).
Proof.
  unfold instance_target. simpl. unfold bind, lift, ds_attr, path_div.
  destruct (elements inst !! "SeriesInstanceUID") as [[]|]; simpl; eauto.
  destruct (elements inst !! "SOPInstanceUID") as [[]|]; simpl; eauto.
  discriminate.
Qed.

Lemma write_one_spec forced inst p w r w' :
  write_one st_size_of forced inst p w = (r, w') →
  kinds_kept w w' ∧
  match r with
  | Ok n => node_at (fs w') p = Some (instance_file inst) ∧
            is_dir_at (fs w') (path_parent p) = true ∧
            n = st_size_of (instance_file inst)
  | Err _ => True
  end.
Proof.
  unfold write_one. unfold bind at 1.
  destruct (ensure_dir _ _ w) as [[b|e] w1] eqn:He;
    apply ensure_dir_spec in He as [Hk1 Hd1]; [|by intros [= <- <-]].
  destruct (Hd1 b eq_refl) as [-> Hpar].
  unfold bind at 1, is_file.
  destruct (negb (is_file_at (fs w1) p) || forced); [|by intros [= <- <-]].
  unfold bind, save_as.
  destruct (write_file p _ w1) as [[u|e] w2] eqn:Hw; apply write_file_spec in Hw.
  - destruct Hw as (_ & Hnd & ->).
    destruct (written_file_kinds p (DcmFile (with_transfer_flags inst)) w1 Hnd) as [Hk2 Hnode].
    unfold stat_st_size. rewrite Hnode. intros [= <- <-].
    split; [by eapply kinds_kept_trans|]. split; [done|]. split; [|done].
    by apply Hk2.
  - subst w2. by intros [= <- <-].
Qed.

(** The loop keeps kinds, and when it comes to its end every instance has
    its file in place and its size on record. *)
Lemma write_loop_spec out forced insts sizes w r w' :
  write_loop out forced insts sizes w = (r, w') →
  kinds_kept w w' ∧
  (∀ sizes', r = Ok sizes' →
     all_written out insts w' ∧
     (∀ k, is_Some (sizes !! k) → is_Some (sizes' !! k)) ∧
     (∀ inst, inst ∈ insts →
        ∃ sop, elements inst !! "SOPInstanceUID" = Some (VStr sop) ∧
               is_Some (sizes' !! sop))).
Proof.
  revert sizes w r w'. induction insts as [|inst rest IH]; intros sizes w r w'.
  - simpl. intros [= <- <-]. split; [apply kinds_kept_refl|].
    intros sizes' [= <-]. split; [|split]; [|done|]; by intros inst ?%elem_of_nil.
  - destruct (instance_target out inst) as [p|] eqn:Hp.
    2:{ destruct (write_loop_no_target out forced inst Hp) as [e ->].
        intros [= <- <-]. split; [apply kinds_kept_refl | discriminate]. }
    pose proof Hp as (series & sop & Hse & Hso & Hpeq)%instance_target_uids.
    rewrite (write_loop_cons _ _ _ _ _ _ _ _ Hp Hso). unfold bind.
    destruct (write_one st_size_of forced inst p w) as [[n|e] w1] eqn:Hone;
      apply write_one_spec in Hone as [Hk1 Hone].
    2:{ intros [= <- <-]. split; [done | discriminate]. }
    destruct Hone as (Hnode & Hpar & _).
    intros Hrest. apply IH in Hrest as [Hk2 Hrest].
    split; [by eapply kinds_kept_trans|].
    intros sizes' ->. destruct (Hrest sizes' eq_refl) as (Hall & Hmono & Hsizes).
    split; [|split].
    + intros i [->|Hi]%elem_of_cons; [|by apply Hall].
      exists p. split; [done|]. split.
      * apply Hk2. unfold is_file_at, instance_file in *. by rewrite Hnode.
      * by apply Hk2.
    + intros k Hk. apply Hmono. destruct (decide (k = sop)) as [->|Hne].
      * by rewrite lookup_insert_eq.
      * by rewrite lookup_insert_ne.
    + intros i [->|Hi]%elem_of_cons; [|by apply Hsizes].
      exists sop. split; [done|]. apply Hmono. by rewrite lookup_insert_eq.
Qed.








(** [mkdir] touches nothing but the path and its ancestors. *)
Lemma mkdir_parents_frame p exist_ok w r w' :
  mkdir_parents p exist_ok w = (r, w') →
  ∀ q : path, (∀ k : path, p ≠ (k ++ q)%list) → node_at (fs w') q = node_at (fs w) q.
Proof.
  revert exist_ok w r w'. induction p as [|c parent IH]; intros exist_ok w r w'.
  - simpl. unfold try_except.
    destruct (os_mkdir [] w) as [[u|e] w1] eqn:Hos; apply os_mkdir_spec in Hos.
    + by destruct Hos as (Hnone & _).
    + destruct e; try done.
      * destruct Hos as (_ & _ & ->). rewrite mkdir_oserror_spec.
        by destruct (exist_ok && _); intros [= <- <-].
      * by destruct Hos as (Hnone & _).
      * by destruct Hos as (Hfile & _).
  - simpl. unfold try_except.
    destruct (os_mkdir (c :: parent) w) as [[u|e] w1] eqn:Hos; apply os_mkdir_spec in Hos.
    + destruct Hos as (Hnone & _ & ->). intros [= <- <-] q Hq. simpl.
      rewrite node_at_insert by done. rewrite decide_False; [done|].
      intros ->. by apply (Hq []).
    + destruct e; try done.
      * destruct Hos as (_ & _ & ->). rewrite mkdir_oserror_spec.
        by destruct (exist_ok && _); intros [= <- <-].
      * destruct Hos as (_ & _ & ->). unfold bind.
        destruct (mkdir_parents parent true w) as [[u|e] w2] eqn:Hrec.
        -- intros Hsingle q Hq. apply mkdir_single_spec in Hsingle.
           rewrite <- (IH _ _ _ _ Hrec q).
           2:{ intros k ->. by apply (Hq (c :: k)). }
           destruct r as [u'|e']; [|by subst].
           destruct Hsingle as (_ & _ & [->|[_ ->]]); [done|]. simpl.
           rewrite node_at_insert by done. rewrite decide_False; [done|].
           intros ->. by apply (Hq []).
        -- intros [= <- <-] q Hq. apply (IH _ _ _ _ Hrec q).
           intros k ->. by apply (Hq (c :: k)).
      * destruct Hos as (_ & ->). rewrite mkdir_oserror_spec.
        by destruct (exist_ok && _); intros [= <- <-].
Qed.

Lemma cons_not_suffix_of_tail {A} (c : A) (l : list A) : ∀ k, l ≠ (k ++ c :: l)%list.
Proof.
  intros k H. apply (f_equal length) in H. rewrite length_app in H. simpl in H. lia.
Qed.

(** [mkdir] goes through when no file is in the way and the directory is
    either allowed to exist or does not exist. *)
Lemma mkdir_parents_ok p exist_ok w :
  (∀ q k : path, p = (k ++ q)%list → is_file_at (fs w) q = false) →
  exist_ok = true ∨ is_dir_at (fs w) p = false →
  ∃ w1, mkdir_parents p exist_ok w = (Ok (), w1).
Proof.
  revert exist_ok w. induction p as [|c parent IH]; intros exist_ok w Hfiles Hok.
  - destruct Hok as [->|Hd]; [|done]. by exists w.
  - assert (Hpfile : is_file_at (fs w) (c :: parent) = false) by (by apply (Hfiles _ [])).
    assert (Hexist : is_dir_at (fs w) (c :: parent) = true → exist_ok = true).
    { intros Hd. destruct Hok as [->|Hnd]; [done | congruence]. }
    simpl. unfold try_except.
    destruct (os_mkdir (c :: parent) w) as [[[]|e] w1] eqn:Hos; [by eauto|].
    apply os_mkdir_spec in Hos. destruct e; try done.
    + destruct Hos as (_ & [n Hn] & ->). rewrite mkdir_oserror_spec.
      assert (Hd : is_dir_at (fs w) (c :: parent) = true).
      { unfold is_dir_at, is_file_at in *. rewrite Hn in *. by destruct n. }
      rewrite Hd, (Hexist Hd). by eauto.
    + destruct Hos as (Hnone & _ & ->). unfold bind.
      destruct (IH true w) as [w1 Hrec]; [|by left|].
      { intros q k ->. by apply (Hfiles q (c :: k)). }
      rewrite Hrec.
      pose proof (mkdir_parents_kept _ _ _ _ _ Hrec) as [_ Hdir].
      specialize (Hdir () eq_refl).
      pose proof (mkdir_parents_frame _ _ _ _ _ Hrec (c :: parent)
                    (cons_not_suffix_of_tail c parent)) as Hsame.
      unfold mkdir_single, try_except, os_mkdir. simpl path_parent.
      unfold is_dir_at in Hdir. destruct (node_at (fs w1) parent) as [[|?]|]; try done.
      rewrite Hsame. destruct (node_at (fs w) (c :: parent)) as [n|] eqn:Hn; [|by eauto].
      rewrite mkdir_oserror_spec.
      assert (Hd : is_dir_at (fs w) (c :: parent) = true).
      { unfold is_dir_at, is_file_at in *. rewrite Hn in *. by destruct n. }
      assert (Hd1 : is_dir_at (fs w1) (c :: parent) = true).
      { unfold is_dir_at in *. rewrite Hsame. by rewrite Hn in Hd. }
      rewrite Hd1, (Hexist Hd). by eauto.
    + destruct Hos as (Hfile & ->). simpl path_parent in Hfile.
      rewrite (proj2 (file_on_path_false _ _)) in Hfile; [done|].
      intros q k ->. by apply (Hfiles q (c :: k)).
Qed.


Lemma ensure_dir_fresh p forced w :
  (∀ q k : path, p = (k ++ q)%list → is_file_at (fs w) q = false) →
  ∃ w1, ensure_dir p forced w = (Ok true, w1) ∧
        is_dir_at (fs w1) p = true ∧
        (∀ q : path, (∀ k : path, p ≠ (k ++ q)%list) → node_at (fs w1) q = node_at (fs w) q).
Proof.
  intros Hfiles. destruct (is_dir_at (fs w) p) eqn:Hd.
  - exists w. by rewrite ensure_dir_existing.
  - destruct (mkdir_parents_ok p forced w Hfiles) as [w1 Hmk]; [by right|].
    pose proof (mkdir_parents_kept _ _ _ _ _ Hmk) as [_ Hdir].
    specialize (Hdir () eq_refl).
    exists w1. unfold ensure_dir, bind, is_dir. rewrite Hd. simpl. rewrite Hmk, Hdir.
    split; [done|]. split; [done|]. by eapply mkdir_parents_frame.
Qed.






(* --------------------------------------------------------------------- *)
(** *** Sorting and merging the table of a batch *)

Lemma existsb_not_tuple zs : existsb (fun k => negb (is_tuple k)) (KTuple <$> zs) = false.
Proof. induction zs as [|z zs IH]; [done|]. simpl. exact IH. Qed.

Lemma sort_frame_by_uid_ok df by_ :
  by_ ∈ columns df →
  Forall (fun r => ∃ s zs, cell r by_ = VStr s ∧ integer_components s = Some zs) (rows df) →
  ∃ df', sort_frame_by_uid df by_ = Ok df'.
Proof.
  intros Hcol Hrows. unfold sort_frame_by_uid, sort_values, column.
  rewrite bool_decide_true by done. simpl.
  assert (Hks : ∃ zs, sort_key ((fun r => cell r by_) <$> rows df) = Ok (KTuple <$> zs)).
  { induction Hrows as [|r rs (s & z & Hs & Hz) _ [zs IH]]; [by exists []|].
    exists (z :: zs). unfold sort_key in *. rewrite fmap_cons. simpl.
    rewrite Hs, (uid_key_integer _ _ Hz). simpl. by rewrite IH. }
  destruct Hks as [zs ->]. simpl. rewrite existsb_not_tuple, andb_false_r. eauto.
Qed.


(** Dropping rows and changing other columns keeps a frame sorted. *)
Lemma omap_rows_sorted (f : gmap string value → option (gmap string value)) by_ rs zs :
  (∀ r r', f r = Some r' → cell r' by_ = cell r by_) →
  sort_key ((fun r => cell r by_) <$> rs) = Ok (KTuple <$> zs) →
  StronglySorted tuple_le zs →
  ∃ zs', sort_key ((fun r => cell r by_) <$> omap f rs) = Ok (KTuple <$> zs') ∧
         StronglySorted tuple_le zs' ∧ (∀ z, z ∈ zs' → z ∈ zs).
Proof.
  intros Hf. unfold sort_key. revert zs. induction rs as [|r rs IH]; intros zs Hks Hs.
  - exists []. split; [done|]. split; [constructor | by intros z ?%elem_of_nil].
  - rewrite fmap_cons in Hks. simpl in Hks.
    destruct (uid_key (cell r by_)) as [k|e] eqn:Hk; simpl in Hks; [|done].
    destruct (rmap uid_key _) as [ks|e] eqn:Hrest; simpl in Hks; [|done].
    destruct zs as [|z zs]; [done|]. rewrite fmap_cons in Hks.
    injection Hks as -> ->. inversion Hs as [|? ? Hs' Hall]; subst.
    destruct (IH zs eq_refl Hs') as (zs' & Hks' & Hsorted' & Hsub).
    change (omap f (r :: rs))
      with (match f r with Some y => y :: omap f rs | None => omap f rs end).
    destruct (f r) as [r'|] eqn:Hfr.
    + exists (z :: zs'). rewrite !fmap_cons.
      change (rmap uid_key (?c :: ?cs))
        with (rbind (uid_key c) (fun y => rbind (rmap uid_key cs) (fun ys => Ok (y :: ys)))).
      rewrite (Hf _ _ Hfr), Hk. simpl. rewrite Hks'. simpl. split; [done|]. split.
      * constructor; [done|]. apply Forall_forall. intros z' Hz'.
        rewrite Forall_forall in Hall. by apply Hall, Hsub.
      * intros z' [->|Hz']%elem_of_cons; [by left | right; by apply Hsub].
    + exists zs'. split; [done|]. split; [done|]. intros z' Hz'. right. by apply Hsub.
Qed.

Lemma join_series_sorted df sizes :
  sorted_by_uid df "SOPInstanceUID" →
  sorted_by_uid (join_series df sizes "FileSize" "SOPInstanceUID") "SOPInstanceUID".
Proof.
  intros (cells & zs & Hcol & Hks & Hsorted). unfold column in Hcol.
  case_bool_decide as Hin; [|done]. injection Hcol as <-.
  edestruct (omap_rows_sorted
               (fun r => match cell r "SOPInstanceUID" with
                         | VStr k => (fun n => <["FileSize" := VInt n]> r) <$> sizes !! k
                         | _ => None
                         end) "SOPInstanceUID" (rows df) zs)
    as (zs' & Hks' & Hsorted' & _); [|exact Hks|exact Hsorted|].
  { intros r r'. destruct (cell r "SOPInstanceUID") as [| s | | |] eqn:Hc; try done.
    destruct (sizes !! s) as [n|]; simpl; [|discriminate].
    intros [= <-]. rewrite <- Hc. unfold cell. by rewrite lookup_insert_ne. }
  eexists _, zs'. split; [|split; [exact Hks' | exact Hsorted']].
  unfold column, join_series. simpl.
  rewrite bool_decide_true; [done|]. apply elem_of_app. by left.
Qed.

(** When every row finds its size, the merge only adds the new column. *)
Lemma join_series_drop (df : frame) (sizes : gmap string Z) name left_on :
  Forall (fun r => (∃ k, cell r left_on = VStr k ∧ is_Some (sizes !! k)) ∧ r !! name = None)
         (rows df) →
  delete name <$> rows (join_series df sizes name left_on) = rows df.
Proof.
  unfold join_series. cbn [rows].
  induction 1 as [|r rs [(k & Hk & [n Hn]) Hnone] _ IH]; [done|].
  match goal with |- context [omap ?f (r :: rs)] =>
    change (omap f (r :: rs))
      with (match f r with Some y => y :: omap f rs | None => omap f rs end)
  end.
  cbv beta. rewrite Hk, Hn. cbn [fmap option_fmap option_map]. rewrite fmap_cons, IH. f_equal.
  rewrite delete_insert_eq. by apply delete_id.
Qed.

(** The merge raises only when both sides are empty. *)
Lemma merge_series_ok df sizes name left_on df' :
  merge_series df sizes name left_on = Ok df' →
  df' = join_series df sizes name left_on ∧ (rows df ≠ [] ∨ sizes ≠ ∅).
Proof.
  unfold merge_series. destruct (rows df) as [|r rs].
  - case_bool_decide as Hs; [discriminate|]. intros [= <-]. split; [done | by right].
  - intros [= <-]. split; [done | by left].
Qed.



(* --------------------------------------------------------------------- *)
(** *** [_write_instances] as a whole *)

Local Abbreviation sorted_table insts :=
  (sort_frame_by_uid (dicoms_to_frame insts (Some INSTANCE_KEYS)) "SOPInstanceUID").

Lemma write_instances_dry self insts out_dir forced sp w :
  _dry_run self = true →
  _write_instances st_size_of self insts out_dir forced sp w = (sorted_table insts, w).
Proof.
  intros Hdry. unfold _write_instances, bind, lift.
  destruct (sort_frame_by_uid _ _); [|done]. by rewrite Hdry.
Qed.

Lemma write_instances_wet self insts out_dir forced sp w :
  _dry_run self = false →
  _write_instances st_size_of self insts out_dir forced sp w =
  bind (lift (sorted_table insts)) (fun df =>
    bind (_ensure_ouput_dir self out_dir forced) (fun out =>
      bind (write_loop out forced insts ∅) (fun file_sizes =>
        lift (merge_series df file_sizes "FileSize" "SOPInstanceUID")))) w.
Proof.
  intros Hwet. unfold _write_instances, bind, lift.
  destruct (sort_frame_by_uid _ _); [|done]. by rewrite Hwet.
Qed.

Lemma ensure_ouput_dir_spec self out_dir forced w r w' :
  _ensure_ouput_dir self out_dir forced w = (r, w') →
  kinds_kept w w' ∧
  (∀ o, r = Ok o → o = default (_default_out_dir self) out_dir ∧ is_dir_at (fs w') o = true).
Proof.
  unfold _ensure_ouput_dir, bind.
  destruct (ensure_dir _ _ w) as [[b|e] w1] eqn:Hens;
    apply ensure_dir_spec in Hens as [Hk Hd].
  - destruct (Hd b eq_refl) as [-> Hdir]. simpl. intros [= <- <-].
    split; [done|]. by intros o [= <-].
  - intros [= <- <-]. split; [done | discriminate].
Qed.

Lemma ensure_ouput_dir_existing self out_dir forced w :
  is_dir_at (fs w) (default (_default_out_dir self) out_dir) = true →
  _ensure_ouput_dir self out_dir forced w = (Ok (default (_default_out_dir self) out_dir), w).
Proof. intros Hd. unfold _ensure_ouput_dir, bind. by rewrite ensure_dir_existing. Qed.

(** A run that wrote the batch: the table sorted, the directory made, the
    loop run to its end, the sizes merged in. *)
Lemma write_instances_wet_ok self insts out_dir forced sp w df' w' :
  _dry_run self = false →
  _write_instances st_size_of self insts out_dir forced sp w = (Ok df', w') →
  let out := default (_default_out_dir self) out_dir in
  ∃ df w1 file_sizes,
    sorted_table insts = Ok df ∧
    _ensure_ouput_dir self out_dir forced w = (Ok out, w1) ∧
    write_loop out forced insts ∅ w1 = (Ok file_sizes, w') ∧
    df' = join_series df file_sizes "FileSize" "SOPInstanceUID".
Proof.
  intros Hwet. rewrite write_instances_wet by done. intros Hrun out.
  apply bind_ok in Hrun as (df & w0 & [Hsort ->]%lift_ok & Hrun).
  apply bind_ok in Hrun as (o & w1 & Hens & Hrun).
  apply bind_ok in Hrun as (file_sizes & w2 & Hloop & [Hmerge ->]%lift_ok).
  apply merge_series_ok in Hmerge as [-> _].
  pose proof (ensure_ouput_dir_spec _ _ _ _ _ _ Hens) as [_ Ho].
  destruct (Ho o eq_refl) as [-> _]. by exists df, w1, file_sizes.
Qed.


(** C9, as the code has it.  An output directory that is already there
    is no error, with or without [forced]: the directory check answers at
    once and changes nothing, and the writer goes on to the objects. *)
Theorem existing_output_dir_is_no_error self out_dir forced (w : world) :
  let out := default (_default_out_dir self) out_dir in
  is_dir_at (fs w) out = true →
  ensure_dir out forced w = (Ok true, w) ∧
  _ensure_ouput_dir self out_dir forced w = (Ok out, w) ∧
  (∀ insts sp, _dry_run self = false →
     _write_instances st_size_of self insts out_dir forced sp w =
     bind (lift (sorted_table insts)) (fun df =>
       bind (write_loop out forced insts ∅) (fun file_sizes =>
         lift (merge_series df file_sizes "FileSize" "SOPInstanceUID"))) w).
Proof.
  intros out Hdir. split; [by apply ensure_dir_existing|].
  split; [by apply ensure_ouput_dir_existing|].
  intros insts sp Hwet. rewrite write_instances_wet by done.
  unfold bind at 1 2 4. unfold lift. destruct (sorted_table insts) as [df|e]; [|done].
  by rewrite ensure_ouput_dir_existing.
Qed.

Lemma FileSize_not_instance_key : "FileSize" ∉ INSTANCE_KEYS.
Proof.
  unfold INSTANCE_KEYS. intros H.
  repeat (apply elem_of_cons in H as [H|H]; [discriminate H|]).
  by apply elem_of_nil in H.
Qed.

Lemma sorted_table_rows insts df :
  sorted_table insts = Ok df →
  columns df = INSTANCE_KEYS ∧ rows df ≡ₚ record_row INSTANCE_KEYS <$> insts.
Proof.
  intros (Hcols & Hrows & _)%sort_frame_by_uid_sorted.
  rewrite dicoms_to_frame_columns in Hcols. by rewrite dicoms_to_frame_rows in Hrows.
Qed.

(** C7.  In dry-run mode [_write_instances] leaves the world as it is
    and returns the sorted table of the batch (or the exception of the
    sort); that table has the instance keys as columns and no [FileSize],
    and one row per instance.  It is the table a writing run returns, less
    the [FileSize] column: same rows, same order, same cells in every other
    column.  [_write_table] does nothing in dry-run mode. *)
Theorem dry_run_writes_nothing self insts out_dir forced sp (w : world) :
  _dry_run self = true →
  _write_instances st_size_of self insts out_dir forced sp w = (sorted_table insts, w) ∧
  (∀ df, sorted_table insts = Ok df →
     columns df = INSTANCE_KEYS ∧ ("FileSize" ∉ columns df) ∧
     rows df ≡ₚ record_row INSTANCE_KEYS <$> insts) ∧
  (∀ self' out_dir' forced' sp' w0 df' w',
     _dry_run self' = false →
     _write_instances st_size_of self' insts out_dir' forced' sp' w0 = (Ok df', w') →
     ∃ df, sorted_table insts = Ok df ∧
           columns df' = (columns df ++ ["FileSize"])%list ∧
           rows df = delete "FileSize" <$> rows df' ∧
           (∀ col, col ≠ "FileSize" →
              (fun r => cell r col) <$> rows df = (fun r => cell r col) <$> rows df')) ∧
  (∀ df label out_dir', _write_table self df out_dir' label w = (Ok (), w)).
Proof.
  intros Hdry. split; [by apply write_instances_dry|]. split; [|split].
  - intros df Hdf. destruct (sorted_table_rows _ _ Hdf) as [Hcols Hrows].
    split; [done|]. split; [|done]. rewrite Hcols. apply FileSize_not_instance_key.
  - intros self' out_dir' forced' sp' w0 df' w' Hwet Hrun.
    apply write_instances_wet_ok in Hrun as (df & w1 & sizes & Hdf & _ & Hloop & ->); [|done].
    exists df. split; [done|]. split; [done|].
    destruct (sorted_table_rows _ _ Hdf) as [_ Hrows].
    apply write_loop_spec in Hloop as [_ Hloop].
    destruct (Hloop sizes eq_refl) as (_ & _ & Hsizes).
    assert (Hdrop : delete "FileSize" <$>
                      rows (join_series df sizes "FileSize" "SOPInstanceUID") = rows df).
    { apply join_series_drop. rewrite Hrows. apply Forall_fmap, Forall_forall.
      intros inst Hinst. destruct (Hsizes inst Hinst) as (sop & Hsop & Hsize). simpl. split.
      - exists sop. split; [|done].
        rewrite cell_record_row by key_listed. unfold ds_get. by rewrite Hsop.
      - rewrite record_row_lookup.
        rewrite bool_decide_false; [done | apply FileSize_not_instance_key]. }
    split; [done|]. intros col Hcol. rewrite <- Hdrop, <- list_fmap_compose.
    apply list_fmap_ext. intros i r _. simpl. unfold cell. by rewrite lookup_delete_ne.
  - intros df label out_dir'. unfold _write_table. by rewrite Hdry.
Qed.





(* --------------------------------------------------------------------- *)
(** *** Every table handed back is sorted *)

Context (print_list : list value → string → result unit).
Context (print_table_summary : frame → result unit).

Lemma sort_step_sorted df by_ (w : world) df' w' :
  lift (sort_frame_by_uid df by_) w = (Ok df', w') → sorted_by_uid df' by_.
Proof. intros [Hsort _]%lift_ok. by apply sort_frame_by_uid_sorted in Hsort as (_ & _ & ?). Qed.

Lemma write_instances_sorted self insts out_dir forced sp (w : world) df w' :
  _write_instances st_size_of self insts out_dir forced sp w = (Ok df, w') →
  sorted_by_uid df "SOPInstanceUID".
Proof.
  destruct (_dry_run self) eqn:Hdry.
  - rewrite write_instances_dry by done. intros [= Hsort _].
    by apply sort_frame_by_uid_sorted in Hsort as (_ & _ & ?).
  - intros Hrun.
    apply write_instances_wet_ok in Hrun as (df0 & w1 & sizes & Hdf & _ & _ & ->); [|done].
    apply join_series_sorted.
    by apply sort_frame_by_uid_sorted in Hdf as (_ & _ & ?).
Qed.

Lemma query_studies_sorted self sf fuzzy limit offset (w : world) df w' :
  _query_studies self sf fuzzy limit offset w = (Ok df, w') →
  sorted_by_uid df "StudyInstanceUID".
Proof.
  unfold _query_studies. intros Hrun. run_inv Hrun. by eapply sort_step_sorted.
Qed.

Lemma query_series_sorted self sf fuzzy limit offset (w : world) df w' :
  _query_series self sf fuzzy limit offset w = (Ok df, w') →
  sorted_by_uid df "SeriesInstanceUID".
Proof.
  unfold _query_series. intros Hrun. run_inv Hrun. by eapply sort_step_sorted.
Qed.

Lemma list_studies_sorted self sf fuzzy limit offset out_dir (w : world) df w' :
  list_studies print_list print_table_summary self sf fuzzy limit offset out_dir w = (Ok df, w') →
  sorted_by_uid df "StudyInstanceUID".
Proof.
  unfold list_studies. intros Hrun. run_inv Hrun. apply ret_ok in Hrun as [-> _].
  by eapply query_studies_sorted.
Qed.

Lemma list_series_sorted self sf fuzzy limit offset out_dir (w : world) df w' :
  list_series print_list print_table_summary self sf fuzzy limit offset out_dir w = (Ok df, w') →
  sorted_by_uid df "SeriesInstanceUID".
Proof.
  unfold list_series. intros Hrun. run_inv Hrun. apply ret_ok in Hrun as [-> _].
  by eapply query_series_sorted.
Qed.

Lemma download_series_sorted self study_uid series_uid meta_only out_dir forced (w : world) df w' :
  download_series st_size_of print_list print_table_summary self study_uid series_uid
    meta_only out_dir forced w = (Ok df, w') →
  sorted_by_uid df "SOPInstanceUID".
Proof.
  unfold download_series. intros Hrun. run_inv Hrun. apply ret_ok in Hrun as [-> _].
  by eapply write_instances_sorted.
Qed.

Lemma download_study_sorted self study_uid meta_only out_dir forced (w : world) df w' :
  download_study st_size_of print_list print_table_summary self study_uid
    meta_only out_dir forced w = (Ok df, w') →
  sorted_by_uid df "SOPInstanceUID".
Proof.
  unfold download_study. intros Hrun. run_inv Hrun. apply ret_ok in Hrun as [-> _].
  by eapply write_instances_sorted.
Qed.

Lemma search_and_download_studies_sorted self sf meta_only fuzzy limit offset out_dir forced
    (w : world) df w' :
  search_and_download_studies st_size_of print_list print_table_summary self sf meta_only
    fuzzy limit offset out_dir forced w = (Ok (Some df), w') →
  sorted_by_uid df "SOPInstanceUID".
Proof.
  unfold search_and_download_studies. intros Hrun.
  apply bind_ok in Hrun as (found & w1 & _ & Hrun).
  destruct (frame_len found =? 0)%nat; [by apply ret_ok in Hrun as [[=] _]|].
  run_inv Hrun. apply ret_ok in Hrun as [[= ->] _]. by eapply sort_step_sorted.
Qed.

Lemma search_and_download_series_sorted self sf meta_only fuzzy limit offset out_dir forced
    (w : world) df w' :
  search_and_download_series st_size_of print_list print_table_summary self sf meta_only
    fuzzy limit offset out_dir forced w = (Ok (Some df), w') →
  sorted_by_uid df "SOPInstanceUID".
Proof.
  unfold search_and_download_series. intros Hrun.
  apply bind_ok in Hrun as (found & w1 & _ & Hrun).
  destruct (frame_len found =? 0)%nat; [by apply ret_ok in Hrun as [[=] _]|].
  run_inv Hrun. apply ret_ok in Hrun as [[= ->] _]. by eapply sort_step_sorted.
Qed.

(** C1.  For identifiers whose components all read as integers, the key
    is the tuple of those integers, and one key sorts before another exactly
    when its tuple is lexicographically smaller; so 1.2.3 sorts before
    1.2.10, and that before 1.10.1.  A frame whose identifiers are all of
    that kind is sorted by [sort_frame_by_uid] into a frame with the same
    rows, ascending by key.  Every table a search or download operation
    returns is sorted by this key: by study UID from
    [list_studies], by series UID from [list_series], by SOP instance UID
    from the four download operations. *)
Theorem tables_sorted_by_integer_tuple :
  (∀ A B a b,
     integer_components A = Some a → integer_components B = Some b →
     uid_key (VStr A) = Ok (KTuple a) ∧ uid_key (VStr B) = Ok (KTuple b) ∧
     (key_lt (KTuple a) (KTuple b) = true ↔ lex_lt a b)) ∧
  (∃ k1 k2 k3,
     uid_key (VStr "1.2.3") = Ok k1 ∧ uid_key (VStr "1.2.10") = Ok k2 ∧
     uid_key (VStr "1.10.1") = Ok k3 ∧ key_lt k1 k2 = true ∧ key_lt k2 k3 = true ∧
     key_lt k2 k1 = false ∧ key_lt k3 k2 = false) ∧
  (∀ df by_ df', sort_frame_by_uid df by_ = Ok df' → sorted_by_uid df' by_) ∧
  (∀ df by_,
     by_ ∈ columns df →
     Forall (fun r => ∃ s zs, cell r by_ = VStr s ∧ integer_components s = Some zs) (rows df) →
     ∃ df', sort_frame_by_uid df by_ = Ok df' ∧ rows df' ≡ₚ rows df ∧ sorted_by_uid df' by_) ∧
  (∀ self sf fuzzy limit offset out_dir (w : world) df w',
     list_studies print_list print_table_summary self sf fuzzy limit offset out_dir w
       = (Ok df, w') →
     sorted_by_uid df "StudyInstanceUID") ∧
  (∀ self sf fuzzy limit offset out_dir (w : world) df w',
     list_series print_list print_table_summary self sf fuzzy limit offset out_dir w
       = (Ok df, w') →
     sorted_by_uid df "SeriesInstanceUID") ∧
  (∀ self study_uid series_uid meta_only out_dir forced (w : world) df w',
     download_series st_size_of print_list print_table_summary self study_uid series_uid
       meta_only out_dir forced w = (Ok df, w') →
     sorted_by_uid df "SOPInstanceUID") ∧
  (∀ self study_uid meta_only out_dir forced (w : world) df w',
     download_study st_size_of print_list print_table_summary self study_uid
       meta_only out_dir forced w = (Ok df, w') →
     sorted_by_uid df "SOPInstanceUID") ∧
  (∀ self sf meta_only fuzzy limit offset out_dir forced (w : world) df w',
     search_and_download_studies st_size_of print_list print_table_summary self sf meta_only
       fuzzy limit offset out_dir forced w = (Ok (Some df), w') →
     sorted_by_uid df "SOPInstanceUID") ∧
  (∀ self sf meta_only fuzzy limit offset out_dir forced (w : world) df w',
     search_and_download_series st_size_of print_list print_table_summary self sf meta_only
       fuzzy limit offset out_dir forced w = (Ok (Some df), w') →
     sorted_by_uid df "SOPInstanceUID").
Proof.
  split.
  { intros A B a b HA HB. split; [by apply uid_key_integer|].
    split; [by apply uid_key_integer|]. apply tuple_lt_lex. }
  split.
  { exists (KTuple [1; 2; 3]%Z), (KTuple [1; 2; 10]%Z), (KTuple [1; 10; 1]%Z).
    repeat split. }
  split.
  { intros df by_ df' Hsort. by apply sort_frame_by_uid_sorted in Hsort as (_ & _ & ?). }
  split.
  { intros df by_ Hcol Hrows. destruct (sort_frame_by_uid_ok df by_ Hcol Hrows) as [df' Hsort].
    exists df'. split; [done|].
    by apply sort_frame_by_uid_sorted in Hsort as (_ & ? & ?). }
  split; [intros; by eapply list_studies_sorted|].
  split; [intros; by eapply list_series_sorted|].
  split; [intros; by eapply download_series_sorted|].
  split; [intros; by eapply download_study_sorted|].
  split; [intros; by eapply search_and_download_studies_sorted|].
  intros; by eapply search_and_download_series_sorted.
Qed.

End Writer.

(* ===================================================================== *)
(** ** The properties at work on the example repository *)
(* ===================================================================== *)

Lemma tables_sorted_by_integer_tuple_witness :
  (key_lt (KTuple [1; 2; 3]%Z) (KTuple [1; 2; 10]%Z) = true ↔
   lex_lt [1; 2; 3]%Z [1; 2; 10]%Z) ∧
  match list_studies quiet_list quiet_summary (example_client example_repository false)
          None true None None None example_world with
  | (Ok df, _) => sorted_by_uid df "StudyInstanceUID"
  | (Err _, _) => False
  end ∧
  match search_and_download_series example_size quiet_list quiet_summary
          (example_client example_repository false) None false true None None None false
          example_world with
  | (Ok (Some df), _) => sorted_by_uid df "SOPInstanceUID"
  | _ => False
  end.
Proof.
  destruct (tables_sorted_by_integer_tuple example_size quiet_list quiet_summary)
    as (Hkey & _ & _ & _ & Hstudies & _ & _ & _ & _ & Hseries).
  split; [|split].
  - apply (Hkey "1.2.3" "1.2.10"); reflexivity.
  - assert (Hok : returned (list_studies quiet_list quiet_summary
                              (example_client example_repository false)
                              None true None None None example_world) = true)
      by (vm_compute; reflexivity).
    destruct (list_studies _ _ _ _ _ _ _ _ _) as [[df|e] w'] eqn:Hrun; [|discriminate Hok].
    eapply Hstudies. exact Hrun.
  - assert (Hok : returned_table (search_and_download_series example_size quiet_list
                                    quiet_summary (example_client example_repository false)
                                    None false true None None None false example_world) = true)
      by (vm_compute; reflexivity).
    destruct (search_and_download_series _ _ _ _ _ _ _ _ _ _ _ _) as [[[df|]|e] w'] eqn:Hrun;
      [|discriminate Hok|discriminate Hok].
    eapply Hseries. exact Hrun.
Defined.

Lemma query_series_no_studies_raises_witness :
  _query_series (example_client empty_repository false) None true None None example_world =
    (Err (ValueError "No objects to concatenate"),
     sent example_world (SearchForStudies None true None None STUDY_KEYS)).
Proof.
  exact (proj1 (query_series_no_studies_raises
                  (example_client empty_repository false) None true None None
                  example_world eq_refl)).
Defined.

Lemma query_series_fan_out_witness :
  match _query_series (example_client example_repository false) None true (Some 5) None
          example_world with
  | (Ok _, w') =>
      ∃ uids,
        requests w' =
          SearchForStudies None true (Some 5) None STUDY_KEYS ::
          ((fun uid => SearchForSeries uid None true None None SERIES_KEYS) <$> uids) ∧
        length uids = 2
  | (Err _, _) => False
  end.
Proof.
  assert (Hret : returned (_query_series (example_client example_repository false)
                             None true (Some 5) None example_world) = true)
    by (vm_compute; reflexivity).
  destruct (_query_series _ _ _ _ _ _) as [[df|e] w'] eqn:Hrun; [|discriminate Hret].
  destruct (query_series_fan_out (example_client example_repository false)
              None true (Some 5) None example_world (Ok df) w' _ eq_refl Hrun)
    as (uids & Hreq & Hok).
  exists uids. split; [exact Hreq|]. by destruct (Hok df eq_refl) as [_ ->].
Defined.

Lemma existing_output_dir_is_no_error_witness :
  _ensure_ouput_dir (example_client example_repository false) None false
    example_world_with_dir = (Ok ["downloads"], example_world_with_dir).
Proof.
  exact (proj1 (proj2 (existing_output_dir_is_no_error example_size
                         (example_client example_repository false) None false
                         example_world_with_dir eq_refl))).
Defined.

(** C9, as the claim has it, fails: with [downloads] in place and
    [forced] false the writer raises nothing and writes both objects. *)
Lemma existing_output_dir_counterexample :
  is_dir_at (fs example_world_with_dir) ["downloads"] = true ∧
  match _write_instances example_size (example_client example_repository false)
          example_batch None false false example_world_with_dir with
  | (Ok _, w') =>
      is_file_at (fs w') ["1.2.1.10.dcm"; "1.2.1"; "downloads"] = true ∧
      is_file_at (fs w') ["1.2.1.3.dcm"; "1.2.1"; "downloads"] = true
  | (Err _, _) => False
  end.
Proof. split; [reflexivity|]. vm_compute. split; reflexivity. Qed.

(** C5, as the claim has it, fails for a request that names no field: two
    records give a table without rows. *)
Lemma dicoms_to_frame_no_fields_counterexample :
  length [mkDataset {["A" := VStr "x"]} None None; mkDataset {["A" := VStr "x"]} None None]
    = 2%nat ∧
  columns (dicoms_to_frame [mkDataset {["A" := VStr "x"]} None None;
                            mkDataset {["A" := VStr "x"]} None None] (Some [])) = [] ∧
  rows (dicoms_to_frame [mkDataset {["A" := VStr "x"]} None None;
                         mkDataset {["A" := VStr "x"]} None None] (Some [])) = [] ∧
  frame_len (dicoms_to_frame [mkDataset {["A" := VStr "x"]} None None;
                              mkDataset {["A" := VStr "x"]} None None] (Some [])) = 0%nat.
Proof. repeat split; vm_compute; reflexivity. Qed.


Lemma dry_run_writes_nothing_witness :
  _write_instances example_size (example_client example_repository true)
    example_batch None false false example_world =
    (sort_frame_by_uid (dicoms_to_frame example_batch (Some INSTANCE_KEYS)) "SOPInstanceUID",
     example_world) ∧
  match _write_instances example_size (example_client example_repository false)
          example_batch None false false example_world with
  | (Ok df', _) =>
      ∃ df, sort_frame_by_uid (dicoms_to_frame example_batch (Some INSTANCE_KEYS))
              "SOPInstanceUID" = Ok df ∧
            rows df = delete "FileSize" <$> rows df'
  | (Err _, _) => False
  end.
Proof.
  destruct (dry_run_writes_nothing example_size (example_client example_repository true)
              example_batch None false false example_world eq_refl)
    as (Hdry & _ & Hsame & _).
  split; [exact Hdry|].
  assert (Hret : returned (_write_instances example_size
                             (example_client example_repository false)
                             example_batch None false false example_world) = true)
    by (vm_compute; reflexivity).
  destruct (_write_instances _ (example_client example_repository false) _ _ _ _ _)
    as [[df'|e] w'] eqn:Hrun; [|discriminate Hret].
  destruct (Hsame (example_client example_repository false) None false false
              example_world df' w' eq_refl Hrun) as (df & Hdf & _ & Hrows & _).
  by exists df.
Defined.


(* ===================================================================== *)
(** ** What the operations leave alone *)
(* ===================================================================== *)

Section Relates.
Context (R : world → world → Prop) `{!PreOrder R}.

Lemma relates_ret {A} (a : A) : relates R (ret a).
Proof. intros w r w' [= _ <-]. reflexivity. Qed.

Lemma relates_raise {A} e : relates R (@raise A e).
Proof. intros w r w' [= _ <-]. reflexivity. Qed.

Lemma relates_lift {A} (x : result A) : relates R (lift x).
Proof. intros w r w' [= _ <-]. reflexivity. Qed.

Lemma relates_bind {A B} (m : M A) (k : A → M B) :
  relates R m → (∀ a, relates R (k a)) → relates R (bind m k).
Proof.
  intros Hm Hk w r w'. unfold bind.
  destruct (m w) as [[a|e] w1] eqn:Hrun; specialize (Hm _ _ _ Hrun).
  - intros Hrest. etransitivity; [exact Hm|]. by eapply Hk.
  - by intros [= _ <-].
Qed.

Lemma relates_try_except {A} (m : M A) (handler : exn → M A) :
  relates R m → (∀ e, relates R (handler e)) → relates R (try_except m handler).
Proof.
  intros Hm Hh w r w'. unfold try_except.
  destruct (m w) as [[a|e] w1] eqn:Hrun; specialize (Hm _ _ _ Hrun).
  - by intros [= _ <-].
  - intros Hrest. etransitivity; [exact Hm|]. by eapply Hh.
Qed.

Lemma relates_mmap {A B} (f : A → M B) (xs : list A) :
  (∀ x, relates R (f x)) → relates R (mmap f xs).
Proof.
  intros Hf. induction xs as [|x xs IH]; simpl.
  - apply relates_ret.
  - apply relates_bind; [apply Hf|]. intros y.
    apply relates_bind; [apply IH|]. intros ys. apply relates_ret.
Qed.

(** A step that only reads the world. *)
Lemma relates_read {A} (f : world → result A) : relates R (fun w => (f w, w)).
Proof. intros w r w' [= _ <-]. reflexivity. Qed.

End Relates.

Global Instance same_fs_preorder : PreOrder same_fs.
Proof. split; [by intros w | intros w1 w2 w3; unfold same_fs; congruence]. Qed.

Global Instance only_files_differ_preorder : PreOrder only_files_differ.
Proof.
  split; [by intros w|].
  intros w1 w2 w3 [H1 H1'] [H2 H2']. split; congruence.
Qed.

Global Instance sent_only_preorder P : PreOrder (sent_only P).
Proof.
  split.
  - intros w. exists []. by rewrite app_nil_r.
  - intros w1 w2 w3 (a1 & H1 & Hall1) (a2 & H2 & Hall2). exists (a1 ++ a2)%list.
    split; [by rewrite H2, H1, app_assoc | by apply Forall_app].
Qed.

Lemma only_files_differ_sent_only P w w' : only_files_differ w w' → sent_only P w w'.
Proof. intros [H _]. exists []. by rewrite app_nil_r. Qed.

Lemma relates_impl {A} (R R' : world → world → Prop) (m : M A) :
  (∀ w w', R w w' → R' w w') → relates R m → relates R' m.
Proof. intros HR Hm w r w' Hrun. by eapply HR, Hm. Qed.

(** One step into a goal [relates R m], by the shape of [m]. *)
Ltac relates_step :=
  cbv beta zeta;
  lazymatch goal with
  | |- relates _ (ret _) => apply relates_ret; apply _
  | |- relates _ (raise _) => apply relates_raise; apply _
  | |- relates _ (lift _) => apply relates_lift; apply _
  | |- relates _ (bind _ _) => apply relates_bind; [apply _ | | intros ?]
  | |- relates _ (mmap _ _) => apply relates_mmap; [apply _ | intros ?]
  end.

(* --------------------------------------------------------------------- *)
(** *** Requests change no file, file operations send nothing *)

Global Instance only_log_differs_preorder : PreOrder only_log_differs.
Proof.
  split; [by intros w|].
  intros w1 w2 w3 [H1 H1'] [H2 H2']. split; congruence.
Qed.

Lemma call_only_log {A} (answer : result A) (r : request) :
  relates only_log_differs (fun w => (answer, sent w r)).
Proof. by intros w x w' [= _ <-]. Qed.

Lemma call_same_fs {A} (answer : result A) (r : request) :
  relates same_fs (fun w => (answer, sent w r)).
Proof. by intros w x w' [= _ <-]. Qed.

Lemma call_sent_only {A} P (answer : result A) (r : request) :
  P r → relates (sent_only P) (fun w => (answer, sent w r)).
Proof. intros HP w x w' [= _ <-]. exists [r]. split; [done | by constructor]. Qed.

Lemma set_fs_only_files_differ w files : only_files_differ w (set_fs w files).
Proof. done. Qed.

Lemma os_mkdir_requests p : relates only_files_differ (os_mkdir p).
Proof.
  intros w r w' Hrun. apply os_mkdir_spec in Hrun.
  destruct r as [u|[]]; try done; by destruct Hrun as (? & ? & ->) || by destruct Hrun as (? & ->).
Qed.

Lemma mkdir_oserror_requests p exist_ok e : relates only_files_differ (mkdir_oserror p exist_ok e).
Proof.
  intros w r w'. rewrite mkdir_oserror_spec. by destruct (_ && _); intros [= _ <-].
Qed.

Lemma mkdir_single_requests p exist_ok : relates only_files_differ (mkdir_single p exist_ok).
Proof.
  apply relates_try_except; [apply _ | apply os_mkdir_requests|].
  intros e. destruct e; try apply mkdir_oserror_requests. apply relates_raise, _.
Qed.

Lemma mkdir_parents_requests p exist_ok : relates only_files_differ (mkdir_parents p exist_ok).
Proof.
  revert exist_ok. induction p as [|c parent IH]; intros exist_ok; simpl.
  - apply relates_try_except; [apply _ | apply os_mkdir_requests|].
    intros e. destruct e; try apply mkdir_oserror_requests. apply relates_raise, _.
  - apply relates_try_except; [apply _ | apply os_mkdir_requests|].
    intros e. destruct e; try apply mkdir_oserror_requests.
    apply relates_bind; [apply _ | apply IH|]. intros _. apply mkdir_single_requests.
Qed.

Lemma ensure_dir_requests p forced : relates only_files_differ (ensure_dir p forced).
Proof.
  unfold ensure_dir, is_dir. apply relates_bind; [apply _ | apply relates_read, _|].
  intros d. apply relates_bind; [apply _ | | intros _; apply relates_read, _].
  destruct (negb d); [apply mkdir_parents_requests | apply relates_ret, _].
Qed.

Lemma write_file_requests p c : relates only_files_differ (write_file p c).
Proof.
  intros w r w' Hrun. apply write_file_spec in Hrun.
  destruct r; [by destruct Hrun as (_ & _ & ->) | by subst].
Qed.

Lemma ensure_ouput_dir_requests self out_dir forced :
  relates only_files_differ (_ensure_ouput_dir self out_dir forced).
Proof.
  unfold _ensure_ouput_dir. apply relates_bind; [apply _ | apply ensure_dir_requests|].
  intros ok. destruct (negb ok); [apply relates_raise, _ | apply relates_ret, _].
Qed.

Lemma write_table_requests self df out_dir label :
  relates only_files_differ (_write_table self df out_dir label).
Proof.
  unfold _write_table. destruct (_dry_run self); [apply relates_ret, _|].
  apply relates_bind; [apply _ | apply ensure_ouput_dir_requests|]. intros out.
  apply relates_bind; [apply _ | apply relates_read, _|]. intros stamp.
  apply write_file_requests.
Qed.

Lemma write_instances_loop_requests st_size_of out forced insts sizes :
  relates only_files_differ (_write_instances_loop st_size_of out forced insts sizes).
Proof.
  revert sizes. induction insts as [|inst rest IH]; intros sizes; simpl.
  - apply relates_ret, _.
  - apply relates_bind; [apply _ | apply relates_lift, _|]. intros series_uid.
    apply relates_bind; [apply _ | apply relates_lift, _|]. intros p.
    apply relates_bind; [apply _ | apply relates_lift, _|]. intros sop.
    apply relates_bind; [apply _ | apply relates_lift, _|]. intros sop_uid.
    apply relates_bind; [apply _ | apply ensure_dir_requests|]. intros _.
    apply relates_bind; [apply _ | apply relates_read, _|]. intros present.
    apply relates_bind; [apply _ | | intros bytes; apply IH].
    destruct (negb present || forced); [|apply relates_raise, _].
    apply relates_bind; [apply _ | apply write_file_requests|]. intros _.
    unfold stat_st_size. intros w r w'. by destruct (node_at _ _); intros [= _ <-].
Qed.

Lemma write_instances_requests st_size_of self insts out_dir forced sp :
  relates only_files_differ (_write_instances st_size_of self insts out_dir forced sp).
Proof.
  unfold _write_instances. apply relates_bind; [apply _ | apply relates_lift, _|]. intros df.
  destruct (_dry_run self); [apply relates_ret, _|].
  apply relates_bind; [apply _ | apply ensure_ouput_dir_requests|]. intros out.
  apply relates_bind; [apply _ | apply write_instances_loop_requests|]. intros sizes.
  apply relates_lift, _.
Qed.

Lemma sent_exactly_bind {A B} added (m : M A) (k : A → M B) :
  relates (sent_exactly added) m → (∀ a, relates only_files_differ (k a)) →
  relates (sent_exactly added) (bind m k).
Proof.
  intros Hm Hk w r w'. unfold bind.
  destruct (m w) as [[a|e] w1] eqn:Hrun; specialize (Hm _ _ _ Hrun).
  - intros Hrest. apply Hk in Hrest as [Hrest _]. unfold sent_exactly in *. congruence.
  - by intros [= _ <-].
Qed.

Lemma call_sent_exactly {A} (answer : result A) (r : request) :
  relates (sent_exactly [r]) (fun w => (answer, sent w r)).
Proof. by intros w x w' [= _ <-]. Qed.

(* --------------------------------------------------------------------- *)
(** *** The queries and retrievals *)

Section Footprint.
Context (st_size_of : node → Z).
Context (print_list : list value → string → result unit).
Context (print_table_summary : frame → result unit).

Lemma query_studies_log self sf fuzzy limit offset :
  relates only_log_differs (_query_studies self sf fuzzy limit offset).
Proof.
  unfold _query_studies. apply relates_bind; [apply _ | apply call_only_log|].
  intros studies. apply relates_lift, _.
Qed.

Lemma query_series_for_study_log self uid sf fuzzy limit offset :
  relates only_log_differs (_query_series_for_study self uid sf fuzzy limit offset).
Proof.
  unfold _query_series_for_study. apply relates_bind; [apply _ | apply call_only_log|].
  intros series. apply relates_lift, _.
Qed.

Lemma query_series_log self sf fuzzy limit offset :
  relates only_log_differs (_query_series self sf fuzzy limit offset).
Proof.
  unfold _query_series. apply relates_bind; [apply _ | apply query_studies_log|].
  intros studies. do 2 relates_step.
  - relates_step. apply query_series_for_study_log.
  - repeat relates_step.
Qed.

Lemma query_studies_same_fs self sf fuzzy limit offset :
  relates same_fs (_query_studies self sf fuzzy limit offset).
Proof. eapply relates_impl; [|apply query_studies_log]. by intros w w' [? _]. Qed.

Lemma query_series_same_fs self sf fuzzy limit offset :
  relates same_fs (_query_series self sf fuzzy limit offset).
Proof. eapply relates_impl; [|apply query_series_log]. by intros w w' [? _]. Qed.

Lemma retrieve_single_study_same_fs self uid meta_only :
  relates same_fs (_retrieve_single_study self uid meta_only).
Proof.
  unfold _retrieve_single_study. destruct meta_only; [|apply call_same_fs].
  apply relates_bind; [apply _ | apply call_same_fs|]. intros. apply relates_ret, _.
Qed.

Lemma retrieve_single_series_same_fs self study_uid series_uid meta_only :
  relates same_fs (_retrieve_single_series self study_uid series_uid meta_only).
Proof.
  unfold _retrieve_single_series. destruct meta_only; [|apply call_same_fs].
  apply relates_bind; [apply _ | apply call_same_fs|]. intros. apply relates_ret, _.
Qed.

Lemma write_table_dry_same_fs self df out_dir label :
  _dry_run self = true → relates same_fs (_write_table self df out_dir label).
Proof. intros Hdry. unfold _write_table. rewrite Hdry. apply relates_ret, _. Qed.

Lemma write_instances_dry_same_fs self insts out_dir forced sp :
  _dry_run self = true →
  relates same_fs (_write_instances st_size_of self insts out_dir forced sp).
Proof.
  intros Hdry. unfold _write_instances. rewrite Hdry. repeat relates_step.
Qed.

Lemma dry_run_same_fs (self : KheopsClient) :
  _dry_run self = true →
  (∀ sf fuzzy limit offset out_dir,
     relates same_fs (list_studies print_list print_table_summary self sf fuzzy
                        limit offset out_dir)) ∧
  (∀ sf fuzzy limit offset out_dir,
     relates same_fs (list_series print_list print_table_summary self sf fuzzy
                        limit offset out_dir)) ∧
  (∀ study_uid series_uid meta_only out_dir forced,
     relates same_fs (download_series st_size_of print_list print_table_summary self
                        study_uid series_uid meta_only out_dir forced)) ∧
  (∀ study_uid meta_only out_dir forced,
     relates same_fs (download_study st_size_of print_list print_table_summary self
                        study_uid meta_only out_dir forced)) ∧
  (∀ sf meta_only fuzzy limit offset out_dir forced,
     relates same_fs (search_and_download_studies st_size_of print_list
                        print_table_summary self sf meta_only fuzzy limit offset
                        out_dir forced)) ∧
  (∀ sf meta_only fuzzy limit offset out_dir forced,
     relates same_fs (search_and_download_series st_size_of print_list
                        print_table_summary self sf meta_only fuzzy limit offset
                        out_dir forced)).
Proof.
  intros Hdry.
  assert (Htable := fun df out_dir label => write_table_dry_same_fs self df out_dir label Hdry).
  assert (Hinst := fun insts out_dir forced sp =>
                     write_instances_dry_same_fs self insts out_dir forced sp Hdry).
  repeat split; intros;
    unfold list_studies, list_series, download_series, download_study,
      search_and_download_studies, search_and_download_series;
    repeat first
      [ relates_step
      | apply Htable | apply Hinst
      | apply query_studies_same_fs | apply query_series_same_fs
      | apply retrieve_single_study_same_fs | apply retrieve_single_series_same_fs
      | destruct (frame_len _ =? 0)%nat ].
Qed.

(** X1.  A client in dry-run mode changes no file: whatever the repository
    answers and however the run ends, each of the six operations of the
    client leaves the file system as it found it. *)
Theorem dry_run_operations_keep_files (self : KheopsClient) :
  _dry_run self = true →
  (∀ sf fuzzy limit offset out_dir,
     relates same_fs (list_studies print_list print_table_summary self sf fuzzy
                        limit offset out_dir)) ∧
  (∀ sf fuzzy limit offset out_dir,
     relates same_fs (list_series print_list print_table_summary self sf fuzzy
                        limit offset out_dir)) ∧
  (∀ study_uid series_uid meta_only out_dir forced,
     relates same_fs (download_series st_size_of print_list print_table_summary self
                        study_uid series_uid meta_only out_dir forced)) ∧
  (∀ study_uid meta_only out_dir forced,
     relates same_fs (download_study st_size_of print_list print_table_summary self
                        study_uid meta_only out_dir forced)) ∧
  (∀ sf meta_only fuzzy limit offset out_dir forced,
     relates same_fs (search_and_download_studies st_size_of print_list
                        print_table_summary self sf meta_only fuzzy limit offset
                        out_dir forced)) ∧
  (∀ sf meta_only fuzzy limit offset out_dir forced,
     relates same_fs (search_and_download_series st_size_of print_list
                        print_table_summary self sf meta_only fuzzy limit offset
                        out_dir forced)).
Proof. apply dry_run_same_fs. Qed.

End Footprint.

Lemma finish_world {A} (run : result A * world) o w' :
  Main.finish run = (o, w') → ∃ r, run = (r, w').
Proof. destruct run as [[a|e] w1]; intros [= _ <-]; by eexists. Qed.

Section CommandLine.
Context (st_size_of : node → Z).
Context (print_list : list value → string → result unit).
Context (print_table_summary : frame → result unit).
Context (connect : string → string → DICOMwebClient).

Local Abbreviation run_client :=
  (Main.run_client st_size_of print_list print_table_summary connect).

(** X2.  With [--dry] on the command line no file is changed, whatever
    command and mode are given, whatever the repository answers and however
    the run ends (normally, with an exception, by [exit] or on a failed
    assertion). *)
Theorem run_client_dry_keeps_files (ACCESS_TOKEN : option string) (args : Main.Args)
    (w w' : world) (o : Main.outcome) :
  Main.dry args = true →
  run_client ACCESS_TOKEN args w = (o, w') →
  fs w' = fs w.
Proof.
  intros Hdry. unfold Main.run_client, Main.KheopsClient_init.
  destruct (_check_token _ _) as [tok|status]; [|by intros [= _ <-]].
  set (client := {| _client := connect (Main.url args) tok;
                    _default_out_dir := ["downloads"];
                    _dry_run := Main.dry args |}).
  destruct (dry_run_same_fs st_size_of print_list print_table_summary
              client Hdry) as (H1 & H2 & H3 & H4 & H5 & H6).
  repeat match goal with
         | |- context [if ?b then _ else _] => destruct b
         end;
    try (by intros [= _ <-]);
    intros Hrun; apply finish_world in Hrun as [r Hrun];
    first [ by eapply H1 | by eapply H2 | by eapply H3 | by eapply H4
          | by eapply H5 | by eapply H6 ].
Qed.

End CommandLine.

(* --------------------------------------------------------------------- *)
(** *** Which requests go out *)

Section Requests.
Context (st_size_of : node → Z).
Context (print_list : list value → string → result unit).
Context (print_table_summary : frame → result unit).

Lemma file_step_sent_only {A} P (m : M A) :
  relates only_files_differ m → relates (sent_only P) m.
Proof. apply relates_impl, only_files_differ_sent_only. Qed.

Lemma query_studies_sent_only P self sf fuzzy limit offset :
  (∀ r, is_search r → P r) →
  relates (sent_only P) (_query_studies self sf fuzzy limit offset).
Proof.
  intros HP. unfold _query_studies. relates_step; [|relates_step].
  by apply call_sent_only, HP.
Qed.

Lemma query_series_sent_only P self sf fuzzy limit offset :
  (∀ r, is_search r → P r) →
  relates (sent_only P) (_query_series self sf fuzzy limit offset).
Proof.
  intros HP. unfold _query_series.
  relates_step; [by apply query_studies_sent_only|]. do 2 relates_step.
  - relates_step. unfold _query_series_for_study. relates_step; [|relates_step].
    by apply call_sent_only, HP.
  - repeat relates_step.
Qed.

Lemma retrieve_single_study_sent_only self uid meta_only :
  relates (sent_only (download_request meta_only)) (_retrieve_single_study self uid meta_only).
Proof.
  unfold _retrieve_single_study. destruct meta_only; [|by apply call_sent_only].
  relates_step; [by apply call_sent_only | relates_step].
Qed.

Lemma retrieve_single_series_sent_only self study_uid series_uid meta_only :
  relates (sent_only (download_request meta_only))
    (_retrieve_single_series self study_uid series_uid meta_only).
Proof.
  unfold _retrieve_single_series. destruct meta_only; [|by apply call_sent_only].
  relates_step; [by apply call_sent_only | relates_step].
Qed.

Lemma search_is_download_request meta_only r : is_search r → download_request meta_only r.
Proof. by destruct r. Qed.

(** X3.  Which requests an operation can send.  The two listings send
    searches only.  A download with [meta_only] set sends, besides
    searches, metadata retrievals only and never asks for the objects
    themselves; without [meta_only] it never asks for metadata.  This
    holds for every prefix of a run, also one that ends in an exception. *)
Theorem operations_request_kinds (self : KheopsClient) :
  (∀ sf fuzzy limit offset out_dir,
     relates (sent_only is_search)
       (list_studies print_list print_table_summary self sf fuzzy limit offset out_dir)) ∧
  (∀ sf fuzzy limit offset out_dir,
     relates (sent_only is_search)
       (list_series print_list print_table_summary self sf fuzzy limit offset out_dir)) ∧
  (∀ study_uid series_uid meta_only out_dir forced,
     relates (sent_only (download_request meta_only))
       (download_series st_size_of print_list print_table_summary self
          study_uid series_uid meta_only out_dir forced)) ∧
  (∀ study_uid meta_only out_dir forced,
     relates (sent_only (download_request meta_only))
       (download_study st_size_of print_list print_table_summary self
          study_uid meta_only out_dir forced)) ∧
  (∀ sf meta_only fuzzy limit offset out_dir forced,
     relates (sent_only (download_request meta_only))
       (search_and_download_studies st_size_of print_list print_table_summary self
          sf meta_only fuzzy limit offset out_dir forced)) ∧
  (∀ sf meta_only fuzzy limit offset out_dir forced,
     relates (sent_only (download_request meta_only))
       (search_and_download_series st_size_of print_list print_table_summary self
          sf meta_only fuzzy limit offset out_dir forced)).
Proof.
  repeat split; intros;
    unfold list_studies, list_series, download_series, download_study,
      search_and_download_studies, search_and_download_series;
    repeat first
      [ relates_step
      | apply file_step_sent_only, write_table_requests
      | apply file_step_sent_only, write_instances_requests
      | by apply query_studies_sent_only
      | by apply query_series_sent_only
      | apply query_studies_sent_only, search_is_download_request
      | apply query_series_sent_only, search_is_download_request
      | apply retrieve_single_study_sent_only
      | apply retrieve_single_series_sent_only
      | destruct (frame_len _ =? 0)%nat ].
Qed.

Lemma retrieve_single_study_one self (uid : value) (meta_only : bool) :
  relates (sent_exactly [if meta_only then RetrieveStudyMetadata uid else RetrieveStudy uid])
    (_retrieve_single_study self uid meta_only).
Proof.
  unfold _retrieve_single_study. destruct meta_only; [|apply call_sent_exactly].
  apply sent_exactly_bind; [apply call_sent_exactly|]. intros. apply relates_ret, _.
Qed.

Lemma retrieve_single_series_one self (study_uid series_uid : value) (meta_only : bool) :
  relates (sent_exactly [if meta_only then RetrieveSeriesMetadata study_uid series_uid
                         else RetrieveSeries study_uid series_uid])
    (_retrieve_single_series self study_uid series_uid meta_only).
Proof.
  unfold _retrieve_single_series. destruct meta_only; [|apply call_sent_exactly].
  apply sent_exactly_bind; [apply call_sent_exactly|]. intros. apply relates_ret, _.
Qed.

Lemma one_request_each (self : KheopsClient) :
  (∀ sf fuzzy limit offset out_dir,
     relates (sent_exactly [SearchForStudies sf fuzzy limit offset STUDY_KEYS])
       (list_studies print_list print_table_summary self sf fuzzy limit offset out_dir)) ∧
  (∀ (study_uid : value) (meta_only : bool) out_dir forced,
     relates (sent_exactly [if meta_only then RetrieveStudyMetadata study_uid
                            else RetrieveStudy study_uid])
       (download_study st_size_of print_list print_table_summary self
          study_uid meta_only out_dir forced)) ∧
  (∀ (study_uid series_uid : value) (meta_only : bool) out_dir forced,
     relates (sent_exactly [if meta_only then RetrieveSeriesMetadata study_uid series_uid
                            else RetrieveSeries study_uid series_uid])
       (download_series st_size_of print_list print_table_summary self
          study_uid series_uid meta_only out_dir forced)).
Proof.
  repeat split; intros;
    unfold list_studies, download_series, download_study.
  - apply sent_exactly_bind.
    + unfold _query_studies. apply sent_exactly_bind; [apply call_sent_exactly|].
      intros. relates_step.
    + intros. repeat first [relates_step | apply write_table_requests].
  - apply sent_exactly_bind; [apply retrieve_single_study_one|].
    intros. repeat first [relates_step | apply write_table_requests
                         | apply write_instances_requests].
  - apply sent_exactly_bind; [apply retrieve_single_series_one|].
    intros. repeat first [relates_step | apply write_table_requests
                         | apply write_instances_requests].
Qed.

(** X4.  Listing the studies and downloading a single study or series
    sends exactly one request each, whether the run returns or raises: the
    study search with the caller's filters, flag, limit and offset and the
    study fields, or the one retrieval [meta_only] selects.  In
    particular a single download never searches. *)
Theorem single_operations_send_one_request (self : KheopsClient) :
  (∀ sf fuzzy limit offset out_dir,
     relates (sent_exactly [SearchForStudies sf fuzzy limit offset STUDY_KEYS])
       (list_studies print_list print_table_summary self sf fuzzy limit offset out_dir)) ∧
  (∀ (study_uid : value) (meta_only : bool) out_dir forced,
     relates (sent_exactly [if meta_only then RetrieveStudyMetadata study_uid
                            else RetrieveStudy study_uid])
       (download_study st_size_of print_list print_table_summary self
          study_uid meta_only out_dir forced)) ∧
  (∀ (study_uid series_uid : value) (meta_only : bool) out_dir forced,
     relates (sent_exactly [if meta_only then RetrieveSeriesMetadata study_uid series_uid
                            else RetrieveSeries study_uid series_uid])
       (download_series st_size_of print_list print_table_summary self
          study_uid series_uid meta_only out_dir forced)).
Proof. apply one_request_each. Qed.

End Requests.

(* ===================================================================== *)
(** ** When sorting by UID succeeds, and what the queries return *)
(* ===================================================================== *)

Lemma uid_key_ok_integer v k : uid_key v = Ok k → integer_uid v.
Proof.
  unfold uid_key. destruct v as [|s| | |]; simpl; try discriminate.
  destruct (rmap py_int (str_split "." s)) as [zs|e] eqn:Hparts.
  - intros _. exists s, zs. split; [done|]. by apply rmap_py_int_components.
  - destruct e; simpl; discriminate.
Qed.

Lemma integer_uid_key v : integer_uid v → ∃ zs, uid_key v = Ok (KTuple zs).
Proof. intros (s & zs & -> & Hzs). exists zs. by apply uid_key_integer. Qed.

Lemma uid_key_not_integer v : ¬ integer_uid v → ∃ e, uid_key v = Err e.
Proof.
  intros Hv. destruct (uid_key v) as [k|e] eqn:Hkey; [|by exists e].
  destruct Hv. by eapply uid_key_ok_integer.
Qed.

Lemma rmap_first_error {A B} (f : A → result B) before x after e :
  Forall (fun x => ∃ y, f x = Ok y) before → f x = Err e →
  rmap f (before ++ x :: after) = Err e.
Proof.
  intros Hbefore Hx. induction Hbefore as [|x0 before [y Hy] _ IH]; simpl.
  - by rewrite Hx.
  - by rewrite Hy, IH.
Qed.

Lemma rmap_ok_each {A B} (f : A → result B) xs ys :
  rmap f xs = Ok ys → Forall (fun x => ∃ y, f x = Ok y) xs.
Proof.
  intros H%rmap_ok_Forall2. induction H; constructor; eauto.
Qed.

Lemma sort_frame_by_uid_cases (df : frame) (by_ : string) :
  (by_ ∉ columns df → sort_frame_by_uid df by_ = Err (KeyError by_)) ∧
  (by_ ∈ columns df → Forall (fun r => integer_uid (cell r by_)) (rows df) →
     ∃ df', sort_frame_by_uid df by_ = Ok df' ∧
            columns df' = columns df ∧ rows df' ≡ₚ rows df) ∧
  (∀ df', sort_frame_by_uid df by_ = Ok df' →
     by_ ∈ columns df ∧ Forall (fun r => integer_uid (cell r by_)) (rows df)) ∧
  (by_ ∈ columns df → ∀ before r after,
     rows df = (before ++ r :: after)%list →
     Forall (fun r => integer_uid (cell r by_)) before →
     ¬ integer_uid (cell r by_) →
     ∃ e, uid_key (cell r by_) = Err e ∧ sort_frame_by_uid df by_ = Err e).
Proof.
  split; [|split; [|split]].
  - intros Hcol. unfold sort_frame_by_uid, sort_values, column.
    by rewrite bool_decide_false.
  - intros Hcol Hrows. destruct (sort_frame_by_uid_ok df by_ Hcol Hrows) as [df' Hsort].
    exists df'. split; [done|].
    by destruct (sort_frame_by_uid_sorted _ _ _ Hsort) as (? & ? & _).
  - intros df'. unfold sort_frame_by_uid, sort_values, column.
    case_bool_decide as Hcol; simpl; [|discriminate].
    destruct (sort_key _) as [ks|e] eqn:Hks; simpl; [|discriminate].
    intros _. split; [done|].
    apply rmap_ok_each in Hks. rewrite Forall_fmap in Hks.
    eapply Forall_impl; [exact Hks|]. intros r [k Hk]. by eapply uid_key_ok_integer.
  - intros Hcol before r after Hrows Hbefore Hr.
    destruct (uid_key_not_integer _ Hr) as [e He]. exists e. split; [done|].
    unfold sort_frame_by_uid, sort_values, column.
    rewrite bool_decide_true by done. simpl.
    unfold sort_key. rewrite Hrows, fmap_app, fmap_cons.
    rewrite (rmap_first_error uid_key _ _ _ e); [done| |done].
    rewrite Forall_fmap. eapply Forall_impl; [exact Hbefore|].
    intros r0 Hr0. destruct (integer_uid_key _ Hr0) as [zs Hzs]. by exists (KTuple zs).
Qed.

(** X5.  What [sort_frame_by_uid] does with a table.  A missing column is
    a [KeyError].  With the column present the sort succeeds exactly when
    every cell of the column is a string of integer components (an empty
    table included); it then keeps the columns and permutes the rows.
    Otherwise it raises what [uid_key] raises on the first cell, in row
    order, that is not such a string. *)
Theorem sort_frame_by_uid_outcome (df : frame) (by_ : string) :
  (by_ ∉ columns df → sort_frame_by_uid df by_ = Err (KeyError by_)) ∧
  (by_ ∈ columns df → Forall (fun r => integer_uid (cell r by_)) (rows df) →
     ∃ df', sort_frame_by_uid df by_ = Ok df' ∧
            columns df' = columns df ∧ rows df' ≡ₚ rows df) ∧
  (∀ df', sort_frame_by_uid df by_ = Ok df' →
     by_ ∈ columns df ∧ Forall (fun r => integer_uid (cell r by_)) (rows df)) ∧
  (by_ ∈ columns df → ∀ before r after,
     rows df = (before ++ r :: after)%list →
     Forall (fun r => integer_uid (cell r by_)) before →
     ¬ integer_uid (cell r by_) →
     ∃ e, uid_key (cell r by_) = Err e ∧ sort_frame_by_uid df by_ = Err e).
Proof. apply sort_frame_by_uid_cases. Qed.

(** X6.  What [_query_studies] returns.  The study search is sent in
    every case.  An exception of the repository comes out unchanged.  For
    an answer in which every record has a study UID of integer components
    the result is a table with the study columns and one row per record,
    the rows being those of the records in some order; and only such an
    answer gives a table. *)
Theorem query_studies_outcome (self : KheopsClient) sf fuzzy limit offset (w : world) :
  let sent_search := sent w (SearchForStudies sf fuzzy limit offset STUDY_KEYS) in
  let study_uid := fun rec => ds_get (dicomize_json_result rec true) "StudyInstanceUID" in
  (∀ e, studies_found (_client self) sf fuzzy limit offset STUDY_KEYS = Err e →
     _query_studies self sf fuzzy limit offset w = (Err e, sent_search)) ∧
  (∀ records, studies_found (_client self) sf fuzzy limit offset STUDY_KEYS = Ok records →
     Forall (fun rec => integer_uid (study_uid rec)) records →
     ∃ df, _query_studies self sf fuzzy limit offset w = (Ok df, sent_search) ∧
           columns df = STUDY_KEYS ∧
           rows df ≡ₚ (fun rec => record_row STUDY_KEYS (dicomize_json_result rec true))
                        <$> records ∧
           frame_len df = length records) ∧
  (∀ records df w',
     studies_found (_client self) sf fuzzy limit offset STUDY_KEYS = Ok records →
     _query_studies self sf fuzzy limit offset w = (Ok df, w') →
     Forall (fun rec => integer_uid (study_uid rec)) records).
Proof.
  intros sent_search study_uid.
  assert (Hcell : ∀ records,
            Forall (fun r => integer_uid (cell r "StudyInstanceUID"))
              (rows (dicoms_to_frame (dicomize_json_results records true) (Some STUDY_KEYS))) ↔
            Forall (fun rec => integer_uid (study_uid rec)) records).
  { intros records. rewrite dicoms_to_frame_rows by done.
    unfold dicomize_json_results. rewrite <- list_fmap_compose, Forall_fmap.
    apply Forall_proper; [|done]. intros rec. simpl.
    rewrite cell_record_row by key_listed. done. }
  split; [|split].
  - intros e He. unfold _query_studies, bind, search_for_studies. by rewrite He.
  - intros records Hrecs Hall.
    destruct (sort_frame_by_uid_cases
                (dicoms_to_frame (dicomize_json_results records true) (Some STUDY_KEYS))
                "StudyInstanceUID") as (_ & Hok & _).
    destruct Hok as (df & Hsort & Hcols & Hrows); [key_listed | by apply Hcell|].
    exists df. unfold _query_studies, bind, search_for_studies, lift.
    rewrite Hrecs, Hsort. split; [done|]. split; [done|].
    rewrite dicoms_to_frame_rows in Hrows by done.
    unfold dicomize_json_results in Hrows. rewrite <- list_fmap_compose in Hrows.
    split; [exact Hrows|]. unfold frame_len. by rewrite Hrows, length_fmap.
  - intros records df w' Hrecs. unfold _query_studies, bind, search_for_studies.
    rewrite Hrecs. intros [Hsort _]%lift_ok.
    apply sort_frame_by_uid_cases in Hsort as [_ Hall]. by apply Hcell.
Qed.

Section NothingFound.
Context (st_size_of : node → Z).
Context (print_list : list value → string → result unit).
Context (print_table_summary : frame → result unit).

(** X7.  When the study search finds nothing, [_query_studies] returns
    the empty table with the study columns and
    [search_and_download_studies] returns [None] right after the search:
    nothing else is sent, no file or directory is made, and this is so in
    dry-run mode and out of it. *)
Theorem search_and_download_studies_nothing_found (self : KheopsClient) sf meta_only fuzzy
    limit offset out_dir forced (w : world) :
  studies_found (_client self) sf fuzzy limit offset STUDY_KEYS = Ok [] →
  _query_studies self sf fuzzy limit offset w =
    (Ok {| columns := STUDY_KEYS; rows := [] |},
     sent w (SearchForStudies sf fuzzy limit offset STUDY_KEYS)) ∧
  search_and_download_studies st_size_of print_list print_table_summary self sf meta_only
    fuzzy limit offset out_dir forced w =
    (Ok None, sent w (SearchForStudies sf fuzzy limit offset STUDY_KEYS)).
Proof.
  intros Hnone.
  assert (Hquery : _query_studies self sf fuzzy limit offset w =
                     (Ok {| columns := STUDY_KEYS; rows := [] |},
                      sent w (SearchForStudies sf fuzzy limit offset STUDY_KEYS))).
  { unfold _query_studies, bind, search_for_studies. by rewrite Hnone. }
  split; [exact Hquery|].
  unfold search_and_download_studies, bind at 1. by rewrite Hquery.
Qed.

End NothingFound.

(* ===================================================================== *)
(** ** The output directory and the files written into it *)
(* ===================================================================== *)

Global Instance nodes_kept_outside_preorder ps : PreOrder (nodes_kept_outside ps).
Proof.
  split; [by intros w q n|].
  intros w1 w2 w3 H12 H23 q n Hq Hn. by apply H23, H12.
Qed.

Lemma nodes_kept_outside_mono ps ps' w w' :
  ps ⊆ ps' → nodes_kept_outside ps w w' → nodes_kept_outside ps' w w'.
Proof. intros Hsub H q n Hq. apply H. set_solver. Qed.

Lemma os_mkdir_nodes p : relates (nodes_kept_outside []) (os_mkdir p).
Proof.
  intros w r w' Hrun. apply os_mkdir_spec in Hrun.
  destruct r as [u|e].
  - destruct Hrun as (Hnone & _ & ->). intros q n _ Hq. simpl.
    rewrite node_at_insert by (by eapply node_at_None_nonroot).
    destruct (decide (q = p)) as [->|]; [congruence | done].
  - assert (w' = w) as -> by (destruct e; try done; by destruct Hrun as (? & ? & ?) || by destruct Hrun as (? & ?)).
    reflexivity.
Qed.

Lemma mkdir_oserror_nodes p exist_ok e : relates (nodes_kept_outside []) (mkdir_oserror p exist_ok e).
Proof.
  intros w r w'. rewrite mkdir_oserror_spec. destruct (_ && _); intros [= _ <-]; reflexivity.
Qed.

Lemma mkdir_single_nodes p exist_ok : relates (nodes_kept_outside []) (mkdir_single p exist_ok).
Proof.
  apply relates_try_except; [apply _ | apply os_mkdir_nodes|].
  intros e. destruct e; try apply mkdir_oserror_nodes. apply relates_raise, _.
Qed.

Lemma mkdir_parents_nodes p exist_ok : relates (nodes_kept_outside []) (mkdir_parents p exist_ok).
Proof.
  revert exist_ok. induction p as [|c parent IH]; intros exist_ok; simpl.
  - apply relates_try_except; [apply _ | apply os_mkdir_nodes|].
    intros e. destruct e; try apply mkdir_oserror_nodes. apply relates_raise, _.
  - apply relates_try_except; [apply _ | apply os_mkdir_nodes|].
    intros e. destruct e; try apply mkdir_oserror_nodes.
    apply relates_bind; [apply _ | apply IH|]. intros _. apply mkdir_single_nodes.
Qed.

Lemma ensure_dir_nodes p forced : relates (nodes_kept_outside []) (ensure_dir p forced).
Proof.
  unfold ensure_dir, is_dir. apply relates_bind; [apply _ | apply relates_read, _|].
  intros d. apply relates_bind; [apply _ | | intros _; apply relates_read, _].
  destruct (negb d); [apply mkdir_parents_nodes | apply relates_ret, _].
Qed.

Lemma write_file_nodes p c : relates (nodes_kept_outside [p]) (write_file p c).
Proof.
  intros w r w' Hrun. apply write_file_spec in Hrun.
  destruct r as [u|e]; [|subst; reflexivity].
  destruct Hrun as (_ & Hnd & ->). intros q n Hq Hn. simpl.
  rewrite node_at_insert by (by eapply is_dir_at_nonroot).
  rewrite decide_False by set_solver. done.
Qed.

Lemma write_one_nodes st_size_of forced inst p :
  relates (nodes_kept_outside [p]) (write_one st_size_of forced inst p).
Proof.
  unfold write_one.
  apply relates_bind; [apply _ | |intros _].
  { eapply relates_impl; [|apply ensure_dir_nodes].
    intros w w'. apply nodes_kept_outside_mono. set_solver. }
  apply relates_bind; [apply _ | apply relates_read, _|]. intros present.
  destruct (negb present || forced); [|apply relates_raise, _].
  apply relates_bind; [apply _ | apply write_file_nodes|]. intros _.
  unfold stat_st_size. intros w r w'. destruct (node_at _ _); intros [= _ <-]; reflexivity.
Qed.

Lemma os_mkdir_error_path p w e w' :
  os_mkdir p w = (Err e, w') →
  e = FileNotFoundError p ∨ e = NotADirectoryError p ∨ e = FileExistsError p.
Proof.
  unfold os_mkdir. destruct (node_at _ (path_parent p)) as [[|c]|].
  - destruct (node_at _ p); [|discriminate]. intros [= <- _]. auto.
  - intros [= <- _]. auto.
  - destruct (file_on_path _ _); intros [= <- _]; auto.
Qed.

Lemma file_on_path_true (files : gmap path node) p :
  file_on_path files p = true ↔
  ∃ q k : path, p = (k ++ q)%list ∧ is_file_at files q = true.
Proof.
  split.
  - induction p as [|c p IH]; simpl; [done|].
    intros [Hc|Hp]%orb_true_iff.
    + by exists (c :: p), [].
    + destruct (IH Hp) as (q & k & -> & Hq). by exists q, (c :: k).
  - intros (q & k & -> & Hq).
    destruct (file_on_path files (k ++ q)) eqn:Hnone; [done|].
    rewrite file_on_path_false in Hnone. by rewrite (Hnone q k eq_refl) in Hq.
Qed.

(** The error of a [mkdir] with [parents=True] is for the path asked for:
    it exists already, or a file stands somewhere above it; in the second
    case nothing was made. *)
Lemma mkdir_parents_error p exist_ok w e w' :
  mkdir_parents p exist_ok w = (Err e, w') →
  (e = FileExistsError p ∧ is_Some (node_at (fs w) p) ∧
   (exist_ok = false ∨ is_dir_at (fs w) p = false)) ∨
  (e = NotADirectoryError p ∧ file_on_path (fs w) (path_parent p) = true ∧ w' = w).
Proof.
  revert exist_ok w e w'. induction p as [|c parent IH]; intros exist_ok w e w'.
  - simpl. unfold try_except, os_mkdir. simpl.
    rewrite mkdir_oserror_spec. simpl. destruct exist_ok; simpl; [discriminate|].
    intros [= <- <-]. left. split; [done|]. split; [by eexists | by left].
  - simpl. unfold try_except at 1.
    destruct (os_mkdir (c :: parent) w) as [[u|e0] w0] eqn:Hmk; [discriminate|].
    pose proof (os_mkdir_error_path _ _ _ _ Hmk) as Hpath.
    apply os_mkdir_spec in Hmk.
    destruct Hpath as [->|[->| ->]].
    + destruct Hmk as (Hnone & Hnofile & ->). simpl path_parent in Hnone, Hnofile.
      unfold bind.
      destruct (mkdir_parents parent true w) as [[u|e1] w1] eqn:Hrec.
      * intros Hsingle.
        pose proof (mkdir_parents_frame _ _ _ _ _ Hrec (c :: parent)
                      (cons_not_suffix_of_tail c parent)) as Hsame.
        apply mkdir_parents_kept in Hrec as [_ Hdir]. specialize (Hdir u eq_refl).
        unfold mkdir_single, try_except in Hsingle.
        destruct (os_mkdir (c :: parent) w1) as [[u2|e2] w2] eqn:Hmk2; [discriminate|].
        pose proof (os_mkdir_error_path _ _ _ _ Hmk2) as Hpath2.
        pose proof Hmk2 as Hraw.
        apply os_mkdir_spec in Hmk2. destruct Hpath2 as [->|[->| ->]].
        -- destruct Hmk2 as (Hnone2 & _). simpl in Hnone2, Hdir.
           unfold is_dir_at in Hdir. by rewrite Hnone2 in Hdir.
        -- exfalso. clear -Hraw Hdir. unfold os_mkdir in Hraw. simpl path_parent in Hraw.
           unfold is_dir_at in Hdir.
           destruct (node_at (fs w1) parent) as [[|?]|]; try done.
           by destruct (node_at (fs w1) (c :: parent)).
        -- destruct Hmk2 as (_ & Hsome & ->). rewrite mkdir_oserror_spec in Hsingle.
           destruct (exist_ok && _) eqn:Hok; [discriminate|]. injection Hsingle as <- <-.
           left. split; [done|].
           unfold is_dir_at in *. rewrite Hsame in Hsome, Hok. split; [done|].
           apply andb_false_iff in Hok. destruct Hok as [?|Hnd]; [by left | by right].
      * intros [= <- <-]. exfalso.
        apply IH in Hrec as [(_ & Hsome & _)|(_ & Hfile & _)].
        -- rewrite Hnone in Hsome. by destruct Hsome.
        -- destruct parent as [|c' pp]; [done|]. simpl in Hnofile, Hfile.
           apply orb_false_iff in Hnofile as [_ Hnofile]. congruence.
    + destruct Hmk as (Hfile & ->). rewrite mkdir_oserror_spec.
      destruct (exist_ok && _) eqn:Hok; [discriminate|].
      intros [= <- <-]. by right.
    + destruct Hmk as (Hpar & Hsome & ->). rewrite mkdir_oserror_spec.
      destruct (exist_ok && _) eqn:Hok; [discriminate|]. intros [= <- <-].
      left. split; [done|]. split; [done|].
      apply andb_false_iff in Hok. destruct Hok; [by left | by right].
Qed.

(** X8.  How making the output directory can end.  [_ensure_ouput_dir]
    returns the requested directory (the client's default when none is
    given), which then is a directory; or it raises [FileExistsError] for
    that path, which exists and is not a directory; or it raises
    [NotADirectoryError], again for that path, because a regular file
    stands somewhere above it, and then nothing was made.  Its own
    [ValueError] and [RuntimeError] never come out.  In every case files
    stay files, directories stay directories, and whatever existed is
    unchanged.  (The file system here has no permissions and nobody else
    changes it meanwhile.) *)
Theorem ensure_ouput_dir_outcome (self : KheopsClient) (out_dir : option path) (forced : bool)
    (w w' : world) (r : result path) :
  let out := default (_default_out_dir self) out_dir in
  _ensure_ouput_dir self out_dir forced w = (r, w') →
  kinds_kept w w' ∧ nodes_kept_outside [] w w' ∧ only_files_differ w w' ∧
  match r with
  | Ok made => made = out ∧ is_dir_at (fs w') out = true
  | Err (FileExistsError q) =>
      q = out ∧ is_Some (node_at (fs w) out) ∧ is_dir_at (fs w) out = false
  | Err (NotADirectoryError q) =>
      q = out ∧
      (∃ above k : path, out = (k ++ above)%list ∧ k ≠ [] ∧
                         is_file_at (fs w) above = true) ∧
      w' = w
  | Err _ => False
  end.
Proof.
  intros out Hrun.
  split; [by apply ensure_ouput_dir_spec in Hrun as [? _]|].
  split.
  { revert Hrun. apply relates_bind; [apply _ | apply ensure_dir_nodes|].
    intros ok. destruct (negb ok); [apply relates_raise, _ | apply relates_ret, _]. }
  split; [by eapply ensure_ouput_dir_requests|].
  destruct r as [made|e].
  { apply ensure_ouput_dir_spec in Hrun as [_ Hok].
    destruct (Hok made eq_refl) as [-> Hdir]. done. }
  unfold _ensure_ouput_dir, bind in Hrun. fold out in Hrun.
  destruct (ensure_dir out forced w) as [[ok|e0] w0] eqn:Hens.
  { apply ensure_dir_spec in Hens as [_ Hok]. destruct (Hok ok eq_refl) as [-> _].
    discriminate. }
  injection Hrun as <- <-.
  unfold ensure_dir, bind, is_dir in Hens.
  destruct (is_dir_at (fs w) out) eqn:Hd; simpl in Hens; [discriminate|].
  destruct (mkdir_parents out forced w) as [[u|e1] w1] eqn:Hmk; [discriminate|].
  injection Hens as <- <-.
  apply mkdir_parents_error in Hmk as [(-> & Hsome & _)|(-> & Hfile & ->)].
  - done.
  - split; [done|]. split; [|done].
    destruct out as [|c parent]; [done|]. simpl in Hfile.
    apply file_on_path_true in Hfile as (above & k & -> & Habove).
    by exists above, (c :: k).
Qed.

Lemma write_table_wet (self : KheopsClient) (df : frame) (out_dir : option path)
    (label : string) (w : world) :
  let out := default (_default_out_dir self) out_dir in
  let target := path_join out (csv_filename label (now w)) in
  _dry_run self = false →
  (∀ q k : path, out = (k ++ q)%list → is_file_at (fs w) q = false) →
  is_dir_at (fs w) target = false →
  ∃ w', _write_table self df out_dir label w = (Ok (), w') ∧
        node_at (fs w') target = Some (File (CsvFile df)) ∧
        is_dir_at (fs w') out = true ∧
        nodes_kept_outside [target] w w' ∧
        only_files_differ w w'.
Proof.
  intros out target Hwet Hpath Htarget.
  destruct (ensure_dir_fresh out true w Hpath) as (w1 & Hens & Hdir & Hframe).
  assert (Hnow : only_files_differ w w1) by (by eapply ensure_dir_requests).
  assert (Hkept : nodes_kept_outside [] w w1) by (by eapply ensure_dir_nodes).
  assert (Htarget1 : is_dir_at (fs w1) target = false).
  { unfold is_dir_at. rewrite Hframe; [done|]. apply cons_not_suffix_of_tail. }
  exists (set_fs w1 (<[target := File (CsvFile df)]> (fs w1))).
  split; [|split; [|split; [|split]]].
  - unfold _write_table. rewrite Hwet. unfold bind at 1, _ensure_ouput_dir, bind at 1.
    fold out. rewrite Hens. simpl. unfold bind, to_csv.
    destruct Hnow as [_ ->]. by apply write_file_ok.
  - cbn [fs set_fs]. rewrite node_at_insert by done. by rewrite decide_True.
  - unfold is_dir_at. cbn [fs set_fs]. rewrite node_at_insert by done.
    rewrite decide_False; [exact Hdir|]. apply (cons_not_suffix_of_tail _ _ []).
  - intros q n Hq Hn. cbn [fs set_fs]. rewrite node_at_insert by done.
    rewrite decide_False by set_solver. apply Hkept; [apply not_elem_of_nil | done].
  - done.
Qed.

(** X9.  Out of dry-run mode [_write_table] stores the table as
    [<label>_<time stamp>.csv] in the output directory.  When no file
    stands on the way to that directory and the name is not taken by a
    directory, it succeeds: the directory exists afterwards, the file holds
    the table (an older file of that name is replaced), nothing that
    existed elsewhere is touched and no request is sent. *)
Theorem write_table_stores_csv (self : KheopsClient) (df : frame) (out_dir : option path)
    (label : string) (w : world) :
  let out := default (_default_out_dir self) out_dir in
  let target := path_join out (csv_filename label (now w)) in
  _dry_run self = false →
  (∀ q k : path, out = (k ++ q)%list → is_file_at (fs w) q = false) →
  is_dir_at (fs w) target = false →
  ∃ w', _write_table self df out_dir label w = (Ok (), w') ∧
        node_at (fs w') target = Some (File (CsvFile df)) ∧
        is_dir_at (fs w') out = true ∧
        nodes_kept_outside [target] w w' ∧
        only_files_differ w w'.
Proof. apply write_table_wet. Qed.

Section OutputFiles.
Context (st_size_of : node → Z).

(** X10.  A regular file standing where the output directory should be is
    never replaced: making the directory raises [FileExistsError] for that
    path, with [forced] as without, and nothing is changed.  A client not
    in dry-run mode therefore writes neither a table nor an instance
    there. *)
Theorem file_in_place_of_output_dir (self : KheopsClient) (out_dir : option path)
    (forced : bool) (w : world) :
  let out := default (_default_out_dir self) out_dir in
  is_file_at (fs w) out = true →
  is_dir_at (fs w) (path_parent out) = true →
  _ensure_ouput_dir self out_dir forced w = (Err (FileExistsError out), w) ∧
  (_dry_run self = false →
   (∀ df label, _write_table self df out_dir label w = (Err (FileExistsError out), w)) ∧
   (∀ insts sp df,
      sort_frame_by_uid (dicoms_to_frame insts (Some INSTANCE_KEYS)) "SOPInstanceUID" = Ok df →
      _write_instances st_size_of self insts out_dir forced sp w =
        (Err (FileExistsError out), w))).
Proof.
  intros out Hfile Hparent.
  assert (Hmk : ∀ exist_ok, ensure_dir out exist_ok w = (Err (FileExistsError out), w)).
  { intros exist_ok. unfold ensure_dir, bind, is_dir.
    assert (Hnd : is_dir_at (fs w) out = false).
    { unfold is_dir_at, is_file_at in *. by destruct (node_at (fs w) out) as [[]|]. }
    rewrite Hnd. simpl.
    destruct out as [|c parent] eqn:Hout; [done|].
    simpl. unfold try_except, os_mkdir.
    unfold is_dir_at in Hparent. simpl in Hparent.
    change (path_parent (c :: parent)) with parent.
    destruct (node_at (fs w) parent) as [[]|]; try done.
    unfold is_file_at in Hfile.
    destruct (node_at (fs w) (c :: parent)) as [n|] eqn:Hn; [|done].
    rewrite mkdir_oserror_spec. unfold is_dir_at. rewrite Hn.
    destruct n; [done|]. by rewrite andb_false_r. }
  assert (Hens : ∀ exist_ok,
            _ensure_ouput_dir self out_dir exist_ok w = (Err (FileExistsError out), w)).
  { intros exist_ok. unfold _ensure_ouput_dir, bind. fold out. by rewrite Hmk. }
  split; [apply Hens|]. intros Hwet. split.
  - intros df label. unfold _write_table. rewrite Hwet. unfold bind at 1. by rewrite Hens.
  - intros insts sp df Hsort. rewrite write_instances_wet by done.
    unfold bind at 1, lift. rewrite Hsort. unfold bind at 1. by rewrite Hens.
Qed.

(* --------------------------------------------------------------------- *)
(** *** What the loop writes and records *)

Lemma append_inj_suffix (t s1 s2 : string) : s1 +:+ t = s2 +:+ t → s1 = s2.
Proof.
  assert (Hlen : ∀ a b, String.length (a +:+ b) = String.length a + String.length b).
  { induction a as [|c a IH]; intros b; simpl; [done|]. by rewrite IH. }
  revert s2. induction s1 as [|c s1 IH]; intros [|c2 s2]; simpl; intros Heq.
  - done.
  - apply (f_equal String.length) in Heq. simpl in Heq. rewrite !Hlen in Heq.
    simpl in Heq. lia.
  - apply (f_equal String.length) in Heq. simpl in Heq. rewrite !Hlen in Heq.
    simpl in Heq. lia.
  - injection Heq as -> Heq. f_equal. by apply IH.
Qed.

Lemma omap_fmap_Some {A B C} (f : B → option C) (g : A → B) (h : A → C) (l : list A) :
  (∀ x, x ∈ l → f (g x) = Some (h x)) → omap f (g <$> l) = h <$> l.
Proof.
  induction l as [|x l IH]; intros Hall; [done|].
  rewrite !fmap_cons.
  change (omap f (g x :: (g <$> l)))
    with (match f (g x) with Some y => y :: omap f (g <$> l) | None => omap f (g <$> l) end).
  rewrite Hall by left. f_equal. apply IH. intros y Hy. apply Hall. by right.
Qed.

Lemma recorded_sizes_step inst rest sizes :
  recorded_sizes st_size_of (inst :: rest) sizes =
  recorded_sizes st_size_of rest
    (match elements inst !! "SOPInstanceUID" with
     | Some (VStr sop_uid) => <[sop_uid := st_size_of (instance_file inst)]> sizes
     | _ => sizes
     end).
Proof. done. Qed.

Lemma recorded_sizes_cons inst rest sizes sop :
  elements inst !! "SOPInstanceUID" = Some (VStr sop) →
  recorded_sizes st_size_of (inst :: rest) sizes =
  recorded_sizes st_size_of rest (<[sop := st_size_of (instance_file inst)]> sizes).
Proof. intros Hsop. by rewrite recorded_sizes_step, Hsop. Qed.

Lemma write_loop_sizes out forced insts sizes w sizes' w' :
  _write_instances_loop st_size_of out forced insts sizes w = (Ok sizes', w') →
  sizes' = recorded_sizes st_size_of insts sizes.
Proof.
  revert sizes w. induction insts as [|inst rest IH]; intros sizes w.
  - by intros [= <- _].
  - destruct (instance_target out inst) as [p|] eqn:Htarget.
    + pose proof Htarget as (series & sop & _ & Hsop & _)%instance_target_uids.
      rewrite (write_loop_cons st_size_of _ _ _ _ _ _ _ _ Htarget Hsop).
      unfold bind at 1.
      destruct (write_one _ _ _ _ _) as [[n|e] w1] eqn:Hone; [|discriminate].
      apply write_one_spec in Hone as (_ & _ & _ & ->).
      intros Hrest%IH. by rewrite (recorded_sizes_cons _ _ _ _ Hsop).
    + destruct (write_loop_no_target st_size_of out forced inst Htarget) as [e He].
      by rewrite He.
Qed.

Lemma recorded_sizes_absent insts sizes sop :
  VStr sop ∉ (fun inst => ds_get inst "SOPInstanceUID") <$> insts →
  recorded_sizes st_size_of insts sizes !! sop = sizes !! sop.
Proof.
  revert sizes. induction insts as [|inst rest IH]; intros sizes Hnot; [done|].
  rewrite fmap_cons, not_elem_of_cons in Hnot. destruct Hnot as [Hne Hrest].
  rewrite recorded_sizes_step, IH by done.
  unfold ds_get in Hne.
  destruct (elements inst !! "SOPInstanceUID") as [[|s| | |]|]; simpl in Hne; try done.
  apply lookup_insert_ne. congruence.
Qed.

Lemma recorded_sizes_present insts sizes inst sop :
  NoDup ((fun inst => ds_get inst "SOPInstanceUID") <$> insts) →
  inst ∈ insts →
  elements inst !! "SOPInstanceUID" = Some (VStr sop) →
  recorded_sizes st_size_of insts sizes !! sop = Some (st_size_of (instance_file inst)).
Proof.
  revert sizes. induction insts as [|inst0 rest IH]; intros sizes Hnd Hin Hsop.
  - by apply elem_of_nil in Hin.
  - rewrite fmap_cons in Hnd. apply NoDup_cons in Hnd as [Hnot Hnd].
    apply elem_of_cons in Hin as [<-|Hin].
    + rewrite (recorded_sizes_cons _ _ _ _ Hsop), recorded_sizes_absent.
      * by rewrite lookup_insert_eq.
      * unfold ds_get in Hnot. by rewrite Hsop in Hnot.
    + rewrite recorded_sizes_step. by apply IH.
Qed.

Lemma write_loop_nodes out forced insts sizes :
  relates (nodes_kept_outside (omap (instance_target out) insts))
    (_write_instances_loop st_size_of out forced insts sizes).
Proof.
  revert sizes. induction insts as [|inst rest IH]; intros sizes.
  - apply relates_ret, _.
  - change (omap (instance_target out) (inst :: rest))
      with (match instance_target out inst with
            | Some p => p :: omap (instance_target out) rest
            | None => omap (instance_target out) rest
            end).
    destruct (instance_target out inst) as [p|] eqn:Htarget.
    + pose proof Htarget as (series & sop & _ & Hsop & _)%instance_target_uids.
      intros w r w'. rewrite (write_loop_cons st_size_of _ _ _ _ _ _ _ _ Htarget Hsop).
      revert w r w'.
      change (relates (nodes_kept_outside (p :: omap (instance_target out) rest))
                (bind (write_one st_size_of forced inst p)
                   (fun bytes => _write_instances_loop st_size_of out forced rest
                                   (<[sop := bytes]> sizes)))).
      apply relates_bind; [apply _ | |intros bytes].
      * eapply relates_impl; [|apply write_one_nodes].
        intros w w'. apply nodes_kept_outside_mono. set_solver.
      * eapply relates_impl; [|apply IH].
        intros w w'. apply nodes_kept_outside_mono. set_solver.
    + destruct (write_loop_no_target st_size_of out forced inst Htarget) as [e He].
      intros w r w'. rewrite He. intros [= _ <-]. reflexivity.
Qed.

Lemma write_loop_contents out forced insts sizes w sizes' w' :
  NoDup ((fun inst => ds_get inst "SOPInstanceUID") <$> insts) →
  _write_instances_loop st_size_of out forced insts sizes w = (Ok sizes', w') →
  ∀ inst, inst ∈ insts →
    ∃ p sop, instance_target out inst = Some p ∧
             elements inst !! "SOPInstanceUID" = Some (VStr sop) ∧
             node_at (fs w') p = Some (instance_file inst).
Proof.
  revert sizes w. induction insts as [|inst0 rest IH]; intros sizes w Hnd Hrun inst Hin.
  - by apply elem_of_nil in Hin.
  - rewrite fmap_cons in Hnd. apply NoDup_cons in Hnd as [Hnot Hnd].
    destruct (instance_target out inst0) as [p0|] eqn:Htarget.
    + pose proof Htarget as (series & sop & Hseries & Hsop & Hp0)%instance_target_uids.
      rewrite (write_loop_cons st_size_of _ _ _ _ _ _ _ _ Htarget Hsop) in Hrun.
      unfold bind at 1 in Hrun.
      destruct (write_one _ _ _ _ _) as [[n|e] w1] eqn:Hone; [|discriminate].
      apply write_one_spec in Hone as (_ & Hnode & _ & _).
      apply elem_of_cons in Hin as [->|Hin]; [|by eapply IH].
      exists p0, sop. split; [done|]. split; [done|].
      eapply write_loop_nodes; [exact Hrun| |exact Hnode].
      intros (inst' & Hin' & Htarget')%list_elem_of_omap.
      apply instance_target_uids in Htarget' as (series' & sop' & _ & Hsop' & Hp').
      rewrite Hp0 in Hp'. injection Hp' as Heq%append_inj_suffix _.
      apply Hnot. apply list_elem_of_fmap. exists inst'. split; [|done].
      unfold ds_get. by rewrite Hsop, Hsop', Heq.
    + destruct (write_loop_no_target st_size_of out forced inst0 Htarget) as [e He].
      by rewrite He in Hrun.
Qed.

Lemma with_transfer_flags_filled_in inst : flags_filled_in inst (with_transfer_flags inst).
Proof.
  unfold flags_filled_in, with_transfer_flags. cbn [elements is_little_endian is_implicit_VR].
  split; [done|]. by destruct (is_little_endian inst), (is_implicit_VR inst).
Qed.

(** X11.  The table and the files of a writing run.  When a client not in
    dry-run mode has written a batch of instances with plain names for UIDs
    and pairwise different SOP instance UIDs, the table it returns has the
    instance columns and [FileSize], and there is one saved data set per
    instance: the instance with its two transfer-syntax flags filled in
    ([False] where the instance had none).  The file of every instance is in
    place at [out_dir/<series UID>/<SOP UID>.dcm] and holds its saved data
    set; the table has one row per instance, holding the instance's fields
    and the size of that file. *)
Theorem write_instances_table_and_files (self : KheopsClient) (insts : list Dataset)
    (out_dir : option path) (forced sp : bool) (w w' : world) (df : frame) :
  let out := default (_default_out_dir self) out_dir in
  _dry_run self = false →
  Forall plain_uids insts →
  NoDup ((fun inst => ds_get inst "SOPInstanceUID") <$> insts) →
  _write_instances st_size_of self insts out_dir forced sp w = (Ok df, w') →
  columns df = (INSTANCE_KEYS ++ ["FileSize"])%list ∧
  ∃ saved : list Dataset,
    Forall2 flags_filled_in insts saved ∧
    Forall2 (fun inst d =>
               ∃ series_uid sop_uid,
                 elements inst !! "SeriesInstanceUID" = Some (VStr series_uid) ∧
                 elements inst !! "SOPInstanceUID" = Some (VStr sop_uid) ∧
                 node_at (fs w') ((sop_uid +:+ ".dcm") :: series_uid :: out) =
                   Some (File (DcmFile d)))
            insts saved ∧
    rows df ≡ₚ zip_with (written_row st_size_of) insts saved.
Proof.
  intros out Hwet _ Hnd Hrun.
  eapply write_instances_wet_ok in Hrun as (df0 & w1 & sizes & Hsort & _ & Hloop & ->);
    [|done].
  fold out in Hloop.
  pose proof (write_loop_contents _ _ _ _ _ _ _ Hnd Hloop) as Hcontents.
  apply write_loop_sizes in Hloop as ->.
  apply sorted_table_rows in Hsort as [Hcols Hrows].
  split; [by simpl; rewrite Hcols|].
  exists (with_transfer_flags <$> insts). split; [|split].
  - apply Forall2_fmap_r, Forall_Forall2_diag, Forall_forall. intros inst _.
    apply with_transfer_flags_filled_in.
  - apply Forall2_fmap_r, Forall_Forall2_diag, Forall_forall. intros inst Hin.
    destruct (Hcontents inst Hin) as (p & sop & Htarget & Hsop & Hnode).
    apply instance_target_uids in Htarget as (series & sop' & Hse & Hso & ->).
    rewrite Hsop in Hso. injection Hso as <-. by exists series, sop.
  - rewrite zip_with_fmap_r, zip_with_diag.
    simpl. rewrite Hrows. erewrite omap_fmap_Some; [done|]. intros inst Hin.
    destruct (Hcontents inst Hin) as (p & sop & _ & Hsop & _).
    rewrite cell_record_row by key_listed. unfold ds_get at 1. rewrite Hsop. simpl.
    by rewrite (recorded_sizes_present _ _ _ _ Hnd Hin Hsop).
Qed.

End OutputFiles.

(* ===================================================================== *)
(** ** The series of all studies *)
(* ===================================================================== *)

Lemma query_series_for_study_ok self uid sf fuzzy limit offset w df w' :
  _query_series_for_study self uid sf fuzzy limit offset w = (Ok df, w') →
  ∃ records,
    series_found (_client self) uid sf fuzzy limit offset SERIES_KEYS = Ok records ∧
    columns df = SERIES_KEYS ∧
    rows df ≡ₚ series_rows records.
Proof.
  unfold _query_series_for_study, bind, search_for_series.
  destruct (series_found _ _ _ _ _ _ _) as [records|e]; [|discriminate].
  intros [Hsort _]%lift_ok. exists records. split; [done|].
  apply sort_frame_by_uid_sorted in Hsort as (Hcols & Hrows & _).
  split; [done|]. rewrite Hrows, dicoms_to_frame_rows by done.
  unfold dicomize_json_results, series_rows. by rewrite <- list_fmap_compose.
Qed.

Lemma fan_out_tables self sf fuzzy limit offset uids w (dfs : list frame) w' :
  mmap (fun uid => _query_series_for_study self uid sf fuzzy limit offset) uids w
    = (Ok dfs, w') →
  ∃ per_study : list (list json_record),
    Forall2 (fun uid records =>
               series_found (_client self) uid sf fuzzy limit offset SERIES_KEYS = Ok records)
            uids per_study ∧
    Forall (fun df => columns df = SERIES_KEYS) dfs ∧
    concat (fmap (M:=list) rows dfs) ≡ₚ all_series_rows per_study.
Proof.
  revert w dfs w'. induction uids as [|uid uids IH]; intros w dfs w'; simpl.
  - intros [= <- _]. exists []. by repeat constructor.
  - intros (df & w1 & Hone & (dfs' & w2 & Hrest & [-> _]%ret_ok)%bind_ok)%bind_ok.
    apply query_series_for_study_ok in Hone as (records & Hfound & Hcols & Hrows).
    apply IH in Hrest as (per_study & Hall & Hcolumns & Hconcat).
    exists (records :: per_study). split; [by constructor|]. split; [by constructor|].
    unfold all_series_rows in *. rewrite !fmap_cons. simpl. by rewrite Hrows, Hconcat.
Qed.

Lemma union_columns_same (dfs : list frame) (cols : list string) :
  dfs ≠ [] → Forall (fun df => columns df = cols) dfs → union_columns dfs = cols.
Proof.
  assert (Hdiff : ∀ l k : list string, list_difference l (l ++ k) = []).
  { intros l k. destruct (list_difference l (l ++ k)) as [|y ys] eqn:Hrest; [done|].
    assert (Hy : y ∈ list_difference l (l ++ k)) by (rewrite Hrest; left).
    apply list_elem_of_difference in Hy. set_solver. }
  intros Hne Hall. induction Hall as [|df dfs Hdf Hall IH]; [done|].
  simpl. rewrite Hdf. destruct dfs as [|df' dfs'].
  - simpl. apply app_nil_r.
  - rewrite IH by done. specialize (Hdiff cols []). rewrite app_nil_r in Hdiff.
    rewrite Hdiff. apply app_nil_r.
Qed.

Lemma query_series_rows (self : KheopsClient) sf fuzzy limit offset
    (w w' : world) (df : frame) :
  _query_series self sf fuzzy limit offset w = (Ok df, w') →
  ∃ studies uids (per_study : list (list json_record)),
    studies_found (_client self) sf fuzzy limit offset STUDY_KEYS = Ok studies ∧
    uids ≡ₚ (fun rec => ds_get (dicomize_json_result rec true) "StudyInstanceUID")
              <$> studies ∧
    Forall2 (fun uid records =>
               series_found (_client self) uid sf fuzzy None None SERIES_KEYS = Ok records)
            uids per_study ∧
    columns df = SERIES_KEYS ∧
    rows df ≡ₚ all_series_rows per_study.
Proof.
  unfold _query_series.
  intros (studies_df & w1 & Hstudies &
          (uids & w2 & [Huids ->]%lift_ok &
           (dfs & w3 & Hfan &
            (all & w4 & [Hconcat ->]%lift_ok & [Hsort _]%lift_ok)%bind_ok)%bind_ok)%bind_ok)%bind_ok.
  destruct (studies_found (_client self) sf fuzzy limit offset STUDY_KEYS)
    as [studies|e] eqn:Hfound.
  2:{ unfold _query_studies, bind, search_for_studies in Hstudies.
      by rewrite Hfound in Hstudies. }
  destruct (query_studies_uids _ _ _ _ _ _ _ _ _ Hfound Hstudies) as (uids' & Huids' & Hperm & _).
  rewrite Huids in Huids'. injection Huids' as <-.
  apply fan_out_tables in Hfan as (per_study & Hall & Hcolumns & Hrows).
  exists studies, uids, per_study. split; [done|]. split; [done|]. split; [done|].
  unfold pd_concat in Hconcat. destruct dfs as [|df0 dfs]; [discriminate|].
  injection Hconcat as <-.
  apply sort_frame_by_uid_sorted in Hsort as (Hcols & Hsorted & _).
  split.
  - rewrite Hcols. cbn [columns].
    change (columns df0 ++ list_difference (union_columns dfs) (columns df0))%list
      with (union_columns (df0 :: dfs)).
    by apply union_columns_same.
  - rewrite Hsorted. cbn [rows]. exact Hrows.
Qed.

(** X12.  The series table is the union of the per-study answers.  When
    [_query_series] returns a table, the study search was answered, every
    study UID of the sorted study table was asked for its series, and the
    rows of the table are the rows of all series records of all those
    answers: no series is lost, none is doubled.  The columns are the
    series columns. *)
Theorem query_series_collects_all (self : KheopsClient) sf fuzzy limit offset
    (w w' : world) (df : frame) :
  _query_series self sf fuzzy limit offset w = (Ok df, w') →
  ∃ studies uids (per_study : list (list json_record)),
    studies_found (_client self) sf fuzzy limit offset STUDY_KEYS = Ok studies ∧
    uids ≡ₚ (fun rec => ds_get (dicomize_json_result rec true) "StudyInstanceUID")
              <$> studies ∧
    Forall2 (fun uid records =>
               series_found (_client self) uid sf fuzzy None None SERIES_KEYS = Ok records)
            uids per_study ∧
    columns df = SERIES_KEYS ∧
    rows df ≡ₚ all_series_rows per_study.
Proof. apply query_series_rows. Qed.

(* ===================================================================== *)
(** ** What [_print_list] shows *)
(* ===================================================================== *)

Section PrintList.
Context `{EqDecision A}.

Lemma drop_duplicates_spec (seen lst : list A) :
  NoDup (drop_duplicates seen lst) ∧
  (∀ x, x ∈ drop_duplicates seen lst ↔ x ∈ lst ∧ x ∉ seen) ∧
  sublist (drop_duplicates seen lst) lst.
Proof.
  revert seen. induction lst as [|x lst IH]; intros seen; simpl.
  - split; [constructor|]. split; [set_solver | constructor].
  - destruct (decide (x ∈ seen)) as [Hseen|Hnew].
    + destruct (IH seen) as (Hnd & Hin & Hsub).
      split; [done|]. split; [|by constructor].
      intros y. rewrite Hin. set_solver.
    + destruct (IH (x :: seen)) as (Hnd & Hin & Hsub).
      split; [|split].
      * constructor; [|done]. rewrite Hin. set_solver.
      * intros y. rewrite elem_of_cons, Hin.
        destruct (decide (y = x)) as [->|]; set_solver.
      * by constructor.
Qed.

Lemma drop_duplicates_length (lst : list A) :
  length (drop_duplicates [] lst) = length (remove_dups lst).
Proof.
  apply Permutation_length, NoDup_Permutation.
  - apply drop_duplicates_spec.
  - apply NoDup_remove_dups.
  - intros x. destruct (drop_duplicates_spec [] lst) as (_ & -> & _).
    rewrite elem_of_remove_dups. set_solver.
Qed.

(** X13.  What [_print_list] prints for a list with [distinct] different
    entries: at most [MAX_ROWS_PRINTED] entries, no entry twice, in the
    order of the list; all entries when there are no more than that many,
    and otherwise the closing line counts exactly the entries left out.
    The closing line is never printed with a count of zero. *)
Theorem print_list_shows_distinct (lst : list A) :
  let distinct := length (remove_dups lst) in
  let shown := (_print_list_shown lst).1 in
  let more := (_print_list_shown lst).2 in
  NoDup shown ∧ sublist shown lst ∧
  length shown = Nat.min MAX_ROWS_PRINTED distinct ∧
  ((distinct ≤ MAX_ROWS_PRINTED)%nat → more = None ∧ ∀ x, x ∈ lst → x ∈ shown) ∧
  ((MAX_ROWS_PRINTED < distinct)%nat →
     more = Some (Z.of_nat distinct - Z.of_nat MAX_ROWS_PRINTED)%Z) ∧
  more ≠ Some 0%Z.
Proof.
  intros distinct shown more. subst distinct shown more.
  unfold _print_list_shown. cbn [fst snd].
  destruct (drop_duplicates_spec [] lst) as (Hnd & Hin & Hsub).
  rewrite drop_duplicates_length. set (distinct := length (remove_dups lst)).
  split; [|split; [|split; [|split; [|split]]]].
  - eapply sublist_NoDup; [exact Hnd | apply sublist_take].
  - etransitivity; [apply sublist_take|done].
  - rewrite length_take, drop_duplicates_length. done.
  - intros Hle. split.
    + destruct (Z.ltb_spec 0 (Z.of_nat distinct - Z.of_nat MAX_ROWS_PRINTED)); [lia|done].
    + intros x Hx. rewrite take_ge by (rewrite drop_duplicates_length; done).
      apply Hin. split; [done | apply not_elem_of_nil].
  - intros Hlt.
    destruct (Z.ltb_spec 0 (Z.of_nat distinct - Z.of_nat MAX_ROWS_PRINTED)); [done|lia].
  - destruct (Z.ltb_spec 0 (Z.of_nat distinct - Z.of_nat MAX_ROWS_PRINTED)); [|done].
    intros [= Heq]. lia.
Qed.

End PrintList.

(* ===================================================================== *)
(** ** Loggers, token and command line *)
(* ===================================================================== *)

(** X14.  The log levels set from the verbosity.  In the client a higher
    verbosity never gives a higher (quieter) level, no verbosity counts as
    zero, and the two library loggers are never more verbose than the
    client's own.  The command line's logger follows the client's up to
    verbosity two, but from three on it falls back to [WARNING] while the
    client and the libraries log at [DEBUG]. *)
Theorem logger_levels :
  (∀ v1 v2 : Z, (v1 ≤ v2)%Z →
     ((_setup_logger (Some v2)).1 ≤ (_setup_logger (Some v1)).1)%Z ∧
     ((_setup_logger (Some v2)).2 ≤ (_setup_logger (Some v1)).2)%Z) ∧
  _setup_logger None = _setup_logger (Some 0%Z) ∧
  (∀ v, ((_setup_logger v).1 ≤ (_setup_logger v).2)%Z) ∧
  (∀ v : Z, (v ≤ 2)%Z → Main.setup_logging (Some v) = (_setup_logger (Some v)).1) ∧
  Main.setup_logging None = (_setup_logger None).1 ∧
  (∀ v : Z, (3 ≤ v)%Z →
     Main.setup_logging (Some v) = WARNING ∧ _setup_logger (Some v) = (DEBUG, DEBUG)).
Proof.
  assert (Hclient : ∀ v : Z,
            _setup_logger (Some v) =
              if (v =? 1)%Z then (INFO, ERROR)
              else if (v =? 2)%Z then (DEBUG, WARNING)
              else if (3 <=? v)%Z then (DEBUG, DEBUG) else (WARNING, ERROR)) by done.
  assert (Hcli : ∀ v : Z,
            Main.setup_logging (Some v) =
              if (v =? 1)%Z then INFO else if (v =? 2)%Z then DEBUG else WARNING).
  { intros [|[[p|p|]|[p|p|]|]|p]; reflexivity. }
  split; [|split; [done|split; [|split; [|split; [done|]]]]].
  - intros v1 v2 Hle. rewrite !Hclient.
    destruct (Z.eqb_spec v1 1), (Z.eqb_spec v1 2), (Z.leb_spec 3 v1),
             (Z.eqb_spec v2 1), (Z.eqb_spec v2 2), (Z.leb_spec 3 v2);
      cbn [fst snd]; unfold DEBUG, INFO, WARNING, ERROR; lia.
  - intros [v|]; [|by unfold _setup_logger; cbn].
    rewrite Hclient.
    destruct (Z.eqb_spec v 1), (Z.eqb_spec v 2), (Z.leb_spec 3 v);
      cbn [fst snd]; unfold DEBUG, INFO, WARNING, ERROR; lia.
  - intros v Hle. rewrite Hclient, Hcli.
    destruct (Z.eqb_spec v 1), (Z.eqb_spec v 2), (Z.leb_spec 3 v); try done; lia.
  - intros v Hle. rewrite Hclient, Hcli.
    destruct (Z.eqb_spec v 1), (Z.eqb_spec v 2), (Z.leb_spec 3 v); try done; lia.
Qed.

Lemma py_dict_absent (pairs : list (string * string)) (d : gmap string string) k :
  k ∉ pairs.*1 →
  foldl (fun (d : gmap string string) kv => <[kv.1 := kv.2]> d) d pairs !! k = d !! k.
Proof.
  revert d. induction pairs as [|[k0 v0] pairs IH]; intros d Hk; [done|].
  rewrite fmap_cons, not_elem_of_cons in Hk. destruct Hk as [Hne Hk].
  simpl. rewrite IH by done. by apply lookup_insert_ne.
Qed.

Lemma py_dict_last (before after : list (string * string)) k v :
  k ∉ after.*1 → py_dict (before ++ (k, v) :: after) !! k = Some v.
Proof.
  intros Hk. unfold py_dict. rewrite foldl_app. simpl.
  rewrite py_dict_absent by done. apply lookup_insert_eq.
Qed.

Lemma truthy_Some s : truthy (Some s) = true ↔ s ≠ "".
Proof.
  simpl. destruct (String.eqb_spec s ""); simpl; split; congruence.
Qed.

(** X15.  The filter dictionary of the command line.  Of several
    [--search-filter] options for one key the last one counts.  A
    non-empty [--study-uid] replaces any [StudyInstanceUID] filter, a
    non-empty [--series-uid] any [SeriesInstanceUID] filter; an absent or
    empty option leaves the filter as given.  All other keys are as
    given. *)
Theorem command_line_filters (args : Main.Args) :
  let given := py_dict (Main.search_filter args) in
  (∀ before after k v,
     Main.search_filter args = (before ++ (k, v) :: after)%list → k ∉ after.*1 →
     given !! k = Some v) ∧
  (∀ k, k ∉ (Main.search_filter args).*1 → given !! k = None) ∧
  (∀ uid, Main.study_uid args = Some uid → uid ≠ "" →
     Main.filters args !! "StudyInstanceUID" = Some uid) ∧
  (∀ uid, Main.series_uid args = Some uid → uid ≠ "" →
     Main.filters args !! "SeriesInstanceUID" = Some uid) ∧
  (Main.study_uid args = None ∨ Main.study_uid args = Some "" →
     Main.filters args !! "StudyInstanceUID" = given !! "StudyInstanceUID") ∧
  (Main.series_uid args = None ∨ Main.series_uid args = Some "" →
     Main.filters args !! "SeriesInstanceUID" = given !! "SeriesInstanceUID") ∧
  (∀ k, k ≠ "StudyInstanceUID" → k ≠ "SeriesInstanceUID" →
     Main.filters args !! k = given !! k).
Proof.
  intros given. subst given. unfold Main.filters.
  split; [|split; [|split; [|split; [|split; [|split]]]]].
  - intros before after k v -> Hk. by apply py_dict_last.
  - intros k Hk. unfold py_dict. by rewrite py_dict_absent.
  - intros uid -> Hne. apply truthy_Some in Hne. rewrite Hne. simpl default.
    destruct (truthy (Main.series_uid args)).
    + rewrite lookup_insert_ne by done. apply lookup_insert_eq.
    + apply lookup_insert_eq.
  - intros uid -> Hne. apply truthy_Some in Hne. rewrite Hne. simpl default.
    apply lookup_insert_eq.
  - intros Hnone.
    assert (truthy (Main.study_uid args) = false) as -> by (by destruct Hnone as [-> | ->]).
    destruct (truthy (Main.series_uid args)); [|done]. by rewrite lookup_insert_ne.
  - intros Hnone.
    assert (truthy (Main.series_uid args) = false) as -> by (by destruct Hnone as [-> | ->]).
    destruct (truthy (Main.study_uid args)); [|done]. by rewrite lookup_insert_ne.
  - intros k Hk1 Hk2.
    destruct (truthy (Main.study_uid args)), (truthy (Main.series_uid args));
      by rewrite ?lookup_insert_ne.
Qed.

Lemma check_token_cases token ACCESS_TOKEN :
  (∀ t, _check_token token ACCESS_TOKEN = inl t ↔
        t ≠ "" ∧ (token = Some t ∨ (token = None ∧ ACCESS_TOKEN = Some t))) ∧
  (∀ status, _check_token token ACCESS_TOKEN = inr status → status = 1%Z).
Proof.
  unfold _check_token. split.
  - intros t. destruct token as [t0|]; [|destruct ACCESS_TOKEN as [t0|]].
    + destruct (String.eqb_spec t0 ""); split.
      * discriminate.
      * intros [Hne [[= ->]|[[=] _]]]. done.
      * intros [= ->]. auto.
      * intros [Hne [[= ->]|[[=] _]]]. done.
    + destruct (String.eqb_spec t0 ""); split.
      * discriminate.
      * intros [Hne [[=]|[_ [= ->]]]]. done.
      * intros [= ->]. auto.
      * intros [Hne [[=]|[_ [= ->]]]]. done.
    + split; [discriminate|]. intros [_ [[=]|[_ [=]]]].
  - intros status. destruct token as [t0|]; [|destruct ACCESS_TOKEN as [t0|]];
      try destruct (String.eqb_spec t0 ""); congruence.
Qed.

Section Dispatch.
Context (st_size_of : node → Z).
Context (print_list : list value → string → result unit).
Context (print_table_summary : frame → result unit).
Context (connect : string → string → DICOMwebClient).

Local Abbreviation run_client :=
  (Main.run_client st_size_of print_list print_table_summary connect).

(** X16.  The access token.  The client takes the [token] argument when
    one is given and the environment variable [ACCESS_TOKEN] otherwise,
    and accepts it when it is not empty; an empty [token] argument is not
    made up for by the environment.  Without an accepted token the command
    line exits with status 1 before anything is sent or written, whatever
    the command and mode. *)
Theorem token_is_checked_first (ACCESS_TOKEN : option string) (args : Main.Args) (w : world) :
  (∀ t, _check_token (Main.token args) ACCESS_TOKEN = inl t ↔
        t ≠ "" ∧ (Main.token args = Some t ∨
                  (Main.token args = None ∧ ACCESS_TOKEN = Some t))) ∧
  ((∀ t, _check_token (Main.token args) ACCESS_TOKEN ≠ inl t) →
   run_client ACCESS_TOKEN args w = (Main.Exited 1, w)).
Proof.
  destruct (check_token_cases (Main.token args) ACCESS_TOKEN) as [Haccept Hstatus].
  split; [exact Haccept|]. intros Hnone.
  unfold Main.run_client, Main.KheopsClient_init.
  destruct (_check_token _ _) as [t|status] eqn:Htoken.
  - by destruct (Hnone t).
  - by rewrite (Hstatus status eq_refl).
Qed.

(** X17.  What the command line asks of the repository, given an accepted
    token.  [list] in mode [studies] sends exactly the study search, with
    the filter dictionary, the fuzzy flag, limit and offset of the command
    line.  [download] with a study UID (and, in mode [series], a series
    UID) sends exactly the one retrieval and no search, so the search
    options are not looked at.  An unknown mode, or an unknown command in
    a known mode, fails an assertion with nothing sent or written; with
    a known mode and command no assertion fails and the run does not
    exit. *)
Theorem command_line_requests (ACCESS_TOKEN : option string) (args : Main.Args)
    (w w' : world) (o : Main.outcome) (t : string) :
  _check_token (Main.token args) ACCESS_TOKEN = inl t →
  run_client ACCESS_TOKEN args w = (o, w') →
  (Main.mode args = "studies" → Main.command args = "list" →
     requests w' = (requests w ++
       [SearchForStudies (Some (Main.filters args)) (Main.fuzzy args)
          (Main.limit args) (Main.offset args) STUDY_KEYS])%list) ∧
  (Main.mode args = "studies" → Main.command args = "download" →
   ∀ uid, Main.study_uid args = Some uid → uid ≠ "" →
     requests w' = (requests w ++
       [if Main.meta_only args then RetrieveStudyMetadata (VStr uid)
        else RetrieveStudy (VStr uid)])%list) ∧
  (Main.mode args = "series" → Main.command args = "download" →
   ∀ study series, Main.study_uid args = Some study → study ≠ "" →
     Main.series_uid args = Some series → series ≠ "" →
     requests w' = (requests w ++
       [if Main.meta_only args then RetrieveSeriesMetadata (VStr study) (VStr series)
        else RetrieveSeries (VStr study) (VStr series)])%list) ∧
  ((Main.mode args ≠ "series" ∧ Main.mode args ≠ "studies") ∨
   (Main.command args ≠ "list" ∧ Main.command args ≠ "download") →
   o = Main.AssertionFailed ∧ w' = w) ∧
  ((Main.mode args = "series" ∨ Main.mode args = "studies") →
   (Main.command args = "list" ∨ Main.command args = "download") →
   o ≠ Main.AssertionFailed ∧ ∀ status, o ≠ Main.Exited status).
Proof.
  intros Htoken. unfold Main.run_client, Main.KheopsClient_init. rewrite Htoken.
  set (client := {| _client := connect (Main.url args) t;
                    _default_out_dir := ["downloads"];
                    _dry_run := Main.dry args |}).
  destruct (one_request_each st_size_of print_list print_table_summary client)
    as (Hlist & Hstudy & Hseries).
  intros Hrun. split; [|split; [|split; [|split]]].
  - intros Hmode Hcommand. rewrite Hmode, Hcommand in Hrun. simpl in Hrun.
    apply finish_world in Hrun as [r Hrun]. by eapply Hlist.
  - intros Hmode Hcommand uid Huid Hne. rewrite Hmode, Hcommand, Huid in Hrun.
    apply truthy_Some in Hne. simpl in Hrun. simpl in Hne. rewrite Hne in Hrun.
    simpl in Hrun. apply finish_world in Hrun as [r Hrun]. by eapply Hstudy.
  - intros Hmode Hcommand study series Hstudy_uid Hne1 Hseries_uid Hne2.
    rewrite Hmode, Hcommand, Hstudy_uid, Hseries_uid in Hrun.
    apply truthy_Some in Hne1, Hne2. simpl in Hrun. simpl in Hne1, Hne2.
    rewrite Hne1, Hne2 in Hrun. simpl in Hrun.
    apply finish_world in Hrun as [r Hrun]. by eapply Hseries.
  - intros [[Hm1 Hm2]|[Hc1 Hc2]].
    + apply String.eqb_neq in Hm1, Hm2. rewrite Hm1, Hm2 in Hrun. by injection Hrun as <- <-.
    + apply String.eqb_neq in Hc1, Hc2. rewrite Hc1, Hc2 in Hrun. simpl in Hrun.
      destruct (Main.mode args =? "series")%string;
        [|destruct (Main.mode args =? "studies")%string]; by injection Hrun as <- <-.
  - assert (Hfinish : ∀ A (run : result A * world),
              Main.finish run = (o, w') →
              o ≠ Main.AssertionFailed ∧ ∀ status, o ≠ Main.Exited status).
    { intros A [[a|e] w0] [= <- _]; done. }
    intros [Hmode|Hmode] [Hcommand|Hcommand]; rewrite Hmode, Hcommand in Hrun;
      simpl in Hrun;
      repeat match type of Hrun with
             | (if ?b then _ else _) = _ => destruct b
             end;
      by eapply Hfinish.
Qed.

End Dispatch.

(* ===================================================================== *)
(** ** [flatten] on values that are not sequences *)
(* ===================================================================== *)

(** X18.  [flatten] away from sequences: [None] and every string come back
    as they are (a one-character string is its own first item); an integer
    has no length, so [flatten] raises [TypeError]; a byte string of
    length one becomes the integer code of its byte, any other byte string
    is unchanged.  Applying [flatten] twice is not the same as applying
    it once: a one-element sequence in a one-element sequence loses one
    level each time. *)
Theorem flatten_scalars :
  flatten VNone = Ok VNone ∧
  (∀ s, flatten (VStr s) = Ok (VStr s)) ∧
  (∀ n, ∃ msg, flatten (VInt n) = Err (TypeError msg)) ∧
  (∀ c, flatten (VBytes (String c EmptyString)) = Ok (VInt (Z.of_nat (Ascii.nat_of_ascii c)))) ∧
  (∀ b, String.length b ≠ 1 → flatten (VBytes b) = Ok (VBytes b)) ∧
  (∀ x, flatten (VSeq [VSeq [x]]) = Ok (VSeq [x]) ∧ flatten (VSeq [x]) = Ok x).
Proof.
  split; [done|]. split; [|split; [|split; [done|split]]].
  - intros [|c [|c' s]]; done.
  - intros n. by eexists.
  - intros [|c [|c' b]] Hlen; done.
  - done.
Qed.

(* ===================================================================== *)
(** ** Search-and-download, and what the listings write *)
(* ===================================================================== *)

Lemma mmap_sent_exactly {A B} (f : A → M B) (req : A → request) (xs : list A) :
  (∀ x, x ∈ xs → relates (sent_exactly [req x]) (f x)) →
  ∀ w ys w', mmap f xs w = (Ok ys, w') →
             requests w' = (requests w ++ (req <$> xs))%list.
Proof.
  induction xs as [|x xs IH]; intros Hf w ys w'; simpl.
  - intros [= _ <-]. by rewrite app_nil_r.
  - intros (y & w1 & Hone & (ys' & w2 & Hrest & [_ ->]%ret_ok)%bind_ok)%bind_ok.
    apply Hf in Hone; [|by left]. apply IH in Hrest; [|intros; apply Hf; by right].
    unfold sent_exactly in Hone. rewrite Hrest, Hone, <- app_assoc. done.
Qed.

Lemma query_studies_columns self sf fuzzy limit offset w df w' :
  _query_studies self sf fuzzy limit offset w = (Ok df, w') → columns df = STUDY_KEYS.
Proof.
  unfold _query_studies. intros Hrun. run_inv Hrun. apply lift_ok in Hrun as [Hsort _].
  by apply sort_frame_by_uid_sorted in Hsort as (-> & _).
Qed.

Section Downloads.
Context (st_size_of : node → Z).
Context (print_list : list value → string → result unit).
Context (print_table_summary : frame → result unit).

(** After the downloads: concatenating, sorting, printing and writing the
    table send nothing. *)
Ltac tail_sends_nothing H :=
  run_inv H;
  repeat match goal with
         | Hstep : lift _ _ = (Ok _, _) |- _ => apply lift_ok in Hstep as [_ ->]
         | Hstep : ret _ _ = (Ok _, _) |- _ => apply ret_ok in Hstep as [_ ->]
         | Hstep : _write_table _ _ _ _ _ = (_, _) |- _ =>
             apply write_table_requests in Hstep as [Hstep _]; rewrite Hstep; clear Hstep
         end.

Lemma download_studies_requests self sf meta_only fuzzy limit offset out_dir forced
    (w w' : world) df_all :
  search_and_download_studies st_size_of print_list print_table_summary self sf meta_only
    fuzzy limit offset out_dir forced w = (Ok (Some df_all), w') →
  ∃ studies,
    _query_studies self sf fuzzy limit offset w =
      (Ok studies, sent w (SearchForStudies sf fuzzy limit offset STUDY_KEYS)) ∧
    requests w' =
      (requests w ++
         SearchForStudies sf fuzzy limit offset STUDY_KEYS ::
         ((fun row => study_retrieval meta_only (cell row "StudyInstanceUID"))
            <$> rows studies))%list.
Proof.
  unfold search_and_download_studies.
  intros (studies & w1 & Hquery & Hrest)%bind_ok.
  pose proof (query_studies_world _ _ _ _ _ _ _ _ Hquery) as ->.
  pose proof (query_studies_columns _ _ _ _ _ _ _ _ Hquery) as Hcols.
  exists studies. split; [done|].
  destruct (frame_len studies =? 0)%nat; [by apply ret_ok in Hrest as [[=] _]|].
  apply bind_ok in Hrest as (dfs & w2 & Hmap & Htail).
  apply (mmap_sent_exactly _
           (fun row => study_retrieval meta_only (cell row "StudyInstanceUID"))) in Hmap.
  - tail_sends_nothing Htail.
    rewrite Hmap. cbn [requests sent]. by rewrite <- app_assoc.
  - intros row _. unfold row_item. rewrite Hcols, bool_decide_true by key_listed.
    intros w0 r w0'. unfold bind at 1, lift. revert w0 r w0'.
    change (relates (sent_exactly [study_retrieval meta_only (cell row "StudyInstanceUID")])
              (bind (_retrieve_single_study self (cell row "StudyInstanceUID") meta_only)
                 (fun dicoms => _write_instances st_size_of self dicoms out_dir forced true))).
    apply sent_exactly_bind; [apply retrieve_single_study_one|].
    intros dicoms. apply write_instances_requests.
Qed.

Lemma download_series_requests self sf meta_only fuzzy limit offset out_dir forced
    (w w' : world) df_all :
  search_and_download_series st_size_of print_list print_table_summary self sf meta_only
    fuzzy limit offset out_dir forced w = (Ok (Some df_all), w') →
  ∃ series w1,
    _query_series self sf fuzzy limit offset w = (Ok series, w1) ∧
    requests w' =
      (requests w1 ++
         ((fun row => series_retrieval meta_only (cell row "StudyInstanceUID")
                        (cell row "SeriesInstanceUID")) <$> rows series))%list.
Proof.
  unfold search_and_download_series.
  intros (series & w1 & Hquery & Hrest)%bind_ok.
  destruct (query_series_rows _ _ _ _ _ _ _ _ Hquery) as (? & ? & ? & _ & _ & _ & Hcols & _).
  exists series, w1. split; [done|].
  destruct (frame_len series =? 0)%nat; [by apply ret_ok in Hrest as [[=] _]|].
  apply bind_ok in Hrest as (dfs & w2 & Hmap & Htail).
  apply (mmap_sent_exactly _
           (fun row => series_retrieval meta_only (cell row "StudyInstanceUID")
                         (cell row "SeriesInstanceUID"))) in Hmap.
  - tail_sends_nothing Htail. exact Hmap.
  - intros row _. unfold row_item. rewrite Hcols, !bool_decide_true by key_listed.
    intros w0 r w0'. unfold bind at 1, lift. unfold bind at 1. revert w0 r w0'.
    change (relates (sent_exactly [series_retrieval meta_only (cell row "StudyInstanceUID")
                                     (cell row "SeriesInstanceUID")])
              (bind (_retrieve_single_series self (cell row "StudyInstanceUID")
                       (cell row "SeriesInstanceUID") meta_only)
                 (fun dicoms => _write_instances st_size_of self dicoms out_dir forced true))).
    apply sent_exactly_bind; [apply retrieve_single_series_one|].
    intros dicoms. apply write_instances_requests.
Qed.

(** X19.  The downloads of a search.  When [search_and_download_studies]
    returns a table, it has sent the study search and then one retrieval
    for every row of the sorted study table, in that order, so the studies
    are fetched in ascending UID order, each once, as metadata or as whole
    objects according to [meta_only].  [search_and_download_series] does
    the same after its series query, with one series retrieval per row of
    the sorted series table. *)
Theorem downloads_follow_the_sorted_table (self : KheopsClient) sf (meta_only fuzzy : bool)
    limit offset out_dir forced (w w' : world) (df_all : frame) :
  (search_and_download_studies st_size_of print_list print_table_summary self sf meta_only
     fuzzy limit offset out_dir forced w = (Ok (Some df_all), w') →
   ∃ studies,
     _query_studies self sf fuzzy limit offset w =
       (Ok studies, sent w (SearchForStudies sf fuzzy limit offset STUDY_KEYS)) ∧
     sorted_by_uid studies "StudyInstanceUID" ∧
     requests w' =
       (requests w ++
          SearchForStudies sf fuzzy limit offset STUDY_KEYS ::
          ((fun row => study_retrieval meta_only (cell row "StudyInstanceUID"))
             <$> rows studies))%list) ∧
  (search_and_download_series st_size_of print_list print_table_summary self sf meta_only
     fuzzy limit offset out_dir forced w = (Ok (Some df_all), w') →
   ∃ series w1,
     _query_series self sf fuzzy limit offset w = (Ok series, w1) ∧
     sorted_by_uid series "SeriesInstanceUID" ∧
     requests w' =
       (requests w1 ++
          ((fun row => series_retrieval meta_only (cell row "StudyInstanceUID")
                         (cell row "SeriesInstanceUID")) <$> rows series))%list).
Proof.
  split.
  - intros (studies & Hquery & Hreq)%download_studies_requests.
    exists studies. split; [done|]. split; [|done]. by eapply query_studies_sorted.
  - intros (series & w1 & Hquery & Hreq)%download_series_requests.
    exists series, w1. split; [done|]. split; [|done]. by eapply query_series_sorted.
Qed.

Lemma listing_tail self df out_dir label title col (w : world) :
  let out := default (_default_out_dir self) out_dir in
  let target := path_join out (csv_filename label (now w)) in
  _dry_run self = false →
  (∀ lst, column df col = Ok lst → print_list lst title = Ok ()) →
  print_table_summary df = Ok () →
  col ∈ columns df →
  (∀ q k : path, out = (k ++ q)%list → is_file_at (fs w) q = false) →
  is_dir_at (fs w) target = false →
  ∃ w',
    (let! lst := lift (column df col) in
     let! _ := lift (print_list lst title) in
     let! _ := lift (print_table_summary df) in
     let! _ := _write_table self df out_dir label in
     ret df) w = (Ok df, w') ∧
    node_at (fs w') target = Some (File (CsvFile df)) ∧
    only_files_differ w w'.
Proof.
  intros out target Hwet Hlist Hsummary Hcol Hpath Htarget.
  destruct (write_table_wet self df out_dir label w Hwet Hpath Htarget)
    as (w' & Hrun & Hnode & _ & _ & Hsame).
  exists w'. split; [|done].
  destruct (column df col) as [lst|e] eqn:Hlst.
  - unfold bind at 1, lift. rewrite (Hlist lst eq_refl). unfold bind at 1. rewrite Hsummary.
    unfold bind at 1. unfold bind. by rewrite Hrun.
  - unfold column in Hlst. by rewrite bool_decide_true in Hlst.
Qed.

(** X20.  The listings write what they return.  For a client not in
    dry-run mode, with no file on the way to the output directory: when the
    query gives a table and the two printing helpers return for it (for the
    list of its UIDs under the listing's title, and for the table itself),
    [list_studies] (and likewise [list_series]) returns that very table
    and stores it as [available_studies_<time stamp>.csv]
    ([available_series_...]) in the output directory, sending nothing
    beyond the query's requests. *)
Theorem listings_write_what_they_return (self : KheopsClient) sf fuzzy limit offset
    (out_dir : option path) (w w1 : world) (df : frame) :
  let out := default (_default_out_dir self) out_dir in
  let target label := path_join out (csv_filename label (now w)) in
  _dry_run self = false →
  (∀ q k : path, out = (k ++ q)%list → is_file_at (fs w) q = false) →
  print_table_summary df = Ok () →
  (_query_studies self sf fuzzy limit offset w = (Ok df, w1) →
   (∀ lst, column df "StudyInstanceUID" = Ok lst →
           print_list lst "Available studies" = Ok ()) →
   is_dir_at (fs w) (target "available_studies") = false →
   ∃ w', list_studies print_list print_table_summary self sf fuzzy limit offset out_dir w
           = (Ok df, w') ∧
         node_at (fs w') (target "available_studies") = Some (File (CsvFile df)) ∧
         requests w' = requests w1) ∧
  (_query_series self sf fuzzy limit offset w = (Ok df, w1) →
   (∀ lst, column df "SeriesInstanceUID" = Ok lst →
           print_list lst "Available series" = Ok ()) →
   is_dir_at (fs w) (target "available_series") = false →
   ∃ w', list_series print_list print_table_summary self sf fuzzy limit offset out_dir w
           = (Ok df, w') ∧
         node_at (fs w') (target "available_series") = Some (File (CsvFile df)) ∧
         requests w' = requests w1).
Proof.
  intros out target Hwet Hpath Hsummary. subst target. split.
  - intros Hquery Hlist Htarget.
    pose proof (query_studies_log _ _ _ _ _ _ _ _ Hquery) as [Hfs Hnow].
    pose proof (query_studies_columns _ _ _ _ _ _ _ _ Hquery) as Hcols.
    destruct (listing_tail self df out_dir "available_studies" "Available studies"
                "StudyInstanceUID" w1 Hwet Hlist Hsummary) as (w' & Hrun & Hnode & Hsame & _).
    + rewrite Hcols. key_listed.
    + rewrite Hfs. exact Hpath.
    + rewrite Hfs, Hnow. exact Htarget.
    + exists w'. unfold list_studies. rewrite (bind_step _ _ _ _ _ Hquery).
      split; [exact Hrun|]. rewrite Hnow in Hnode. done.
  - intros Hquery Hlist Htarget.
    pose proof (query_series_log _ _ _ _ _ _ _ _ Hquery) as [Hfs Hnow].
    destruct (query_series_rows _ _ _ _ _ _ _ _ Hquery) as (? & ? & ? & _ & _ & _ & Hcols & _).
    destruct (listing_tail self df out_dir "available_series" "Available series"
                "SeriesInstanceUID" w1 Hwet Hlist Hsummary) as (w' & Hrun & Hnode & Hsame & _).
    + rewrite Hcols. key_listed.
    + rewrite Hfs. exact Hpath.
    + rewrite Hfs, Hnow. exact Htarget.
    + exists w'. unfold list_series. rewrite (bind_step _ _ _ _ _ Hquery).
      split; [exact Hrun|]. rewrite Hnow in Hnode. done.
Qed.

End Downloads.

(* ===================================================================== *)
(** ** Tags as JSON keys *)
(* ===================================================================== *)

Lemma hex_digit_value_digit d : (0 ≤ d < 16)%Z → hex_digit_value (hex_digit d) = d.
Proof.
  intros Hd.
  assert (d = 0 ∨ d = 1 ∨ d = 2 ∨ d = 3 ∨ d = 4 ∨ d = 5 ∨ d = 6 ∨ d = 7 ∨
          d = 8 ∨ d = 9 ∨ d = 10 ∨ d = 11 ∨ d = 12 ∨ d = 13 ∨ d = 14 ∨ d = 15)%Z
    as Hcases by lia.
  repeat (destruct Hcases as [->|Hcases]; [reflexivity|]). by subst.
Qed.

Lemma hex_value_from acc l :
  foldl (fun acc c => (16 * acc + hex_digit_value c)%Z) acc l =
  (acc * 16 ^ Z.of_nat (length l) + hex_value l)%Z.
Proof.
  unfold hex_value. revert acc. induction l as [|c l IH]; intros acc.
  - simpl. lia.
  - cbn [foldl length]. rewrite IH, (IH (16 * 0 + hex_digit_value c)%Z).
    replace (Z.of_nat (S (length l))) with (Z.of_nat (length l) + 1)%Z by lia.
    rewrite Z.pow_add_r by lia. lia.
Qed.

Lemma hex_value_app l1 l2 :
  hex_value (l1 ++ l2) = (hex_value l1 * 16 ^ Z.of_nat (length l2) + hex_value l2)%Z.
Proof. unfold hex_value at 1. rewrite foldl_app. apply hex_value_from. Qed.

Lemma hex_value_cons c l :
  hex_value (c :: l) = (hex_digit_value c * 16 ^ Z.of_nat (length l) + hex_value l)%Z.
Proof.
  change (c :: l) with ([c] ++ l)%list. rewrite hex_value_app.
  unfold hex_value at 1. simpl. lia.
Qed.

(** The digits written are those of [n], and there are no more of them
    than [n] needs. *)
Lemma hex_digits_spec fuel n acc :
  (0 ≤ n < 16 ^ Z.of_nat fuel)%Z → (0 < fuel)%nat →
  hex_value (hex_digits fuel n acc) = (n * 16 ^ Z.of_nat (length acc) + hex_value acc)%Z ∧
  (length acc < length (hex_digits fuel n acc))%nat ∧
  (∀ k : nat, (0 < k)%nat → (n < 16 ^ Z.of_nat k)%Z →
     (length (hex_digits fuel n acc) ≤ k + length acc)%nat).
Proof.
  revert n acc. induction fuel as [|fuel IH]; intros n acc Hn Hfuel; [lia|].
  simpl. pose proof (Z.div_mod n 16 ltac:(lia)) as Hdm.
  pose proof (Z.mod_pos_bound n 16 ltac:(lia)) as Hmod.
  destruct (Z.eqb_spec (n / 16) 0) as [Hsmall|Hbig].
  - rewrite hex_value_cons, hex_digit_value_digit by done.
    split; [|split].
    + rewrite Hsmall in Hdm. lia.
    + simpl. lia.
    + intros k Hk _. simpl. lia.
  - assert (Hquot : (0 < n / 16)%Z).
    { pose proof (Z.div_pos n 16 ltac:(lia) ltac:(lia)). lia. }
    destruct fuel as [|fuel'].
    { simpl in Hn. assert (n / 16 = 0)%Z by (apply Z.div_small; lia). lia. }
    destruct (IH (n / 16)%Z (hex_digit (n mod 16) :: acc)) as (Hval & Hlen & Hmax).
    + split; [lia|]. apply Z.div_lt_upper_bound; [lia|].
      replace (Z.of_nat (S (S fuel'))) with (Z.of_nat (S fuel') + 1)%Z in Hn by lia.
      rewrite Z.pow_add_r in Hn by lia. lia.
    + lia.
    + split; [|split].
      * rewrite Hval, hex_value_cons, hex_digit_value_digit by done.
        cbn [length].
        replace (Z.of_nat (S (length acc))) with (Z.of_nat (length acc) + 1)%Z by lia.
        rewrite Z.pow_add_r by lia. change (16 ^ 1)%Z with 16%Z.
        generalize dependent (n / 16)%Z. generalize dependent (n mod 16)%Z.
        intros r Hr q. intros. subst n. ring.
      * cbn [length] in Hlen. lia.
      * intros k Hk Hnk. destruct k as [|[|k']]; [lia| |].
        -- simpl in Hnk. assert (n / 16 = 0)%Z by (apply Z.div_small; lia). lia.
        -- specialize (Hmax (S k') ltac:(lia)). cbn [length] in Hmax.
           assert (n / 16 < 16 ^ Z.of_nat (S k'))%Z.
           { apply Z.div_lt_upper_bound; [lia|].
             replace (Z.of_nat (S (S k'))) with (Z.of_nat (S k') + 1)%Z in Hnk by lia.
             rewrite Z.pow_add_r in Hnk by lia. lia. }
           specialize (Hmax ltac:(done)). lia.
Qed.

Lemma hex_value_zeros k l : hex_value (replicate k "0"%char ++ l) = hex_value l.
Proof.
  rewrite hex_value_app.
  assert (hex_value (replicate k "0"%char) = 0%Z) as ->; [|lia].
  unfold hex_value. induction k as [|k IH]; [done|].
  simpl. exact IH.
Qed.

Lemma list_ascii_of_string_app s1 s2 :
  list_ascii_of_string (s1 +:+ s2) = (list_ascii_of_string s1 ++ list_ascii_of_string s2)%list.
Proof. induction s1 as [|c s1 IH]; simpl; [done|]. by rewrite IH. Qed.

Lemma string_length_list s : String.length s = length (list_ascii_of_string s).
Proof. induction s as [|c s IH]; simpl; [done|]. by rewrite IH. Qed.

(** ["%04X"] reads back as the number, and has four digits for a number
    of sixteen bits. *)
Lemma format_04X_spec n :
  (0 ≤ n)%Z →
  hex_value (list_ascii_of_string (format_04X n)) = n ∧
  ((n < 65536)%Z → length (list_ascii_of_string (format_04X n)) = 4%nat).
Proof.
  intros Hn. unfold format_04X. rewrite list_ascii_of_string_of_list_ascii.
  set (fuel := S (Z.to_nat (Z.log2 n))).
  destruct (hex_digits_spec fuel n []) as (Hval & Hlen & Hmax).
  - split; [done|]. subst fuel.
    destruct (Z.eq_dec n 0%Z) as [->|Hpos]; [done|].
    pose proof (Z.log2_spec n ltac:(lia)) as [_ Hlt].
    pose proof (Z.log2_nonneg n) as Hlog.
    replace (Z.of_nat (S (Z.to_nat (Z.log2 n)))) with (Z.succ (Z.log2 n)) by lia.
    eapply Z.lt_le_trans; [exact Hlt|].
    apply Z.pow_le_mono_l. lia.
  - subst fuel. lia.
  - split.
    + rewrite hex_value_zeros, Hval. unfold hex_value. simpl.
      rewrite Z.pow_0_r. lia.
    + intros Hsmall. specialize (Hmax 4%nat ltac:(lia) Hsmall).
      cbn [length] in Hlen, Hmax. rewrite length_app, length_replicate. lia.
Qed.

Section TagKeys.
Context (Tag : string → result Z).

(** X21.  The JSON key of a keyword.  An unknown keyword passes on the
    [ValueError] of [Tag].  For a tag of 32 bits [keyword_to_tag] gives
    eight characters, four hexadecimal digits of the group and four of the
    element, and the key determines the tag: two keywords with the same
    key have the same tag.  [extract_value] raises [KeyError] for a tag
    that is not in the record, returns [None] when the entry lacks the
    key, and otherwise returns the flattened entry. *)
Theorem keyword_to_tag_key (keyword : string) :
  (∀ e, Tag keyword = Err e →
     keyword_to_tag Tag keyword = Err e ∧
     ∀ data key, extract_value Tag data keyword key = Err e) ∧
  (∀ tag, Tag keyword = Ok tag → (0 ≤ tag < 2 ^ 32)%Z →
     ∃ s, keyword_to_tag Tag keyword = Ok s ∧
          String.length s = 8 ∧
          (∀ keyword' tag', Tag keyword' = Ok tag' → (0 ≤ tag' < 2 ^ 32)%Z →
             keyword_to_tag Tag keyword' = Ok s → tag' = tag) ∧
          (∀ data key, data !! s = None →
             extract_value Tag data keyword key = Err (KeyError s)) ∧
          (∀ data key entry, data !! s = Some entry →
             extract_value Tag data keyword key = flatten (default VNone (entry !! key)))).
Proof.
  assert (Hparts : ∀ tag, (0 ≤ tag < 2 ^ 32)%Z →
            (0 ≤ Z.shiftr tag 16 < 65536)%Z ∧ (0 ≤ Z.land tag 65535 < 65536)%Z ∧
            tag = (Z.shiftr tag 16 * 65536 + Z.land tag 65535)%Z).
  { intros tag Htag. rewrite Z.shiftr_div_pow2 by lia.
    change 65535%Z with (Z.ones 16). rewrite Z.land_ones by lia.
    change (2 ^ 16)%Z with 65536%Z.
    pose proof (Z.div_mod tag 65536 ltac:(lia)).
    pose proof (Z.mod_pos_bound tag 65536 ltac:(lia)).
    assert (0 ≤ tag / 65536)%Z by (apply Z.div_pos; lia).
    assert (tag / 65536 < 65536)%Z by (apply Z.div_lt_upper_bound; lia).
    lia. }
  split.
  - intros e He. unfold extract_value, keyword_to_tag. rewrite He. done.
  - intros tag Htag Hrange. unfold extract_value, keyword_to_tag. rewrite Htag.
    cbn [rbind]. eexists. split; [reflexivity|].
    destruct (Hparts tag Hrange) as (Hgroup & Helement & Hsum).
    destruct (format_04X_spec (Z.shiftr tag 16) ltac:(lia)) as [Hg Hglen].
    destruct (format_04X_spec (Z.land tag 65535) ltac:(lia)) as [He Helen].
    split; [|split; [|split]].
    + rewrite string_length_list, list_ascii_of_string_app, length_app.
      rewrite Hglen, Helen by lia. done.
    + intros keyword' tag' Htag' Hrange'. rewrite Htag'. cbn [rbind]. intros [= Heq].
      destruct (Hparts tag' Hrange') as (Hgroup' & Helement' & Hsum').
      destruct (format_04X_spec (Z.shiftr tag' 16) ltac:(lia)) as [Hg' Hglen'].
      destruct (format_04X_spec (Z.land tag' 65535) ltac:(lia)) as [He' Helen'].
      apply (f_equal list_ascii_of_string) in Heq.
      rewrite !list_ascii_of_string_app in Heq.
      apply app_inj_1 in Heq as [Heq1 Heq2]; [|rewrite Hglen, Hglen' by lia; done].
      rewrite Heq1 in Hg'. rewrite Heq2 in He'. lia.
    + intros data key ->. done.
    + intros data key entry ->. done.
Qed.

End TagKeys.

Section RepositoryErrors.
Context (st_size_of : node → Z).
Context (print_list : list value → string → result unit).
Context (print_table_summary : frame → result unit).

(** X22.  An exception of the repository comes out as it is.  When the
    study search fails, the two listings, both searches-and-downloads and
    the series query raise that exception right after the one request;
    when the retrieval fails, so does the single download.  Nothing is
    caught, wrapped or tried again, and no file or directory is made,
    in dry-run mode and out of it. *)
Theorem repository_errors_come_out (self : KheopsClient) (e : exn) (w : world) :
  (∀ sf fuzzy limit offset,
     studies_found (_client self) sf fuzzy limit offset STUDY_KEYS = Err e →
     let after := sent w (SearchForStudies sf fuzzy limit offset STUDY_KEYS) in
     (∀ out_dir, list_studies print_list print_table_summary self sf fuzzy limit offset
                   out_dir w = (Err e, after)) ∧
     (∀ out_dir, list_series print_list print_table_summary self sf fuzzy limit offset
                   out_dir w = (Err e, after)) ∧
     _query_series self sf fuzzy limit offset w = (Err e, after) ∧
     (∀ meta_only out_dir forced,
        search_and_download_studies st_size_of print_list print_table_summary self sf
          meta_only fuzzy limit offset out_dir forced w = (Err e, after)) ∧
     (∀ meta_only out_dir forced,
        search_and_download_series st_size_of print_list print_table_summary self sf
          meta_only fuzzy limit offset out_dir forced w = (Err e, after))) ∧
  (∀ study_uid out_dir forced,
     (study_instances (_client self) study_uid = Err e →
      download_study st_size_of print_list print_table_summary self study_uid false
        out_dir forced w = (Err e, sent w (RetrieveStudy study_uid))) ∧
     (study_metadata (_client self) study_uid = Err e →
      download_study st_size_of print_list print_table_summary self study_uid true
        out_dir forced w = (Err e, sent w (RetrieveStudyMetadata study_uid)))) ∧
  (∀ study_uid series_uid out_dir forced,
     (series_instances (_client self) study_uid series_uid = Err e →
      download_series st_size_of print_list print_table_summary self study_uid series_uid
        false out_dir forced w = (Err e, sent w (RetrieveSeries study_uid series_uid))) ∧
     (series_metadata (_client self) study_uid series_uid = Err e →
      download_series st_size_of print_list print_table_summary self study_uid series_uid
        true out_dir forced w =
        (Err e, sent w (RetrieveSeriesMetadata study_uid series_uid)))).
Proof.
  split; [|split].
  - intros sf fuzzy limit offset Hfail after.
    assert (Hquery : _query_studies self sf fuzzy limit offset w = (Err e, after)).
    { unfold _query_studies, bind, search_for_studies. by rewrite Hfail. }
    assert (Hseries : _query_series self sf fuzzy limit offset w = (Err e, after)).
    { unfold _query_series. by rewrite (bind_fail _ _ _ _ _ Hquery). }
    split; [|split; [|split; [|split]]]; intros.
    + unfold list_studies. by rewrite (bind_fail _ _ _ _ _ Hquery).
    + unfold list_series. by rewrite (bind_fail _ _ _ _ _ Hseries).
    + done.
    + unfold search_and_download_studies. by rewrite (bind_fail _ _ _ _ _ Hquery).
    + unfold search_and_download_series. by rewrite (bind_fail _ _ _ _ _ Hseries).
  - intros study_uid out_dir forced. split; intros Hfail.
    + unfold download_study, _retrieve_single_study, bind, retrieve_study.
      by rewrite Hfail.
    + unfold download_study, _retrieve_single_study, bind, retrieve_study_metadata.
      by rewrite Hfail.
  - intros study_uid series_uid out_dir forced. split; intros Hfail.
    + unfold download_series, _retrieve_single_series, bind, retrieve_series.
      by rewrite Hfail.
    + unfold download_series, _retrieve_single_series, bind, retrieve_series_metadata.
      by rewrite Hfail.
Qed.

End RepositoryErrors.

(* ===================================================================== *)
(** ** The further properties at work on the examples *)
(* ===================================================================== *)

Lemma dry_run_operations_keep_files_witness :
  fs (download_study example_size quiet_list quiet_summary
        (example_client example_repository true) (VStr "1.2") false None true
        example_world).2 = fs example_world.
Proof.
  destruct (dry_run_operations_keep_files example_size quiet_list quiet_summary
              (example_client example_repository true) eq_refl) as (_ & _ & _ & H & _).
  exact (H (VStr "1.2") false None true example_world _ _ (surjective_pairing _)).
Defined.

Lemma run_client_dry_keeps_files_witness :
  fs (Main.run_client example_size quiet_list quiet_summary example_connect None
        example_args example_world).2 = fs example_world.
Proof.
  exact (run_client_dry_keeps_files example_size quiet_list quiet_summary example_connect
           None example_args example_world _ _ eq_refl (surjective_pairing _)).
Defined.

Lemma operations_request_kinds_witness :
  sent_only (download_request true) example_world
    (search_and_download_studies example_size quiet_list quiet_summary
       (example_client example_repository false) None true false None None None false
       example_world).2.
Proof.
  destruct (operations_request_kinds example_size quiet_list quiet_summary
              (example_client example_repository false)) as (_ & _ & _ & _ & H & _).
  exact (H None true false None None None false example_world _ _ (surjective_pairing _)).
Defined.

Lemma single_operations_send_one_request_witness :
  requests (download_study example_size quiet_list quiet_summary
              (example_client example_repository false) (VStr "1.2") false None false
              example_world).2 = [RetrieveStudy (VStr "1.2")].
Proof.
  destruct (single_operations_send_one_request example_size quiet_list quiet_summary
              (example_client example_repository false)) as (_ & H & _).
  exact (H (VStr "1.2") false None false example_world _ _ (surjective_pairing _)).
Defined.

Lemma sort_frame_by_uid_outcome_witness :
  ∃ e, uid_key VNone = Err e ∧
       sort_frame_by_uid example_table "StudyInstanceUID" = Err e.
Proof.
  destruct (sort_frame_by_uid_outcome example_table "StudyInstanceUID") as (_ & _ & _ & H).
  destruct (H ltac:(repeat constructor)
              [ {["StudyInstanceUID" := VStr "1.10"]} ] {["StudyInstanceUID" := VNone]} [])
    as (e & Hkey & Hsort).
  - reflexivity.
  - constructor; [|constructor]. exists "1.10", [1; 10]%Z. split; vm_compute; reflexivity.
  - intros (s & zs & Hcell & _). vm_compute in Hcell. discriminate Hcell.
  - exists e. split; [exact Hkey | exact Hsort].
Defined.

Lemma query_studies_outcome_witness :
  ∃ df, _query_studies (example_client example_repository false) None true None None
          example_world =
          (Ok df, sent example_world (SearchForStudies None true None None STUDY_KEYS)) ∧
        frame_len df = 2.
Proof.
  destruct (query_studies_outcome (example_client example_repository false) None true None
              None example_world) as (_ & H & _).
  destruct (H [example_record [("StudyInstanceUID", "1.10")];
               example_record [("StudyInstanceUID", "1.2")]] eq_refl)
    as (df & Hrun & _ & _ & Hlen).
  - constructor; [|constructor; [|constructor]].
    + exists "1.10", [1; 10]%Z. split; vm_compute; reflexivity.
    + exists "1.2", [1; 2]%Z. split; vm_compute; reflexivity.
  - exists df. split; [exact Hrun | exact Hlen].
Defined.

Lemma search_and_download_studies_nothing_found_witness :
  search_and_download_studies example_size quiet_list quiet_summary
    (example_client empty_repository false) None false true None None None false
    example_world =
  (Ok None, sent example_world (SearchForStudies None true None None STUDY_KEYS)).
Proof.
  exact (proj2 (search_and_download_studies_nothing_found example_size quiet_list
                  quiet_summary (example_client empty_repository false) None false true
                  None None None false example_world eq_refl)).
Defined.

Lemma ensure_ouput_dir_outcome_witness :
  match _ensure_ouput_dir (example_client example_repository false) None false
          example_world with
  | (Ok made, w') => made = ["downloads"] ∧ is_dir_at (fs w') ["downloads"] = true
  | (Err _, _) => False
  end ∧
  _ensure_ouput_dir (example_client example_repository false)
    (Some ["b"; "a"; "downloads"]) true example_world_blocked =
    (Err (NotADirectoryError ["b"; "a"; "downloads"]), example_world_blocked) ∧
  ∃ above k : path, ["b"; "a"; "downloads"] = (k ++ above)%list ∧ k ≠ [] ∧
                    is_file_at (fs example_world_blocked) above = true.
Proof.
  split.
  - assert (Hok : returned (_ensure_ouput_dir (example_client example_repository false)
                              None false example_world) = true)
      by (vm_compute; reflexivity).
    destruct (_ensure_ouput_dir _ _ _ _) as [[made|e] w'] eqn:Hrun; [|discriminate Hok].
    exact (proj2 (proj2 (proj2 (ensure_ouput_dir_outcome
                                  (example_client example_repository false) None false
                                  example_world w' (Ok made) Hrun)))).
  - assert (Hrun : _ensure_ouput_dir (example_client example_repository false)
                     (Some ["b"; "a"; "downloads"]) true example_world_blocked =
                   (Err (NotADirectoryError ["b"; "a"; "downloads"]), example_world_blocked))
      by (vm_compute; reflexivity).
    split; [exact Hrun|].
    exact (proj1 (proj2 (proj2 (proj2 (proj2 (ensure_ouput_dir_outcome
                                  (example_client example_repository false)
                                  (Some ["b"; "a"; "downloads"]) true
                                  example_world_blocked example_world_blocked
                                  (Err (NotADirectoryError ["b"; "a"; "downloads"]))
                                  Hrun)))))).
Defined.

Lemma file_in_place_of_output_dir_witness :
  _ensure_ouput_dir (example_client example_repository false) None true
    example_world_blocked = (Err (FileExistsError ["downloads"]), example_world_blocked).
Proof.
  exact (proj1 (file_in_place_of_output_dir example_size
                  (example_client example_repository false) None true
                  example_world_blocked eq_refl eq_refl)).
Defined.

Lemma write_table_stores_csv_witness :
  ∃ w', _write_table (example_client example_repository false) example_table None
          "available_studies" example_world = (Ok (), w') ∧
        node_at (fs w') ["available_studies_2020-01-01_00.00.00.csv"; "downloads"] =
          Some (File (CsvFile example_table)).
Proof.
  destruct (write_table_stores_csv (example_client example_repository false) example_table
              None "available_studies" example_world eq_refl) as (w' & Hrun & Hnode & _).
  - intros q k _. unfold is_file_at, node_at. destruct q; [reflexivity|].
    cbn [fs example_world]. rewrite lookup_empty. reflexivity.
  - reflexivity.
  - exists w'. split; [exact Hrun | exact Hnode].
Defined.

Lemma write_instances_table_and_files_witness :
  match _write_instances example_size (example_client example_repository false)
          example_batch None false false example_world with
  | (Ok df, w') =>
      (∃ saved, Forall2 flags_filled_in example_batch saved ∧
                rows df ≡ₚ zip_with (written_row example_size) example_batch saved) ∧
      ∃ d, node_at (fs w') ["1.2.1.3.dcm"; "1.2.1"; "downloads"] = Some (File (DcmFile d)) ∧
           elements d = elements (example_instance "1.2" "1.2.1" "1.2.1.3") ∧
           is_little_endian d = Some false ∧ is_implicit_VR d = Some false
  | (Err _, _) => False
  end.
Proof.
  assert (Hok : returned (_write_instances example_size
                            (example_client example_repository false)
                            example_batch None false false example_world) = true)
    by (vm_compute; reflexivity).
  destruct (_write_instances _ _ _ _ _ _ _) as [[df|e] w'] eqn:Hrun; [|discriminate Hok].
  destruct (write_instances_table_and_files example_size
              (example_client example_repository false) example_batch None false false
              example_world w' df eq_refl) as (_ & saved & Hflags & Hfiles & Hrows).
  - constructor; [|constructor; [|constructor]].
    + exists "1.2.1", "1.2.1.10". repeat split; vm_compute; reflexivity.
    + exists "1.2.1", "1.2.1.3". repeat split; vm_compute; reflexivity.
  - constructor; [|constructor; [|constructor]].
    + intros Hin. apply list_elem_of_singleton in Hin. vm_compute in Hin. discriminate Hin.
    + apply not_elem_of_nil.
  - exact Hrun.
  - split; [exists saved; split; [exact Hflags | exact Hrows]|].
    unfold example_batch in Hflags, Hfiles.
    apply Forall2_cons_inv_l in Hflags as (d1 & k1 & _ & Hflags & ->).
    apply Forall2_cons_inv_l in Hflags as (d2 & k2 & (Hel & Hle & Hvr) & _ & ->).
    apply Forall2_cons in Hfiles as [_ Hfiles].
    apply Forall2_cons in Hfiles as [(series & sop & Hse & Hso & Hnode) _].
    vm_compute in Hse. injection Hse as <-. vm_compute in Hso. injection Hso as <-.
    exists d2. split; [exact Hnode|]. split; [exact Hel|]. split; [exact Hle | exact Hvr].
Defined.

Lemma query_series_collects_all_witness :
  match _query_series (example_client example_repository false) None true None None
          example_world with
  | (Ok df, _) =>
      ∃ per_study : list (list json_record),
        length per_study = 2 ∧ rows df ≡ₚ all_series_rows per_study
  | (Err _, _) => False
  end.
Proof.
  assert (Hok : returned (_query_series (example_client example_repository false)
                            None true None None example_world) = true)
    by (vm_compute; reflexivity).
  destruct (_query_series _ _ _ _ _ _) as [[df|e] w'] eqn:Hrun; [|discriminate Hok].
  destruct (query_series_collects_all (example_client example_repository false) None true
              None None example_world w' df Hrun)
    as (studies & uids & per_study & Hfound & Hperm & Hall & _ & Hrows).
  exists per_study. split; [|exact Hrows].
  injection Hfound as <-.
  rewrite <- (Forall2_length _ _ _ Hall), (Permutation_length Hperm). reflexivity.
Defined.

Lemma print_list_shows_distinct_witness :
  (_print_list_shown ["1.2"; "1.10"; "1.2"]).2 = None ∧
  ∀ x, x ∈ ["1.2"; "1.10"; "1.2"] → x ∈ (_print_list_shown ["1.2"; "1.10"; "1.2"]).1.
Proof.
  destruct (print_list_shows_distinct ["1.2"; "1.10"; "1.2"]) as (_ & _ & _ & H & _).
  apply H. vm_compute. lia.
Defined.

Lemma logger_levels_witness :
  Main.setup_logging (Some 3%Z) = WARNING ∧ _setup_logger (Some 3%Z) = (DEBUG, DEBUG).
Proof.
  destruct logger_levels as (_ & _ & _ & _ & _ & H). apply H. lia.
Defined.

Lemma command_line_filters_witness :
  Main.filters example_args !! "StudyInstanceUID" = Some "1.2" ∧
  Main.filters example_args !! "Modality" = Some "CT".
Proof.
  destruct (command_line_filters example_args) as (Hlast & _ & Hstudy & _ & _ & _ & Hother).
  split.
  - apply Hstudy; [reflexivity | discriminate].
  - rewrite Hother by discriminate.
    apply (Hlast [] [("StudyInstanceUID", "9.9")]); [reflexivity|].
    intros Hin. apply list_elem_of_singleton in Hin. discriminate Hin.
Defined.

Lemma token_is_checked_first_witness :
  Main.run_client example_size quiet_list quiet_summary example_connect (Some "secret")
    example_args_empty_token example_world = (Main.Exited 1, example_world).
Proof.
  apply (token_is_checked_first example_size quiet_list quiet_summary example_connect
           (Some "secret") example_args_empty_token example_world).
  intros t Ht. vm_compute in Ht. discriminate Ht.
Defined.

Lemma command_line_requests_witness :
  requests (Main.run_client example_size quiet_list quiet_summary example_connect None
              example_args example_world).2 =
  [SearchForStudies (Some (Main.filters example_args)) false (Some 5) None STUDY_KEYS].
Proof.
  exact (proj1 (command_line_requests example_size quiet_list quiet_summary example_connect
                  None example_args example_world _ _ "secret" eq_refl
                  (surjective_pairing _)) eq_refl eq_refl).
Defined.

Lemma flatten_scalars_witness : flatten (VBytes "ab") = Ok (VBytes "ab").
Proof.
  destruct flatten_scalars as (_ & _ & _ & _ & H & _). apply H. discriminate.
Defined.

Lemma downloads_follow_the_sorted_table_witness :
  match search_and_download_studies example_size quiet_list quiet_summary
          (example_client example_repository true) None false true None None None false
          example_world with
  | (Ok (Some _), w') =>
      ∃ studies,
        sorted_by_uid studies "StudyInstanceUID" ∧
        requests w' =
          SearchForStudies None true None None STUDY_KEYS ::
          ((fun row => RetrieveStudy (cell row "StudyInstanceUID")) <$> rows studies)
  | _ => False
  end.
Proof.
  assert (Hok : returned_table
                  (search_and_download_studies example_size quiet_list quiet_summary
                     (example_client example_repository true) None false true None None
                     None false example_world) = true)
    by (vm_compute; reflexivity).
  destruct (search_and_download_studies _ _ _ _ _ _ _ _ _ _ _ _) as [[[df|]|e] w'] eqn:Hrun;
    try discriminate Hok.
  destruct (proj1 (downloads_follow_the_sorted_table example_size quiet_list quiet_summary
                     (example_client example_repository true) None false true None None
                     None false example_world w' df) Hrun)
    as (studies & _ & Hsorted & Hreq).
  exists studies. split; [exact Hsorted | exact Hreq].
Defined.

Lemma listings_write_what_they_return_witness :
  (∃ df w',
     list_studies quiet_list quiet_summary (example_client catalogued_repository false)
       None true None None None example_world = (Ok df, w') ∧
     column df "ModalitiesInStudy" = Ok [VStr "CT"; VStr "CT"] ∧
     node_at (fs w') ["available_studies_2020-01-01_00.00.00.csv"; "downloads"] =
       Some (File (CsvFile df))) ∧
  (∃ df w',
     list_series quiet_list quiet_summary (example_client catalogued_repository false)
       None true None None None example_world = (Ok df, w') ∧
     column df "Modality" = Ok [VStr "CT"; VStr "CT"] ∧
     node_at (fs w') ["available_series_2020-01-01_00.00.00.csv"; "downloads"] =
       Some (File (CsvFile df))).
Proof.
  assert (Hpath : ∀ q k : path,
            default (_default_out_dir (example_client catalogued_repository false)) None
              = (k ++ q)%list → is_file_at (fs example_world) q = false).
  { intros q k _. unfold is_file_at, node_at. destruct q; [reflexivity|].
    cbn [fs example_world]. rewrite lookup_empty. reflexivity. }
  split.
  - assert (Hok : returned (_query_studies (example_client catalogued_repository false)
                              None true None None example_world) = true)
      by (vm_compute; reflexivity).
    assert (Hmod : match _query_studies (example_client catalogued_repository false)
                           None true None None example_world with
                   | (Ok df, _) => column df "ModalitiesInStudy" = Ok [VStr "CT"; VStr "CT"]
                   | (Err _, _) => True
                   end)
      by (vm_compute; reflexivity).
    destruct (_query_studies _ _ _ _ _ _) as [[df|e] w1] eqn:Hquery; [|discriminate Hok].
    destruct (listings_write_what_they_return quiet_list quiet_summary
                (example_client catalogued_repository false) None true None None None
                example_world w1 df eq_refl Hpath eq_refl) as [Hstudies _].
    destruct (Hstudies Hquery (fun _ _ => eq_refl) eq_refl) as (w' & Hrun & Hnode & _).
    exists df, w'. split; [exact Hrun|]. split; [exact Hmod | exact Hnode].
  - assert (Hok : returned (_query_series (example_client catalogued_repository false)
                              None true None None example_world) = true)
      by (vm_compute; reflexivity).
    assert (Hmod : match _query_series (example_client catalogued_repository false)
                           None true None None example_world with
                   | (Ok df, _) => column df "Modality" = Ok [VStr "CT"; VStr "CT"]
                   | (Err _, _) => True
                   end)
      by (vm_compute; reflexivity).
    destruct (_query_series _ _ _ _ _ _) as [[df|e] w1] eqn:Hquery; [|discriminate Hok].
    destruct (listings_write_what_they_return quiet_list quiet_summary
                (example_client catalogued_repository false) None true None None None
                example_world w1 df eq_refl Hpath eq_refl) as [_ Hseries].
    destruct (Hseries Hquery (fun _ _ => eq_refl) eq_refl) as (w' & Hrun & Hnode & _).
    exists df, w'. split; [exact Hrun|]. split; [exact Hmod | exact Hnode].
Defined.

Lemma keyword_to_tag_key_witness :
  keyword_to_tag example_Tag "PatientID" = Ok "00100020" ∧
  extract_value example_Tag example_json "PatientID" "Value" = Ok (VStr "ABC123") ∧
  extract_value example_Tag example_json "Modality" "Value" = Err (KeyError "00080060").
Proof.
  split; [vm_compute; reflexivity|]. split.
  - destruct (proj2 (keyword_to_tag_key example_Tag "PatientID") 1048608%Z eq_refl
                ltac:(lia)) as (s & Hs & _ & _ & _ & Hsome).
    vm_compute in Hs. injection Hs as <-.
    rewrite (Hsome example_json "Value"
               {[ "vr" := VStr "LO"; "Value" := VSeq [VStr "ABC123"] ]} eq_refl).
    vm_compute. reflexivity.
  - destruct (proj2 (keyword_to_tag_key example_Tag "Modality") 524384%Z eq_refl
                ltac:(lia)) as (s & Hs & _ & _ & Hnone & _).
    vm_compute in Hs. injection Hs as <-.
    apply Hnone. vm_compute. reflexivity.
Defined.

Lemma repository_errors_come_out_witness :
  list_series quiet_list quiet_summary (example_client unreachable_repository false)
    None true None None None example_world =
  (Err (RuntimeError "connection refused"),
   sent example_world (SearchForStudies None true None None STUDY_KEYS)).
Proof.
  destruct (repository_errors_come_out example_size quiet_list quiet_summary
              (example_client unreachable_repository false)
              (RuntimeError "connection refused") example_world) as (H & _).
  destruct (H None true None None eq_refl) as (_ & Hseries & _).
  exact (Hseries None).
Defined.
